(** * Stash-savings pipeline ([scripts/calculate_savings.py])

    A shallow embedding of the script's three functions, [load_items],
    [calculate_savings] and [main], together with the fragment of Python
    they rely on: JSON values as produced by [json.load], the operators
    [in], [[]], [<=], [/], [+] and [-] on those values, exceptions, and
    the two directories the script reads and writes. *)

From Stdlib Require Import ZArith List String Ascii Bool Lia Permutation FinFun.
From Stdlib Require Import Floats.SpecFloat Floats.PrimFloat Floats.FloatOps.
Import ListNotations.

Set Warnings "-register-all".

Local Open Scope string_scope.
Local Open Scope Z_scope.
Local Open Scope list_scope.

(** * The program *)

(** ** Python values *)

(** Python floats are IEEE 754 binary64; [spec_float] at precision 53 and
    maximal exponent 1024 is their specification in the standard library. *)
Definition pyfloat : Set := spec_float.

Definition fadd : pyfloat -> pyfloat -> pyfloat := SFadd prec emax.
Definition fsub : pyfloat -> pyfloat -> pyfloat := SFsub prec emax.
Definition fdiv : pyfloat -> pyfloat -> pyfloat := SFdiv prec emax.
Definition fzero : pyfloat := S754_zero false.

(** What [json.load] returns.  A JSON object becomes a [dict], which keeps
    its keys in insertion order: an association list in that order. *)
Inductive json : Type :=
| JNull
| JBool (b : bool)
| JInt (z : Z)
| JFloat (f : pyfloat)
| JStr (s : string)
| JList (l : list json)
| JDict (d : list (string * json)).

Definition dict : Type := list (string * json).

(** The exceptions that the modelled operations can raise. *)
Inductive exn : Type :=
| TypeError
| AttributeError
| KeyError
| ZeroDivisionError
| OverflowError
| OSError
| UnicodeDecodeError
| ValueError.

Inductive result (A : Type) : Type :=
| Ok (a : A)
| Raise (e : exn).
Arguments Ok {A} a.
Arguments Raise {A} e.

Definition rbind {A B} (r : result A) (k : A -> result B) : result B :=
  match r with
  | Ok a => k a
  | Raise e => Raise e
  end.

Declare Scope result_scope.
Delimit Scope result_scope with result.
Notation "x <- r ;; k" := (rbind r (fun x => k))
  (at level 61, r at next level, right associativity) : result_scope.

(** *** Dictionaries with string keys *)

Fixpoint dict_get (k : string) (d : dict) : option json :=
  match d with
  | [] => None
  | (k', v) :: rest => if String.eqb k' k then Some v else dict_get k rest
  end.

Definition dict_mem (k : string) (d : dict) : bool :=
  match dict_get k d with Some _ => true | None => false end.

(** [d[k] = v]: an existing key keeps its position, a new one goes last. *)
Fixpoint dict_set (k : string) (v : json) (d : dict) : dict :=
  match d with
  | [] => [(k, v)]
  | (k', v') :: rest =>
      if String.eqb k' k then (k', v) :: rest else (k', v') :: dict_set k v rest
  end.

(** [d.get(k, default)] *)
Definition dict_get_default (k : string) (default : json) (d : dict) : json :=
  match dict_get k d with Some v => v | None => default end.

(** *** Numbers *)

(** [bool] is a subclass of [int]: [True] is 1 and [False] is 0. *)
Inductive pynum : Type :=
| NInt (z : Z)
| NFloat (f : pyfloat).

Definition num_of (v : json) : option pynum :=
  match v with
  | JBool b => Some (NInt (if b then 1 else 0))
  | JInt z => Some (NInt z)
  | JFloat f => Some (NFloat f)
  | _ => None
  end.

Definition is_infinite (f : pyfloat) : bool :=
  match f with S754_infinity _ => true | _ => false end.

(** [float(z)]: the nearest double, ties to even; [OverflowError] when the
    integer is too large. *)
Definition int_to_float (z : Z) : result pyfloat :=
  let f := binary_normalize prec emax z 0 false in
  if is_infinite f then Raise OverflowError else Ok f.

Definition to_float (x : pynum) : result pyfloat :=
  match x with
  | NInt z => int_to_float z
  | NFloat f => Ok f
  end.

(** An integer as an exact (unrounded) binary number. *)
Definition exact_of_int (z : Z) : pyfloat :=
  match z with
  | Z0 => S754_zero false
  | Zpos p => S754_finite false p 0
  | Zneg p => S754_finite true p 0
  end.

(** [a / b] on two ints: the correctly rounded quotient. *)
Definition int_truediv (a b : Z) : result pyfloat :=
  if b =? 0 then Raise ZeroDivisionError
  else
    let q := fdiv (exact_of_int a) (exact_of_int b) in
    if is_infinite q then Raise OverflowError else Ok q.

(** [a / b] on two floats, or on a float and an int (the int is converted
    first). *)
Definition float_truediv (a b : pynum) : result pyfloat :=
  (fa <- to_float a ;;
   fb <- to_float b ;;
   if SFeqb fb fzero then Raise ZeroDivisionError else Ok (fdiv fa fb))%result.

Definition num_truediv (a b : pynum) : result pyfloat :=
  match a, b with
  | NInt x, NInt y => int_truediv x y
  | _, _ => float_truediv a b
  end.

(** [a / b] *)
Definition py_truediv (a b : json) : result pyfloat :=
  match num_of a, num_of b with
  | Some x, Some y => num_truediv x y
  | _, _ => Raise TypeError
  end.

(** [v <= 0] *)
Definition py_le_zero (v : json) : result bool :=
  match num_of v with
  | Some (NInt z) => Ok (z <=? 0)
  | Some (NFloat f) => Ok (SFleb f fzero)
  | None => Raise TypeError
  end.

(** [bool(v)], as tested by [not v] *)
Definition py_truthy (v : json) : bool :=
  match v with
  | JNull => false
  | JBool b => b
  | JInt z => negb (z =? 0)
  | JFloat f => negb (SFeqb f fzero)
  | JStr s => negb (String.eqb s "")
  | JList l => match l with [] => false | _ => true end
  | JDict d => match d with [] => false | _ => true end
  end.

(** *** Containment and subscription with a string *)

(** [needle in haystack] for two strings *)
Fixpoint str_contains (needle haystack : string) : bool :=
  if String.prefix needle haystack then true
  else match haystack with
       | EmptyString => false
       | String _ rest => str_contains needle rest
       end.

(** [x == JStr k] for a list element [x] *)
Definition eq_str (k : string) (x : json) : bool :=
  match x with JStr s => String.eqb s k | _ => false end.

(** [k in v] for a string [k] *)
Definition py_contains (k : string) (v : json) : result bool :=
  match v with
  | JDict d => Ok (dict_mem k d)
  | JList l => Ok (existsb (eq_str k) l)
  | JStr s => Ok (str_contains k s)
  | _ => Raise TypeError
  end.

(** [v[k]] for a string [k] *)
Definition py_getitem (v : json) (k : string) : result json :=
  match v with
  | JDict d => match dict_get k d with Some x => Ok x | None => Raise KeyError end
  | _ => Raise TypeError
  end.

(** [v.get(k, default)] *)
Definition py_get (v : json) (k : string) (default : json) : result json :=
  match v with
  | JDict d => Ok (dict_get_default k default d)
  | _ => Raise AttributeError
  end.

(** [v.items()] *)
Definition py_items (v : json) : result (list (string * json)) :=
  match v with
  | JDict d => Ok d
  | _ => Raise AttributeError
  end.

(** [v[k] = x] for a string [k] *)
Definition py_setitem (v : json) (k : string) (x : json) : result json :=
  match v with
  | JDict d => Ok (JDict (dict_set k x d))
  | _ => Raise TypeError
  end.

(** *** Dictionaries keyed by arbitrary hashable values *)

(** [items] in [load_items] is keyed by whatever the records carry in
    their [id] field.  Lists and dicts are unhashable. *)
Definition py_hashable (k : json) : bool :=
  match k with
  | JList _ | JDict _ => false
  | _ => true
  end.

(** Whether the float [f] is exactly the integer [a]. *)
Definition float_is_int (f : pyfloat) (a : Z) : bool :=
  match f with
  | S754_zero _ => a =? 0
  | S754_finite s m e =>
      if 0 <=? e then a =? cond_Zopp s (Zpos m * 2 ^ e)
      else cond_Zopp s (Zpos m) =? a * 2 ^ (- e)
  | _ => false
  end.

Definition num_eqb (x y : pynum) : bool :=
  match x, y with
  | NInt a, NInt b => a =? b
  | NFloat f, NFloat g => SFeqb f g
  | NInt a, NFloat f | NFloat f, NInt a => float_is_int f a
  end.

(** Key comparison of a dict lookup: [stored is probe or stored == probe].
    Numbers compare by value across [bool], [int] and [float].  A NaN is
    [==] to nothing, but [json.load] returns one and the same object for
    every [NaN] of every document, and the lookup tests identity first: a
    NaN key is found by a NaN probe. *)
Definition py_key_eqb (stored probe : json) : bool :=
  match stored, probe with
  | JNull, JNull => true
  | JStr a, JStr b => String.eqb a b
  | JFloat S754_nan, JFloat S754_nan => true
  | _, _ =>
      match num_of stored, num_of probe with
      | Some x, Some y => num_eqb x y
      | _, _ => false
      end
  end.

(** The catalog: [items_map], from [id] to record, in insertion order. *)
Definition catalog : Type := list (json * json).

Fixpoint catalog_get (k : json) (m : catalog) : option json :=
  match m with
  | [] => None
  | (k', v) :: rest => if py_key_eqb k' k then Some v else catalog_get k rest
  end.

(** [k in m] *)
Definition catalog_mem (k : json) (m : catalog) : bool :=
  match catalog_get k m with Some _ => true | None => false end.

(** [m[k]] *)
Definition catalog_getitem (m : catalog) (k : json) : result json :=
  match catalog_get k m with Some v => Ok v | None => Raise KeyError end.

Fixpoint catalog_insert (k v : json) (m : catalog) : catalog :=
  match m with
  | [] => [(k, v)]
  | (k', v') :: rest =>
      if py_key_eqb k' k then (k', v) :: rest
      else (k', v') :: catalog_insert k v rest
  end.

(** [m[k] = v] *)
Definition catalog_setitem (m : catalog) (k v : json) : result catalog :=
  if py_hashable k then Ok (catalog_insert k v m) else Raise TypeError.

(** ** [calculate_savings] *)

(** Lines 49-50 and 57-58:
    [if stack_size <= 0: stack_size = 1] *)
Definition clamp_stack_size (stack_size : json) : result json :=
  (b <- py_le_zero stack_size ;;
   Ok (if b then JInt 1 else stack_size))%result.

(** Lines 39-52, the loop over [recipe.items()].  [Ok None] is the early
    [return None] of line 44; [Ok (Some s)] is the loop running to its end
    with [ingredient_space = s]. *)
Fixpoint ingredient_loop (items_map : catalog) (pairs : list (string * json))
    (ingredient_space : pyfloat) : result (option pyfloat) :=
  match pairs with
  | [] => Ok (Some ingredient_space)
  | (ingredient_id, quantity) :: rest =>
      if negb (catalog_mem (JStr ingredient_id) items_map) then Ok None
      else
        (ingredient <- catalog_getitem items_map (JStr ingredient_id) ;;
         stack_size <- py_get ingredient "stackSize" (JInt 1) ;;
         stack_size <- clamp_stack_size stack_size ;;
         term <- py_truediv quantity stack_size ;;
         ingredient_loop items_map rest (fadd ingredient_space term))%result
  end.

Definition calculate_savings (item : json) (items_map : catalog)
    : result (option pyfloat) :=
  (has_recipe <- py_contains "recipe" item ;;
   if negb has_recipe then Ok None
   else
     recipe <- py_getitem item "recipe" ;;
     if negb (py_truthy recipe) then Ok None
     else
       pairs <- py_items recipe ;;
       looped <- ingredient_loop items_map pairs fzero ;;
       match looped with
       | None => Ok None
       | Some ingredient_space =>
           craft_quantity <- py_get item "craftQuantity" (JInt 1) ;;
           target_stack_size <- py_get item "stackSize" (JInt 1) ;;
           target_stack_size <- clamp_stack_size target_stack_size ;;
           target_space <- py_truediv craft_quantity target_stack_size ;;
           Ok (Some (fsub ingredient_space target_space))
       end)%result.

(** ** The file system and the console *)

(** What opening a source file and calling [json.load] on it does: it
    returns the parsed value, or raises ([JSONDecodeError] for text that is
    not JSON, [UnicodeDecodeError] for bytes that are not UTF-8, [OSError]
    when the path cannot be opened, e.g. a directory named [x.json]). *)
Inductive exception : Type :=
| JSONDecodeError
| Other (e : exn).

Inductive read_outcome : Type :=
| Raises (e : exception)
| Parsed (data : json).

(** The two directories of the script, [SOURCE_DIR] and [DEST_DIR]. *)
Inductive dirname : Type :=
| SOURCE_DIR
| DEST_DIR.

(** The lines the script prints, one constructor per [print] call. *)
Inductive message : Type :=
| MsgSourceMissing                              (* line 13 *)
| MsgNoId (file_path : string)                  (* line 24 *)
| MsgErrorDecoding (file_path : string)         (* line 26 *)
| MsgClearing                                   (* line 68 *)
| MsgLoading                                    (* line 73 *)
| MsgLoaded (n : nat)                           (* line 75 *)
| MsgNoItems                                    (* line 78 *)
| MsgCalculating                                (* line 82 *)
| MsgSkipping (filename : string) (e : exception) (* line 93 *)
| MsgProcessed (processed calculated : nat)     (* line 110 *)
| MsgOutputSaved.                               (* line 111 *)

(** What a run does to its environment, in the order it does it. *)
Inductive event : Type :=
| EvPrint (m : message)
| EvExists (d : dirname)
| EvRmtree
| EvMakedirs
| EvGlob
| EvOpenRead (filename : string)
| EvOpenWrite (filename : string).

(** [source_dir] is [None] when [SOURCE_DIR] does not exist, and otherwise
    lists its entries in the order of the directory listing, each with what
    reading it yields.  [dest_dir] is [None] when [DEST_DIR] does not
    exist, and otherwise holds the documents written there.  [trace] is the
    history of the run, oldest event first.

    The destination is a path the script owns: when it exists it is a
    directory that [shutil.rmtree] can remove, and a document opened there
    for writing is written in full.  A [DEST_DIR] that is a regular file
    or cannot be removed, and a write that fails (disk, permissions, or a
    string that [utf-8] cannot encode, on which [json.dump] raises
    [UnicodeEncodeError]), are outside this model: the properties below
    that speak of a whole run are about runs on such a destination. *)
Record world : Type := mkWorld {
  source_dir : option (list (string * read_outcome));
  dest_dir : option (list (string * json));
  trace : list event
}.

(** Computations that act on the world and may raise. *)
Definition M (A : Type) : Type := world -> result A * world.

Definition ret {A} (a : A) : M A := fun w => (Ok a, w).

Definition bind {A B} (m : M A) (k : A -> M B) : M B :=
  fun w =>
    match m w with
    | (Ok a, w') => k a w'
    | (Raise e, w') => (Raise e, w')
    end.

Definition raise {A} (e : exn) : M A := fun w => (Raise e, w).

Definition lift {A} (r : result A) : M A := fun w => (r, w).

Declare Scope m_scope.
Delimit Scope m_scope with M.
Notation "x <- m ;; k" := (bind m (fun x => k))
  (at level 61, m at next level, right associativity) : m_scope.
Notation "m ;; k" := (bind m (fun _ => k))
  (at level 61, right associativity) : m_scope.

Definition emit (e : event) : M unit :=
  fun w => (Ok tt, mkWorld (source_dir w) (dest_dir w) (trace w ++ [e])).

Definition print (m : message) : M unit := emit (EvPrint m).

(** [os.path.exists(d)] *)
Definition path_exists (d : dirname) : M bool :=
  (emit (EvExists d) ;;
   fun w =>
     (Ok match d with
         | SOURCE_DIR => match source_dir w with Some _ => true | None => false end
         | DEST_DIR => match dest_dir w with Some _ => true | None => false end
         end, w))%M.

(** [shutil.rmtree(DEST_DIR)] *)
Definition rmtree : M unit :=
  (emit EvRmtree ;;
   fun w =>
     match dest_dir w with
     | Some _ => (Ok tt, mkWorld (source_dir w) None (trace w))
     | None => (Raise OSError, w)
     end)%M.

(** [os.makedirs(DEST_DIR)] *)
Definition makedirs : M unit :=
  (emit EvMakedirs ;;
   fun w =>
     match dest_dir w with
     | Some _ => (Raise OSError, w)
     | None => (Ok tt, mkWorld (source_dir w) (Some []) (trace w))
     end)%M.

Fixpoint ends_with (suffix s : string) : bool :=
  if String.eqb s suffix then true
  else match s with
       | EmptyString => false
       | String _ rest => ends_with suffix rest
       end.

(** Whether a file name matches the pattern [*.json]: it ends in [.json]
    and, as for every pattern of [glob] that does not itself start with a
    dot, it is not a hidden name. *)
Definition glob_match (filename : string) : bool :=
  negb (String.prefix "." filename) && ends_with ".json" filename.

(** [glob.glob(os.path.join(SOURCE_DIR, '*.json'))].  The script never
    writes to [SOURCE_DIR], so a path returned here is paired with what
    reading it will yield. *)
Definition glob_json : M (list (string * read_outcome)) :=
  (emit EvGlob ;;
   fun w =>
     (Ok match source_dir w with
         | Some entries => filter (fun entry => glob_match (fst entry)) entries
         | None => []
         end, w))%M.

(** [open(path, 'r', encoding='utf-8')] followed by [json.load(f)], with
    the exception, if any, handed to the caller's [except] clauses. *)
Definition open_and_load (filename : string) (outcome : read_outcome)
    : M read_outcome :=
  (emit (EvOpenRead filename) ;; ret outcome)%M.

Fixpoint file_set (filename : string) (data : json)
    (files : list (string * json)) : list (string * json) :=
  match files with
  | [] => [(filename, data)]
  | (n, d) :: rest =>
      if String.eqb n filename then (n, data) :: rest
      else (n, d) :: file_set filename data rest
  end.

(** [open(dest_path, 'w', encoding='utf-8')] followed by
    [json.dump(data, f, indent=2, ensure_ascii=False)]: the file holds the
    document [data]. *)
Definition write_json (filename : string) (data : json) : M unit :=
  (emit (EvOpenWrite filename) ;;
   fun w =>
     match dest_dir w with
     | Some files =>
         (Ok tt, mkWorld (source_dir w) (Some (file_set filename data files)) (trace w))
     | None => (Raise OSError, w)
     end)%M.

(** ** [load_items] *)

(** Lines 17-26, the loop over [files].  Only [JSONDecodeError] is caught;
    any other exception leaves the function. *)
Fixpoint load_loop (files : list (string * read_outcome)) (items : catalog)
    : M catalog :=
  match files with
  | [] => ret items
  | (file_path, outcome) :: rest =>
      (r <- open_and_load file_path outcome ;;
       match r with
       | Raises JSONDecodeError =>
           print (MsgErrorDecoding file_path) ;;
           load_loop rest items
       | Raises (Other e) => raise e
       | Parsed data =>
           has_id <- lift (py_contains "id" data) ;;
           if has_id then
             id <- lift (py_getitem data "id") ;;
             items' <- lift (catalog_setitem items id data) ;;
             load_loop rest items'
           else
             print (MsgNoId file_path) ;;
             load_loop rest items
       end)%M
  end.

(** [load_items(SOURCE_DIR)] *)
Definition load_items : M catalog :=
  (found <- path_exists SOURCE_DIR ;;
   if negb found then
     print MsgSourceMissing ;;
     ret []
   else
     files <- glob_json ;;
     load_loop files [])%M.

(** ** [main] *)

(** Lines 97-101: the record as it will be written, and whether a savings
    value was set on it. *)
Definition augment (data : json) (items_map : catalog) : result (json * bool) :=
  (has_id <- py_contains "id" data ;;
   if has_id then
     savings <- calculate_savings data items_map ;;
     match savings with
     | Some s =>
         data' <- py_setitem data "stashSavings" (JFloat s) ;;
         Ok (data', true)
     | None => Ok (data, false)
     end
   else Ok (data, false))%result.

(** Lines 87-108, the loop over [files]. *)
Fixpoint publish_loop (items_map : catalog) (files : list (string * read_outcome))
    (processed_count calculated_count : nat) : M (nat * nat) :=
  match files with
  | [] => ret (processed_count, calculated_count)
  | (filename, outcome) :: rest =>
      (r <- open_and_load filename outcome ;;
       match r with
       | Raises e =>
           print (MsgSkipping filename e) ;;
           publish_loop items_map rest processed_count calculated_count
       | Parsed data =>
           augmented <- lift (augment data items_map) ;;
           write_json filename (fst augmented) ;;
           publish_loop items_map rest (S processed_count)
             (if snd augmented then S calculated_count else calculated_count)
       end)%M
  end.

Definition main : M unit :=
  (found <- path_exists DEST_DIR ;;
   (if found then print MsgClearing ;; rmtree else ret tt) ;;
   makedirs ;;
   print MsgLoading ;;
   items_map <- load_items ;;
   print (MsgLoaded (List.length items_map)) ;;
   match items_map with
   | [] => print MsgNoItems
   | _ :: _ =>
       print MsgCalculating ;;
       files <- glob_json ;;
       counts <- publish_loop items_map files 0 0 ;;
       print (MsgProcessed (fst counts) (snd counts)) ;;
       print MsgOutputSaved
   end)%M.

(** ** The savings formula, as the specification words it *)

Module Spec.

(** The effective stack size of a record: its [stackSize], 1 when the
    field is absent, 1 when the value is [<= 0]. *)
Definition effectiveStackSize (record : json) : result json :=
  match record with
  | JDict fields =>
      match dict_get "stackSize" fields with
      | None => Ok (JInt 1)
      | Some size =>
          (nonpositive <- py_le_zero size ;;
           Ok (if nonpositive then JInt 1 else size))%result
      end
  | _ => Raise AttributeError
  end.

(** One summand: the quantity divided by the effective stack size of the
    ingredient found in the catalog. *)
Definition slots (items_map : catalog) (pair : string * json) : result pyfloat :=
  match catalog_get (JStr (fst pair)) items_map with
  | Some ingredient =>
      (size <- effectiveStackSize ingredient ;;
       py_truediv (snd pair) size)%result
  | None => Raise KeyError
  end.

Fixpoint traverse {A B} (f : A -> result B) (l : list A) : result (list B) :=
  match l with
  | [] => Ok []
  | a :: rest =>
      (b <- f a ;;
       bs <- traverse f rest ;;
       Ok (b :: bs))%result
  end.

(** The sum of a list of floats, taken from the left, starting at 0.0. *)
Definition float_sum (terms : list pyfloat) : pyfloat :=
  fold_left fadd terms fzero.

Definition ingredientSpace (items_map : catalog) (recipe : list (string * json))
    : result pyfloat :=
  (terms <- traverse (slots items_map) recipe ;;
   Ok (float_sum terms))%result.

Definition targetSpace (item : dict) : result pyfloat :=
  (size <- effectiveStackSize (JDict item) ;;
   py_truediv (dict_get_default "craftQuantity" (JInt 1) item) size)%result.

Definition savings (item : dict) (recipe : list (string * json))
    (items_map : catalog) : result pyfloat :=
  (ingredient_space <- ingredientSpace items_map recipe ;;
   target_space <- targetSpace item ;;
   Ok (fsub ingredient_space target_space))%result.

End Spec.

(** ** The loops without the world

    Neither loop reads the trace, and neither touches [SOURCE_DIR]: what
    a loop returns, prints and writes is a function of the files it is
    given.  The functions below compute it, and [load_loop_run] and
    [publish_loop_run] show that the loops do exactly that to any world. *)

Definition advance (w : world) (events : list event) : world :=
  mkWorld (source_dir w) (dest_dir w) (trace w ++ events).

Fixpoint load_run (files : list (string * read_outcome)) (items : catalog)
    : result catalog * list event :=
  match files with
  | [] => (Ok items, [])
  | (file_path, outcome) :: rest =>
      let '(r, events) :=
        match outcome with
        | Raises JSONDecodeError =>
            let '(r, events) := load_run rest items in
            (r, EvPrint (MsgErrorDecoding file_path) :: events)
        | Raises (Other e) => (Raise e, [])
        | Parsed data =>
            match py_contains "id" data with
            | Ok true =>
                match (id <- py_getitem data "id" ;;
                       catalog_setitem items id data)%result with
                | Ok items' => load_run rest items'
                | Raise e => (Raise e, [])
                end
            | Ok false =>
                let '(r, events) := load_run rest items in
                (r, EvPrint (MsgNoId file_path) :: events)
            | Raise e => (Raise e, [])
            end
        end in
      (r, EvOpenRead file_path :: events)
  end.

Definition write_all (writes files : list (string * json)) : list (string * json) :=
  fold_left (fun fs w => file_set (fst w) (snd w) fs) writes files.

Record publication : Type := mkPublication {
  pub_result : result (nat * nat);
  pub_writes : list (string * json);
  pub_events : list event
}.

Fixpoint publish_run (items_map : catalog) (files : list (string * read_outcome))
    (processed_count calculated_count : nat) : publication :=
  match files with
  | [] => mkPublication (Ok (processed_count, calculated_count)) [] []
  | (filename, outcome) :: rest =>
      match outcome with
      | Raises e =>
          let p := publish_run items_map rest processed_count calculated_count in
          mkPublication (pub_result p) (pub_writes p)
            (EvOpenRead filename :: EvPrint (MsgSkipping filename e) :: pub_events p)
      | Parsed data =>
          match augment data items_map with
          | Ok augmented =>
              let p := publish_run items_map rest (S processed_count)
                         (if snd augmented then S calculated_count
                          else calculated_count) in
              mkPublication (pub_result p)
                ((filename, fst augmented) :: pub_writes p)
                (EvOpenRead filename :: EvOpenWrite filename :: pub_events p)
          | Raise e => mkPublication (Raise e) [] [EvOpenRead filename]
          end
      end
  end.

(** The files that [glob] returns. *)
Definition matched (w : world) : list (string * read_outcome) :=
  match source_dir w with
  | Some entries => filter (fun entry => glob_match (fst entry)) entries
  | None => []
  end.

(** What [load_items] returns and emits. *)
Definition load_items_run (w : world) : result catalog * list event :=
  match source_dir w with
  | None => (Ok [], [EvExists SOURCE_DIR; EvPrint MsgSourceMissing])
  | Some _ =>
      (fst (load_run (matched w) []),
       EvExists SOURCE_DIR :: EvGlob :: snd (load_run (matched w) []))
  end.

(** What lines 67-70 emit. *)
Definition reset_events (w : world) : list event :=
  EvExists DEST_DIR
  :: match dest_dir w with
     | Some _ => [EvPrint MsgClearing; EvRmtree]
     | None => []
     end
  ++ [EvMakedirs].

(** Lines 73-111, everything after the reset. *)
Definition pipeline : M unit :=
  (print MsgLoading ;;
   items_map <- load_items ;;
   print (MsgLoaded (List.length items_map)) ;;
   match items_map with
   | [] => print MsgNoItems
   | _ :: _ =>
       print MsgCalculating ;;
       files <- glob_json ;;
       counts <- publish_loop items_map files 0 0 ;;
       print (MsgProcessed (fst counts) (snd counts)) ;;
       print MsgOutputSaved
   end)%M.

(** What [pipeline] returns, writes to the emptied [DEST_DIR] and emits. *)
Definition pipeline_run (w : world)
    : result unit * list (string * json) * list event :=
  let loading := EvPrint MsgLoading :: snd (load_items_run w) in
  match fst (load_items_run w) with
  | Raise e => (Raise e, [], loading)
  | Ok [] => (Ok tt, [], loading ++ [EvPrint (MsgLoaded 0); EvPrint MsgNoItems])
  | Ok items_map =>
      let p := publish_run items_map (matched w) 0 0 in
      let during :=
        loading
        ++ [EvPrint (MsgLoaded (List.length items_map)); EvPrint MsgCalculating;
            EvGlob]
        ++ pub_events p in
      match pub_result p with
      | Ok counts =>
          (Ok tt, write_all (pub_writes p) [],
           during ++ [EvPrint (MsgProcessed (fst counts) (snd counts));
                      EvPrint MsgOutputSaved])
      | Raise e => (Raise e, write_all (pub_writes p) [], during)
      end
  end.

(** What [main] returns, leaves in [DEST_DIR] and emits. *)
Definition main_run (w : world)
    : result unit * list (string * json) * list event :=
  let '(r, written, events) := pipeline_run w in
  (r, written, reset_events w ++ events).

(** ** Vocabulary of the statements *)

(** A recipe that is absent, or "empty" in the sense of [not recipe]. *)
Definition no_recipe (item : dict) : Prop :=
  dict_get "recipe" item = None
  \/ exists recipe, dict_get "recipe" item = Some recipe /\ py_truthy recipe = false.

(** An event of one of the two loops: a print, or the opening of one of
    the files the loop was given. *)
Definition loop_event (files : list (string * read_outcome)) (e : event) : Prop :=
  (exists m, e = EvPrint m)
  \/ (exists filename,
        (e = EvOpenRead filename \/ e = EvOpenWrite filename)
        /\ In filename (map fst files)).

Definition touches_source (e : event) : bool :=
  match e with
  | EvExists SOURCE_DIR | EvGlob | EvOpenRead _ => true
  | _ => false
  end.

Definition resets_dest (e : event) : bool :=
  match e with
  | EvRmtree | EvMakedirs => true
  | _ => false
  end.

Definition is_write (e : event) : bool :=
  match e with EvOpenWrite _ => true | _ => false end.

(** An event that opens a file opens one of the given names. *)
Definition opens_among (names : list string) (e : event) : Prop :=
  forall filename,
    e = EvOpenRead filename \/ e = EvOpenWrite filename -> In filename names.

(** The records that carry a string [id], with that id, in the order of
    the directory listing. *)
Fixpoint id_records (files : list (string * read_outcome))
    : list (string * json) :=
  match files with
  | [] => []
  | (_, Parsed (JDict d)) :: rest =>
      match dict_get "id" d with
      | Some (JStr s) => (s, JDict d) :: id_records rest
      | _ => id_records rest
      end
  | _ :: rest => id_records rest
  end.

(** The last record of the listing that carries the id [s]. *)
Fixpoint last_record (s : string) (records : list (string * json)) : option json :=
  match records with
  | [] => None
  | (s', record) :: rest =>
      match last_record s rest with
      | Some later => Some later
      | None => if String.eqb s' s then Some record else None
      end
  end.

Definition insert_all (records : list (string * json)) (items : catalog) : catalog :=
  fold_left (fun m r => catalog_insert (JStr (fst r)) (snd r) m) records items.

(** A file the loader can digest: text that is not JSON, or a record whose
    [id], when it has one, is a string. *)
Definition record_file (entry : string * read_outcome) : bool :=
  match snd entry with
  | Raises JSONDecodeError => true
  | Parsed (JDict d) =>
      match dict_get "id" d with
      | None | Some (JStr _) => true
      | Some _ => false
      end
  | _ => false
  end.

(** What the loader emits for one file. *)
Definition load_events (entry : string * read_outcome) : list event :=
  EvOpenRead (fst entry)
  :: match snd entry with
     | Raises JSONDecodeError => [EvPrint (MsgErrorDecoding (fst entry))]
     | Parsed data =>
         match py_contains "id" data with
         | Ok false => [EvPrint (MsgNoId (fst entry))]
         | _ => []
         end
     | _ => []
     end.

(** [clamped r r']: [r'] is [r], or [r] with a [stackSize] that is [<= 0]
    replaced by 1. *)
Inductive clamped : json -> json -> Prop :=
| clamped_same (r : json) : clamped r r
| clamped_one (d : dict) (v : json) :
    dict_get "stackSize" d = Some v ->
    py_le_zero v = Ok true ->
    clamped (JDict d) (JDict (dict_set "stackSize" (JInt 1) d)).

(** Two catalogs with the same keys and records equal up to [clamped]. *)
Definition catalog_clamped (m m' : catalog) : Prop :=
  Forall2 (fun e e' => fst e' = fst e /\ clamped (snd e) (snd e')) m m'.

Definition outcome_clamped (o o' : read_outcome) : Prop :=
  match o, o' with
  | Raises e, Raises e' => e' = e
  | Parsed v, Parsed v' => clamped v v'
  | _, _ => False
  end.

Definition entries_clamped (l l' : list (string * read_outcome)) : Prop :=
  Forall2 (fun e e' => fst e' = fst e /\ outcome_clamped (snd e) (snd e')) l l'.

Definition files_clamped (l l' : list (string * json)) : Prop :=
  Forall2 (fun f f' => fst f' = fst f /\ clamped (snd f) (snd f')) l l'.

(** The two outcomes of a loop agree: the same exception, or results that
    are related. *)
Definition result_rel {A} (R : A -> A -> Prop) (r r' : result A) : Prop :=
  match r, r' with
  | Ok a, Ok a' => R a a'
  | Raise e, Raise e' => e' = e
  | _, _ => False
  end.

(** ** Example data *)

Definition example_item : dict :=
  [("id", JStr "X"); ("recipe", JDict [("A", JInt 4)]);
   ("craftQuantity", JInt 1); ("stackSize", JInt 1)].

Definition example_catalog : catalog :=
  [(JStr "A", JDict [("id", JStr "A"); ("stackSize", JInt 8)])].

Definition record_A : dict := [("id", JStr "A"); ("stackSize", JInt 8)].

Definition record_Y : dict :=
  [("id", JStr "Y"); ("recipe", JDict [("A", JInt 10); ("C", JInt 5)])].

(** A raw material that, in the source, already carries a [stashSavings]. *)
Definition record_R : dict := [("id", JStr "R"); ("stashSavings", JInt 5)].

Definition example_entries : list (string * read_outcome) :=
  [("a.json", Parsed (JDict record_A));
   ("x.json", Parsed (JDict example_item));
   ("y.json", Parsed (JDict record_Y));
   ("r.json", Parsed (JDict record_R));
   ("broken.json", Raises JSONDecodeError);
   ("notes.txt", Parsed (JDict record_A))].

Definition example_world : world :=
  mkWorld (Some example_entries) (Some [("stale.json", JNull)]) [].

Definition example_loaded : catalog :=
  [(JStr "A", JDict record_A); (JStr "X", JDict example_item);
   (JStr "Y", JDict record_Y); (JStr "R", JDict record_R)].

Definition example_published : list (string * json) :=
  [("a.json", JDict record_A);
   ("x.json",
    JDict (dict_set "stashSavings" (JFloat (Prim2SF (-0.5)%float)) example_item));
   ("y.json", JDict record_Y);
   ("r.json", JDict record_R)].




Definition duplicate_entries : list (string * read_outcome) :=
  [("1.json", Parsed (JDict [("id", JStr "A"); ("stackSize", JInt 8)]));
   ("2.json", Parsed (JDict [("id", JStr "B")]));
   ("3.json", Parsed (JDict [("id", JStr "A"); ("stackSize", JInt 4)]));
   ("4.json", Parsed (JDict [("name", JStr "anonymous")]));
   ("5.json", Raises JSONDecodeError)].

Definition duplicate_world : world := mkWorld (Some duplicate_entries) None [].




Definition degenerate_entries : list (string * read_outcome) :=
  [("a.json", Parsed (JDict [("id", JStr "A"); ("stackSize", JInt 0)]));
   ("x.json", Parsed (JDict [("id", JStr "X"); ("recipe", JDict [("A", JInt 4)]);
                             ("stackSize", JInt (-3))]))].

Definition corrected_entries : list (string * read_outcome) :=
  [("a.json", Parsed (JDict [("id", JStr "A"); ("stackSize", JInt 1)]));
   ("x.json", Parsed (JDict [("id", JStr "X"); ("recipe", JDict [("A", JInt 4)]);
                             ("stackSize", JInt 1)]))].

(** ** Vocabulary of the further properties *)

(** The exceptions that can leave [calculate_savings]. *)
Definition calculation_error (e : exn) : bool :=
  match e with
  | TypeError | AttributeError | OverflowError => true
  | _ => false
  end.

(** Two catalogs answer alike for an ingredient id: both lack it, or both
    hold a record for it and [ingredient.get('stackSize', 1)] is the same
    on the two records. *)
Definition same_stack_size (found found' : option json) : Prop :=
  match found, found' with
  | Some ingredient, Some ingredient' =>
      py_get ingredient' "stackSize" (JInt 1) = py_get ingredient "stackSize" (JInt 1)
  | None, None => True
  | _, _ => False
  end.

(** A directory in which a craftable record lacks its [id]. *)
Definition anonymous_entries : list (string * read_outcome) :=
  [("a.json", Parsed (JDict record_A));
   ("n.json", Parsed (JDict [("recipe", JDict [("A", JInt 4)])]))].

Definition anonymous_world : world := mkWorld (Some anonymous_entries) None [].

Definition is_parsed (entry : string * read_outcome) : bool :=
  match snd entry with Parsed _ => true | Raises _ => false end.

(** The names of the files that parsed, in the order of the listing. *)
Definition parsed_names (files : list (string * read_outcome)) : list string :=
  map fst (filter is_parsed files).

(** Whether lines 97-101 set a savings value on the record of a file. *)
Definition savings_set (items_map : catalog) (entry : string * read_outcome) : bool :=
  match snd entry with
  | Parsed data =>
      match augment data items_map with
      | Ok augmented => snd augmented
      | Raise _ => false
      end
  | Raises _ => false
  end.

(** A parsed value on which lines 21-22 raise: a scalar, on which
    ['id' in data] is not defined; a list or a string that contains
    ["id"], which cannot be subscripted with it; a record whose [id] is a
    list or an object, which cannot be a key. *)
Definition not_a_record (data : json) : bool :=
  match data with
  | JDict d =>
      match dict_get "id" d with
      | Some id => negb (py_hashable id)
      | None => false
      end
  | JList l => existsb (eq_str "id") l
  | JStr s => str_contains "id" s
  | _ => true
  end.

Definition unreadable_entries : list (string * read_outcome) :=
  [("a.json", Parsed (JDict record_A));
   ("locked.json", Raises (Other OSError));
   ("x.json", Parsed (JDict example_item))].

Definition unreadable_world : world :=
  mkWorld (Some unreadable_entries) (Some [("stale.json", JNull)]) [].

Definition scalar_entries : list (string * read_outcome) :=
  [("a.json", Parsed (JDict record_A));
   ("count.json", Parsed (JInt 42));
   ("x.json", Parsed (JDict example_item))].

Definition scalar_world : world := mkWorld (Some scalar_entries) None [].

(** What the publisher writes for one file when lines 97-101 do not
    raise. *)
Definition publish_one (items_map : catalog) (entry : string * read_outcome)
    : list (string * json) :=
  match snd entry with
  | Parsed data =>
      match augment data items_map with
      | Ok augmented => [(fst entry, fst augmented)]
      | Raise _ => []
      end
  | Raises _ => []
  end.

(** The [id] record of one file, if it has a string [id]. *)
Definition id_record (entry : string * read_outcome) : list (string * json) :=
  match snd entry with
  | Parsed (JDict d) =>
      match dict_get "id" d with
      | Some (JStr s) => [(s, JDict d)]
      | _ => []
      end
  | _ => []
  end.

(** The example directory, listed in another order. *)
Definition shuffled_entries : list (string * read_outcome) :=
  [("notes.txt", Parsed (JDict record_A));
   ("y.json", Parsed (JDict record_Y));
   ("broken.json", Raises JSONDecodeError);
   ("x.json", Parsed (JDict example_item));
   ("r.json", Parsed (JDict record_R));
   ("a.json", Parsed (JDict record_A))].

Definition shuffled_world : world := mkWorld (Some shuffled_entries) None [].

(** A JSON number in the range where no conversion overflows: a float, a
    boolean, or an integer below [2 ^ 1000] in magnitude. *)
Definition plain_number (v : json) : bool :=
  match v with
  | JBool _ | JFloat _ => true
  | JInt z => Z.abs z <? 2 ^ 1000
  | _ => false
  end.

(** The field [k] is absent from the record, or holds a plain number. *)
Definition field_ok (d : dict) (k : string) : bool :=
  match dict_get k d with
  | None => true
  | Some v => plain_number v
  end.

(** A record as the savings calculation expects it: [recipe], when there,
    is an object whose quantities are plain numbers; [craftQuantity] and
    [stackSize], when there, are plain numbers. *)
Definition well_typed_record (d : dict) : bool :=
  match dict_get "recipe" d with
  | None => true
  | Some (JDict pairs) => forallb (fun pair => plain_number (snd pair)) pairs
  | Some _ => false
  end
  && field_ok d "craftQuantity" && field_ok d "stackSize".

Definition well_typed_catalog (items_map : catalog) : bool :=
  forallb (fun entry =>
             match snd entry with
             | JDict d => field_ok d "stackSize"
             | _ => false
             end) items_map.

(** A source file that is undecodable, or holds a well-typed record whose
    [id], if any, is a string. *)
Definition well_typed_file (entry : string * read_outcome) : bool :=
  match snd entry with
  | Raises JSONDecodeError => true
  | Parsed (JDict d) => record_file entry && well_typed_record d
  | _ => false
  end.

(** * Properties *)

(** ** Properties of [calculate_savings] *)

Lemma dict_mem_get (k : string) (d : dict) :
  dict_mem k d = true <-> exists v, dict_get k d = Some v.
Proof.
  unfold dict_mem. destruct (dict_get k d) as [v|].
  - split; [eauto | reflexivity].
  - split; [discriminate | intros [v Hv]; discriminate].
Qed.


(** The stack size read and clamped by lines 47-50 (and 56-58) is the
    effective stack size of the specification. *)
Lemma clamp_effective (record : json) :
  (size <- py_get record "stackSize" (JInt 1) ;; clamp_stack_size size)%result
  = Spec.effectiveStackSize record.
Proof.
  destruct record; simpl; try reflexivity.
  unfold dict_get_default, clamp_stack_size.
  destruct (dict_get "stackSize" d); reflexivity.
Qed.




(** *** Dictionary facts *)

Lemma dict_get_set_same (k : string) (v : json) (d : dict) :
  dict_get k (dict_set k v d) = Some v.
Proof.
  induction d as [|[k' v'] rest IH]; simpl.
  - rewrite String.eqb_refl. reflexivity.
  - destruct (String.eqb k' k) eqn:E; simpl; rewrite E; [reflexivity | exact IH].
Qed.

Lemma dict_get_set_other (k k' : string) (v : json) (d : dict) :
  k <> k' -> dict_get k (dict_set k' v d) = dict_get k d.
Proof.
  intros Hne. induction d as [|[k0 v0] rest IH]; simpl.
  - destruct (String.eqb k' k) eqn:E; [|reflexivity].
    apply String.eqb_eq in E. congruence.
  - destruct (String.eqb k0 k') eqn:E; simpl.
    + apply String.eqb_eq in E. subst k0.
      destruct (String.eqb k' k) eqn:E'; [|reflexivity].
      apply String.eqb_eq in E'. congruence.
    + rewrite IH. reflexivity.
Qed.

(** *** A missing ingredient *)


Lemma advance_nil (w : world) : advance w [] = w.
Proof. destruct w. unfold advance. simpl. rewrite app_nil_r. reflexivity. Qed.

Lemma advance_advance (w : world) (e1 e2 : list event) :
  advance (advance w e1) e2 = advance w (e1 ++ e2).
Proof. unfold advance. simpl. rewrite app_assoc. reflexivity. Qed.

Lemma emit_run (e : event) (w : world) : emit e w = (Ok tt, advance w [e]).
Proof. reflexivity. Qed.

Ltac run_step :=
  unfold open_and_load, print, write_json;
  unfold bind, ret, raise, lift;
  repeat (rewrite emit_run; cbv beta iota).

Lemma load_loop_run :
  forall (files : list (string * read_outcome)) (items : catalog) (w : world),
    load_loop files items w
    = (fst (load_run files items), advance w (snd (load_run files items))).
Proof.
  induction files as [|[file_path outcome] rest IH]; intros items w;
    cbn [load_loop load_run].
  - unfold ret. cbn [fst snd]. rewrite advance_nil. reflexivity.
  - destruct outcome as [[|e]|data]; run_step.
    + rewrite IH, !advance_advance.
      destruct (load_run rest items). reflexivity.
    + reflexivity.
    + destruct (py_contains "id" data) as [[|]|e]; run_step; [| |reflexivity].
      * destruct (py_getitem data "id") as [id|e]; cbn [rbind]; [|reflexivity].
        destruct (catalog_setitem items id data) as [items'|e]; [|reflexivity].
        rewrite IH, advance_advance.
        destruct (load_run rest items'). reflexivity.
      * rewrite IH, !advance_advance.
        destruct (load_run rest items). reflexivity.
Qed.

Lemma publish_loop_run (items_map : catalog) :
  forall (files : list (string * read_outcome)) (processed calculated : nat)
         (w : world) (present : list (string * json)),
    dest_dir w = Some present ->
    publish_loop items_map files processed calculated w
    = let p := publish_run items_map files processed calculated in
      (pub_result p,
       mkWorld (source_dir w) (Some (write_all (pub_writes p) present))
         (trace w ++ pub_events p)).
Proof.
  induction files as [|[filename outcome] rest IH];
    intros processed calculated w present Hdest; cbn [publish_loop publish_run].
  - unfold ret. simpl. rewrite app_nil_r. destruct w; simpl in *. subst. reflexivity.
  - destruct outcome as [e|data]; run_step.
    + rewrite (IH _ _ _ present) by exact Hdest.
      simpl. rewrite <- !app_assoc. reflexivity.
    + destruct (augment data items_map) as [augmented|e];
        [|unfold advance; simpl; rewrite Hdest; reflexivity].
      run_step. cbn [advance dest_dir]. rewrite Hdest.
      rewrite (IH _ _ _ (file_set filename (fst augmented) present))
        by reflexivity.
      simpl. rewrite <- !app_assoc. reflexivity.
Qed.

Ltac trace_eq :=
  repeat first [rewrite <- app_assoc | progress simpl]; reflexivity.

Lemma load_items_eq (w : world) :
  load_items w = (fst (load_items_run w), advance w (snd (load_items_run w))).
Proof.
  unfold load_items, load_items_run, path_exists, glob_json, matched.
  run_step. cbn [advance source_dir].
  destruct (source_dir w) as [entries|] eqn:Hsrc; cbn [negb fst snd].
  - run_step. cbn [advance source_dir]. rewrite Hsrc.
    rewrite load_loop_run, !advance_advance. reflexivity.
  - run_step. rewrite advance_advance. reflexivity.
Qed.

Lemma load_items_run_source (w w' : world) :
  source_dir w' = source_dir w ->
  load_items_run w' = load_items_run w /\ matched w' = matched w.
Proof.
  intros H. unfold load_items_run, matched. rewrite H. split; reflexivity.
Qed.

Lemma pipeline_eq (w : world) :
  dest_dir w = Some [] ->
  pipeline w
  = (fst (fst (pipeline_run w)),
     mkWorld (source_dir w) (Some (snd (fst (pipeline_run w))))
       (trace w ++ snd (pipeline_run w))).
Proof.
  intros Hd. unfold pipeline, pipeline_run.
  unfold print at 1. unfold bind at 1. rewrite emit_run.
  unfold bind at 1. rewrite load_items_eq.
  destruct (load_items_run_source w (advance w [EvPrint MsgLoading]) eq_refl)
    as [Hl Hm].
  rewrite Hl.
  destruct (load_items_run w) as [[items_map|e] levs]; cbn [fst snd].
  - destruct items_map as [|entry more].
    + run_step. rewrite !advance_advance. unfold advance.
      cbn [source_dir dest_dir trace fst snd]. rewrite Hd.
      simpl. rewrite <- ?app_assoc. reflexivity.
    + unfold glob_json. run_step. rewrite !advance_advance.
      cbn [advance source_dir]. fold (matched w).
      rewrite (publish_loop_run _ _ _ _ _ []) by exact Hd.
      cbv zeta.
      destruct (pub_result (publish_run (entry :: more) (matched w) 0 0))
        as [counts|e]; cbn [fst snd].
      * run_step. unfold advance. cbn [source_dir dest_dir trace]. trace_eq.
      * trace_eq.
  - rewrite advance_advance. unfold advance.
    cbn [source_dir dest_dir trace fst snd]. rewrite Hd. reflexivity.
Qed.

Lemma main_eq (w : world) :
  main w
  = (fst (fst (main_run w)),
     mkWorld (source_dir w) (Some (snd (fst (main_run w))))
       (trace w ++ snd (main_run w))).
Proof.
  assert (Hsplit : forall w1 : world,
             source_dir w1 = source_dir w -> dest_dir w1 = Some [] ->
             pipeline w1
             = (fst (fst (pipeline_run w)),
                mkWorld (source_dir w) (Some (snd (fst (pipeline_run w))))
                  (trace w1 ++ snd (pipeline_run w)))).
  { intros w1 Hs Hd. rewrite pipeline_eq by exact Hd.
    unfold pipeline_run.
    destruct (load_items_run_source w w1 Hs) as [Hl Hm].
    rewrite Hl, Hm, Hs. reflexivity. }
  unfold main_run.
  destruct (pipeline_run w) as [[r written] events] eqn:Hp. cbn [fst snd] in *.
  change main with
    (found <- path_exists DEST_DIR ;;
     (if found then print MsgClearing ;; rmtree else ret tt) ;;
     makedirs ;; pipeline)%M.
  unfold path_exists, rmtree, makedirs, reset_events.
  run_step. cbn [advance source_dir dest_dir trace].
  destruct (dest_dir w) as [present|] eqn:Hdest; run_step;
    cbn [advance source_dir dest_dir trace].
  - rewrite Hdest. cbn [advance source_dir dest_dir trace].
    run_step. cbn [advance source_dir dest_dir trace].
    rewrite Hsplit by reflexivity.
    cbn [trace]. trace_eq.
  - rewrite Hdest. rewrite Hsplit by reflexivity.
    cbn [trace]. trace_eq.
Qed.

(** ** What ends up in [DEST_DIR] *)

Lemma In_file_set (x : string * json) (filename : string) (data : json)
    (files : list (string * json)) :
  In x (file_set filename data files) -> x = (filename, data) \/ In x files.
Proof.
  induction files as [|[n d] rest IH]; simpl.
  - intros [H|[]]. left. symmetry. exact H.
  - destruct (String.eqb n filename) eqn:E; simpl.
    + apply String.eqb_eq in E. subst n. intros [H|H]; [left; symmetry|right; right]; exact H.
    + intros [H|H]; [right; left; exact H|].
      destruct (IH H) as [H'|H']; [left|right; right]; exact H'.
Qed.

Lemma In_write_all (x : string * json) (writes files : list (string * json)) :
  In x (write_all writes files) -> In x writes \/ In x files.
Proof.
  revert files. induction writes as [|[n d] rest IH]; intros files; simpl.
  - intros H. right. exact H.
  - intros H. destruct (IH _ H) as [H'|H']; [left; right; exact H'|].
    apply In_file_set in H'. destruct H' as [H'|H']; [left; left; symmetry|right];
      exact H'.
Qed.

(** The two ways a record leaves lines 97-101: untouched, or a [dict] with
    [stashSavings] set to the value [calculate_savings] returned. *)
Lemma augment_shape (data data' : json) (set : bool) (items_map : catalog) :
  augment data items_map = Ok (data', set) ->
  (data' = data /\ set = false
   /\ forall s, calculate_savings data items_map <> Ok (Some s)
                \/ py_contains "id" data = Ok false)
  \/ (exists d s, data = JDict d
                  /\ data' = JDict (dict_set "stashSavings" (JFloat s) d)
                  /\ set = true
                  /\ calculate_savings data items_map = Ok (Some s)).
Proof.
  unfold augment.
  destruct (py_contains "id" data) as [[|]|e]; simpl; [| |discriminate].
  - destruct (calculate_savings data items_map) as [[s|]|e] eqn:Hcalc; simpl;
      [| |discriminate].
    + destruct data; simpl; try discriminate.
      intros H. inversion H; subst. right. exists d, s. auto.
    + intros H. inversion H; subst. left. repeat split.
      intros s. left. discriminate.
  - intros H. inversion H; subst. left. repeat split. intros s. right. reflexivity.
Qed.

(** Every document the publisher writes is the augmented form of the
    record parsed from the source file of the same name. *)
Lemma publish_run_writes (items_map : catalog) :
  forall (files : list (string * read_outcome)) (processed calculated : nat)
         (filename : string) (data' : json),
    In (filename, data') (pub_writes (publish_run items_map files processed calculated)) ->
    exists data set,
      In (filename, Parsed data) files
      /\ augment data items_map = Ok (data', set).
Proof.
  induction files as [|[n outcome] rest IH]; intros processed calculated filename data';
    simpl.
  - intros [].
  - destruct outcome as [e|data]; simpl.
    + intros H. destruct (IH _ _ _ _ H) as (data & set & Hin & Haug).
      exists data, set. split; [right|]; assumption.
    + destruct (augment data items_map) as [[augmented set]|e] eqn:Haug; simpl.
      * intros [H|H].
        -- inversion H; subst. exists data, set. split; [left; reflexivity|exact Haug].
        -- destruct (IH _ _ _ _ H) as (data0 & set0 & Hin & Haug0).
           exists data0, set0. split; [right|]; assumption.
      * intros [].
Qed.

Lemma In_matched (w : world) (entries : list (string * read_outcome))
    (entry : string * read_outcome) :
  source_dir w = Some entries ->
  In entry (matched w) <-> In entry entries /\ glob_match (fst entry) = true.
Proof.
  intros H. unfold matched. rewrite H. apply filter_In.
Qed.

Lemma matched_nil (w : world) : source_dir w = None -> matched w = [].
Proof. intros H. unfold matched. rewrite H. reflexivity. Qed.

(** The catalog that [main] works with is the one [load_items] returns. *)
Lemma load_items_fst (w : world) : fst (load_items w) = fst (load_items_run w).
Proof. rewrite load_items_eq. reflexivity. Qed.

(** Whatever the run's outcome, every file found in [DEST_DIR] afterwards
    was written by the publisher from a matched source file that parsed. *)
Lemma main_dest_sound (w : world) (files : list (string * json))
    (filename : string) (data' : json) :
  dest_dir (snd (main w)) = Some files ->
  In (filename, data') files ->
  exists items_map data set,
    fst (load_items w) = Ok items_map
    /\ In (filename, Parsed data) (matched w)
    /\ augment data items_map = Ok (data', set).
Proof.
  rewrite main_eq, load_items_fst. cbn [snd dest_dir]. unfold main_run, pipeline_run.
  destruct (fst (load_items_run w)) as [[|entry more]|e]; cbn [fst snd].
  - intros H. inversion H; subst. intros [].
  - set (items_map := entry :: more).
    assert (Hw : forall written,
               (written = write_all (pub_writes (publish_run items_map (matched w) 0 0)) []) ->
               In (filename, data') written ->
               exists items_map0 data set,
                 Ok items_map = Ok items_map0
                 /\ In (filename, Parsed data) (matched w)
                 /\ augment data items_map0 = Ok (data', set)).
    { intros written -> Hin. apply In_write_all in Hin.
      destruct Hin as [Hin|[]].
      apply publish_run_writes in Hin. destruct Hin as (data & set & H1 & H2).
      exists items_map, data, set. auto. }
    destruct (pub_result (publish_run items_map (matched w) 0 0)); cbn [fst snd];
      intros H; inversion H; subst; apply Hw; reflexivity.
  - intros H. inversion H; subst. intros [].
Qed.

(** File names are unique within a directory. *)
Lemma unique_entry (entries : list (string * read_outcome)) (filename : string)
    (o1 o2 : read_outcome) :
  NoDup (map fst entries) ->
  In (filename, o1) entries -> In (filename, o2) entries -> o1 = o2.
Proof.
  induction entries as [|[n o] rest IH]; simpl; [intros _ []|].
  intros Hnd [H1|H1] [H2|H2]; inversion Hnd; subst.
  - congruence.
  - inversion H1; subst. exfalso. apply H3. apply (in_map fst) in H2. exact H2.
  - inversion H2; subst. exfalso. apply H3. apply (in_map fst) in H1. exact H1.
  - apply IH; assumption.
Qed.

(** The record written under a name is the augmented form of the one
    record the source directory holds under that name. *)
Lemma main_dest_of_entry (w : world) (entries : list (string * read_outcome))
    (filename : string) (data data' : json) (files : list (string * json)) :
  source_dir w = Some entries ->
  NoDup (map fst entries) ->
  In (filename, Parsed data) entries ->
  dest_dir (snd (main w)) = Some files ->
  In (filename, data') files ->
  exists items_map set,
    fst (load_items w) = Ok items_map
    /\ augment data items_map = Ok (data', set).
Proof.
  intros Hsrc Hnd Hin Hdest Hfile.
  destruct (main_dest_sound w files filename data' Hdest Hfile)
    as (items_map & data0 & set & Hload & Hm & Haug).
  apply (In_matched w entries) in Hm; [|exact Hsrc]. destruct Hm as [Hm _].
  assert (Heq : Parsed data0 = Parsed data)
    by (apply (unique_entry entries filename); assumption).
  inversion Heq; subst. exists items_map, set. auto.
Qed.



(** C5.  Every record found in the destination after a run is the source
    record of the same file name, either unchanged or with the single
    field [stashSavings] added or overwritten: every other field is there
    with its value, in its place. *)
Theorem other_fields_unchanged :
  forall (w : world) (entries : list (string * read_outcome))
         (filename : string) (data data' : json) (files : list (string * json)),
    source_dir w = Some entries ->
    NoDup (map fst entries) ->
    In (filename, Parsed data) entries ->
    dest_dir (snd (main w)) = Some files ->
    In (filename, data') files ->
    (data' = data
     \/ exists d s, data = JDict d
                    /\ data' = JDict (dict_set "stashSavings" (JFloat s) d))
    /\ (forall d, data = JDict d ->
          exists d', data' = JDict d'
                     /\ forall k, k <> "stashSavings" -> dict_get k d' = dict_get k d).
Proof.
  intros w entries filename data data' files Hsrc Hnd Hin Hdest Hfile.
  destruct (main_dest_of_entry w entries filename data data' files
              Hsrc Hnd Hin Hdest Hfile) as (items_map & set & _ & Haug).
  apply augment_shape in Haug.
  destruct Haug as [(Heq & _)|(d & s & Hd & Hd' & _)].
  - subst data'. split; [left; reflexivity|].
    intros d Hd. exists d. split; [exact Hd | reflexivity].
  - split; [right; exists d, s; auto|].
    intros d0 Hd0. rewrite Hd in Hd0. inversion Hd0; subst d0.
    exists (dict_set "stashSavings" (JFloat s) d). split; [exact Hd'|].
    intros k Hk. apply dict_get_set_other. exact Hk.
Qed.

Lemma example_entries_NoDup : NoDup (map fst example_entries).
Proof.
  repeat constructor; simpl; intuition discriminate.
Qed.

Lemma example_run :
  fst (load_items example_world) = Ok example_loaded
  /\ fst (main example_world) = Ok tt
  /\ dest_dir (snd (main example_world)) = Some example_published.
Proof. vm_compute. repeat split. Qed.



Lemma other_fields_unchanged_witness :
  (JDict (dict_set "stashSavings" (JFloat (Prim2SF (-0.5)%float)) example_item)
   = JDict example_item
   \/ exists d s,
       JDict example_item = JDict d
       /\ JDict (dict_set "stashSavings" (JFloat (Prim2SF (-0.5)%float)) example_item)
          = JDict (dict_set "stashSavings" (JFloat s) d))
  /\ (forall d, JDict example_item = JDict d ->
        exists d',
          JDict (dict_set "stashSavings" (JFloat (Prim2SF (-0.5)%float)) example_item)
          = JDict d'
          /\ forall k, k <> "stashSavings" -> dict_get k d' = dict_get k d).
Proof.
  apply (other_fields_unchanged example_world example_entries "x.json"
           (JDict example_item)
           (JDict (dict_set "stashSavings" (JFloat (Prim2SF (-0.5)%float)) example_item))
           example_published).
  - reflexivity.
  - exact example_entries_NoDup.
  - right. left. reflexivity.
  - exact (proj2 (proj2 example_run)).
  - right. left. reflexivity.
Defined.

(** ** Items without a recipe *)

Lemma calculate_savings_no_recipe (item : dict) (items_map : catalog) :
  no_recipe item -> calculate_savings (JDict item) items_map = Ok None.
Proof.
  unfold calculate_savings, py_contains, py_getitem, dict_mem.
  intros [H|(recipe & H & Hfalsy)]; rewrite H; simpl; [reflexivity|].
  rewrite Hfalsy. reflexivity.
Qed.

(** C3, as the code has it.  For an item whose recipe is absent or empty
    the calculation is not applicable, and the record written to the
    destination is the source record unchanged: the pipeline sets no
    [stashSavings] on it, and the record has that field exactly when the
    source record had it, with the source's value. *)
Theorem no_recipe_published_unchanged :
  forall (item : dict),
    no_recipe item ->
    (forall items_map, calculate_savings (JDict item) items_map = Ok None)
    /\ (forall (w : world) (entries : list (string * read_outcome))
               (filename : string) (files : list (string * json)) (data' : json),
           source_dir w = Some entries ->
           NoDup (map fst entries) ->
           In (filename, Parsed (JDict item)) entries ->
           dest_dir (snd (main w)) = Some files ->
           In (filename, data') files ->
           data' = JDict item
           /\ py_getitem data' "stashSavings" = py_getitem (JDict item) "stashSavings").
Proof.
  intros item Hno.
  split; [intros items_map; apply calculate_savings_no_recipe; exact Hno|].
  intros w entries filename files data' Hsrc Hnd Hin Hdest Hfile.
  destruct (main_dest_of_entry w entries filename (JDict item) data' files
              Hsrc Hnd Hin Hdest Hfile) as (items_map & set & _ & Haug).
  apply augment_shape in Haug.
  destruct Haug as [(Heq & _)|(d & s & _ & _ & _ & Hcalc)].
  - subst data'. split; reflexivity.
  - rewrite (calculate_savings_no_recipe item items_map Hno) in Hcalc.
    discriminate.
Qed.

Lemma no_recipe_published_unchanged_witness :
  (forall items_map, calculate_savings (JDict record_R) items_map = Ok None)
  /\ (forall (w : world) (entries : list (string * read_outcome))
             (filename : string) (files : list (string * json)) (data' : json),
         source_dir w = Some entries ->
         NoDup (map fst entries) ->
         In (filename, Parsed (JDict record_R)) entries ->
         dest_dir (snd (main w)) = Some files ->
         In (filename, data') files ->
         data' = JDict record_R
         /\ py_getitem data' "stashSavings" = py_getitem (JDict record_R) "stashSavings").
Proof.
  apply (no_recipe_published_unchanged record_R).
  left. reflexivity.
Defined.

(** C3, as the claim has it, fails: a source record without a recipe that
    already holds a [stashSavings] field is published with that field. *)
Lemma no_recipe_keeps_source_stashSavings :
  ~ (forall (w : world) (entries : list (string * read_outcome))
            (filename : string) (item : dict) (files : list (string * json))
            (data' : json),
        source_dir w = Some entries ->
        NoDup (map fst entries) ->
        In (filename, Parsed (JDict item)) entries ->
        no_recipe item ->
        dest_dir (snd (main w)) = Some files ->
        In (filename, data') files ->
        py_contains "stashSavings" data' = Ok false).
Proof.
  intros claim.
  specialize (claim example_world example_entries "r.json" record_R
                example_published (JDict record_R)
                eq_refl example_entries_NoDup).
  assert (H : py_contains "stashSavings" (JDict record_R) = Ok false).
  { apply claim.
    - right. right. right. left. reflexivity.
    - left. reflexivity.
    - exact (proj2 (proj2 example_run)).
    - right. right. right. left. reflexivity. }
  vm_compute in H. discriminate.
Qed.

(** ** The order and the reach of the run's effects *)

Lemma loop_event_cons (entry : string * read_outcome)
    (files : list (string * read_outcome)) (events : list event) :
  Forall (loop_event files) events -> Forall (loop_event (entry :: files)) events.
Proof.
  apply Forall_impl. intros e [H|(n & H & Hin)]; [left; exact H|].
  right. exists n. split; [exact H | right; exact Hin].
Qed.

Ltac loop_events :=
  simpl in *;
  repeat (apply Forall_cons; [solve [auto]|]);
  first [apply Forall_nil | apply loop_event_cons; assumption].

Lemma load_run_events :
  forall (files : list (string * read_outcome)) (items : catalog),
    Forall (loop_event files) (snd (load_run files items)).
Proof.
  induction files as [|[file_path outcome] rest IH]; intros items; simpl.
  - constructor.
  - assert (Hopen : loop_event ((file_path, outcome) :: rest) (EvOpenRead file_path)).
    { right. exists file_path. split; [left; reflexivity | left; reflexivity]. }
    assert (Hprint : forall m, loop_event ((file_path, outcome) :: rest) (EvPrint m)).
    { intros m. left. exists m. reflexivity. }
    destruct outcome as [[|e]|data].
    + specialize (IH items). destruct (load_run rest items) as [r events].
      loop_events.
    + loop_events.
    + destruct (py_contains "id" data) as [[|]|e].
      * destruct (py_getitem data "id") as [id|e]; simpl; [|loop_events].
        destruct (catalog_setitem items id data) as [items'|e]; [|loop_events].
        specialize (IH items'). destruct (load_run rest items') as [r events].
        loop_events.
      * specialize (IH items). destruct (load_run rest items) as [r events].
        loop_events.
      * loop_events.
Qed.

Lemma publish_run_events (items_map : catalog) :
  forall (files : list (string * read_outcome)) (processed calculated : nat),
    Forall (loop_event files)
      (pub_events (publish_run items_map files processed calculated)).
Proof.
  induction files as [|[filename outcome] rest IH]; intros processed calculated;
    simpl.
  - constructor.
  - assert (Hread : loop_event ((filename, outcome) :: rest) (EvOpenRead filename)).
    { right. exists filename. split; [left; reflexivity | left; reflexivity]. }
    assert (Hwrite : loop_event ((filename, outcome) :: rest) (EvOpenWrite filename)).
    { right. exists filename. split; [right; reflexivity | left; reflexivity]. }
    assert (Hprint : forall m, loop_event ((filename, outcome) :: rest) (EvPrint m)).
    { intros m. left. exists m. reflexivity. }
    destruct outcome as [e|data].
    + specialize (IH processed calculated). loop_events.
    + destruct (augment data items_map) as [augmented|e]; [|loop_events].
      specialize (IH (S processed)
                     (if snd augmented then S calculated else calculated)).
      loop_events.
Qed.

(** Every name the publisher writes is the name of a file it was given. *)
Lemma publish_run_names (items_map : catalog) :
  forall (files : list (string * read_outcome)) (processed calculated : nat)
         (filename : string) (data' : json),
    In (filename, data') (pub_writes (publish_run items_map files processed calculated)) ->
    In filename (map fst files).
Proof.
  intros files processed calculated filename data' H.
  apply publish_run_writes in H. destruct H as (data & set & Hin & _).
  apply (in_map fst) in Hin. exact Hin.
Qed.

Lemma loop_event_no_reset (files : list (string * read_outcome)) (events : list event) :
  Forall (loop_event files) events -> Forall (fun e => resets_dest e = false) events.
Proof.
  apply Forall_impl. intros e [(m & ->)|(n & [-> | ->] & _)]; reflexivity.
Qed.

(** The events of [main] after the reset. *)
Lemma pipeline_run_no_reset (w : world) :
  Forall (fun e => resets_dest e = false) (snd (pipeline_run w)).
Proof.
  assert (Hload : Forall (fun e => resets_dest e = false) (snd (load_items_run w))).
  { unfold load_items_run. destruct (source_dir w); cbn [snd].
    - repeat constructor.
      apply (loop_event_no_reset (matched w)), load_run_events.
    - repeat constructor. }
  unfold pipeline_run.
  destruct (fst (load_items_run w)) as [[|entry more]|e]; cbn [snd].
  - constructor; [reflexivity|]. apply Forall_app. split; [exact Hload|].
    repeat constructor.
  - set (p := publish_run (entry :: more) (matched w) 0 0).
    assert (Hpub : Forall (fun e => resets_dest e = false) (pub_events p))
      by (apply (loop_event_no_reset (matched w)), publish_run_events).
    destruct (pub_result p); cbn [snd];
      repeat first [ assumption | reflexivity | apply Forall_nil
                   | apply Forall_cons | apply Forall_app; split ].
  - constructor; [reflexivity | exact Hload].
Qed.

Lemma main_is_reset_then_pipeline (w : world) :
  main w = pipeline (mkWorld (source_dir w) (Some []) (trace w ++ reset_events w)).
Proof.
  rewrite main_eq, pipeline_eq by reflexivity.
  unfold main_run.
  set (w1 := mkWorld (source_dir w) (Some []) (trace w ++ reset_events w)).
  assert (Hp : pipeline_run w1 = pipeline_run w).
  { unfold pipeline_run.
    destruct (load_items_run_source w w1 eq_refl) as [Hl Hm].
    rewrite Hl, Hm. reflexivity. }
  rewrite Hp. destruct (pipeline_run w) as [[r written] events].
  cbn [fst snd]. unfold w1. cbn [source_dir trace].
  rewrite <- app_assoc. reflexivity.
Qed.

(** ** A missing source directory, and the reset that precedes it *)

Lemma main_empty_catalog (w : world) :
  fst (load_items w) = Ok [] ->
  main w
  = (Ok tt,
     mkWorld (source_dir w) (Some [])
       (trace w ++ reset_events w
        ++ EvPrint MsgLoading :: snd (load_items_run w)
        ++ [EvPrint (MsgLoaded 0); EvPrint MsgNoItems])).
Proof.
  rewrite load_items_fst. intros Hload.
  rewrite main_eq. unfold main_run, pipeline_run. rewrite Hload.
  cbn [fst snd]. reflexivity.
Qed.

Lemma reset_events_no_write (w : world) (filename : string) :
  ~ In (EvOpenWrite filename) (reset_events w).
Proof.
  unfold reset_events. destruct (dest_dir w); simpl; intuition discriminate.
Qed.

(** The loader opens no file for writing. *)
Lemma load_run_no_write :
  forall (files : list (string * read_outcome)) (items : catalog),
    Forall (fun e => is_write e = false) (snd (load_run files items)).
Proof.
  induction files as [|[file_path outcome] rest IH]; intros items; simpl.
  - constructor.
  - destruct outcome as [[|e]|data].
    + specialize (IH items). destruct (load_run rest items) as [r events].
      simpl in *. repeat (apply Forall_cons; [reflexivity|]). exact IH.
    + simpl. repeat constructor.
    + destruct (py_contains "id" data) as [[|]|e].
      * destruct (py_getitem data "id") as [id|e]; simpl; [|repeat constructor].
        destruct (catalog_setitem items id data) as [items'|e];
          [|simpl; repeat constructor].
        specialize (IH items'). destruct (load_run rest items') as [r events].
        simpl in *. repeat (apply Forall_cons; [reflexivity|]). exact IH.
      * specialize (IH items). destruct (load_run rest items) as [r events].
        simpl in *. repeat (apply Forall_cons; [reflexivity|]). exact IH.
      * simpl. repeat constructor.
Qed.

Lemma load_items_run_no_write (w : world) :
  Forall (fun e => is_write e = false) (snd (load_items_run w)).
Proof.
  unfold load_items_run. destruct (source_dir w); cbn [snd].
  - repeat (apply Forall_cons; [reflexivity|]). apply load_run_no_write.
  - repeat constructor.
Qed.

(** C6.  When [SOURCE_DIR] does not exist, [load_items] prints the error
    and returns an empty mapping; [main] then prints that no items were
    found and returns, with [DEST_DIR] empty and without having opened a
    single file for writing.  More generally an empty catalog, whatever its
    cause, ends the run before the publishing loop. *)
Theorem missing_source_halts :
  forall (w : world),
    source_dir w = None ->
    load_items w
    = (Ok [], advance w [EvExists SOURCE_DIR; EvPrint MsgSourceMissing])
    /\ main w
       = (Ok tt,
          mkWorld None (Some [])
            (trace w ++ reset_events w
             ++ [EvPrint MsgLoading; EvExists SOURCE_DIR; EvPrint MsgSourceMissing;
                 EvPrint (MsgLoaded 0); EvPrint MsgNoItems]))
    /\ (forall (w' : world),
          fst (load_items w') = Ok [] ->
          fst (main w') = Ok tt
          /\ dest_dir (snd (main w')) = Some []
          /\ exists events,
               trace (snd (main w'))
               = trace w' ++ events ++ [EvPrint (MsgLoaded 0); EvPrint MsgNoItems]
               /\ forall filename, ~ In (EvOpenWrite filename) events).
Proof.
  intros w Hsrc.
  assert (Hrun : load_items_run w
                 = (Ok [], [EvExists SOURCE_DIR; EvPrint MsgSourceMissing]))
    by (unfold load_items_run; rewrite Hsrc; reflexivity).
  split; [rewrite load_items_eq, Hrun; reflexivity|].
  split.
  - rewrite main_empty_catalog by (rewrite load_items_fst, Hrun; reflexivity).
    rewrite Hrun, Hsrc. reflexivity.
  - intros w' Hload. rewrite (main_empty_catalog w' Hload). cbn [fst snd dest_dir trace].
    repeat split.
    exists (reset_events w' ++ EvPrint MsgLoading :: snd (load_items_run w')).
    split; [trace_eq|].
    intros filename Hin. apply in_app_or in Hin. destruct Hin as [Hin|[Hin|Hin]].
    + exact (reset_events_no_write w' filename Hin).
    + discriminate.
    + pose proof (load_items_run_no_write w') as Hnw.
      rewrite Forall_forall in Hnw. specialize (Hnw _ Hin). discriminate.
Qed.

Lemma missing_source_halts_witness :
  load_items (mkWorld None (Some [("stale.json", JNull)]) [])
  = (Ok [], mkWorld None (Some [("stale.json", JNull)])
              [EvExists SOURCE_DIR; EvPrint MsgSourceMissing])
  /\ main (mkWorld None (Some [("stale.json", JNull)]) [])
     = (Ok tt,
        mkWorld None (Some [])
          [EvExists DEST_DIR; EvPrint MsgClearing; EvRmtree; EvMakedirs;
           EvPrint MsgLoading; EvExists SOURCE_DIR; EvPrint MsgSourceMissing;
           EvPrint (MsgLoaded 0); EvPrint MsgNoItems])
  /\ (forall (w' : world),
        fst (load_items w') = Ok [] ->
        fst (main w') = Ok tt
        /\ dest_dir (snd (main w')) = Some []
        /\ exists events,
             trace (snd (main w'))
             = trace w' ++ events ++ [EvPrint (MsgLoaded 0); EvPrint MsgNoItems]
             /\ forall filename, ~ In (EvOpenWrite filename) events).
Proof.
  apply (missing_source_halts (mkWorld None (Some [("stale.json", JNull)]) [])).
  reflexivity.
Defined.

Lemma reset_events_no_source (w : world) :
  Forall (fun e => touches_source e = false) (reset_events w).
Proof.
  unfold reset_events. destruct (dest_dir w); repeat constructor.
Qed.

(** C7.  In every run the reset of [DEST_DIR] comes first: [main] is the
    rest of the script (lines 73-111) started in a world whose [DEST_DIR]
    has already been deleted, if it existed, and recreated empty.  In the
    trace, the events of the reset contain [EvMakedirs] (and [EvRmtree]
    when the directory existed) and no access to the source; the existence
    check of [SOURCE_DIR] and every later event come after them, and none
    of those deletes or recreates a directory.  A run whose source
    directory is missing therefore still leaves [DEST_DIR] empty, whatever
    it held. *)
Theorem reset_precedes_loading :
  forall (w : world),
    main w = pipeline (mkWorld (source_dir w) (Some []) (trace w ++ reset_events w))
    /\ (exists later,
          trace (snd (main w))
          = trace w ++ reset_events w
            ++ EvPrint MsgLoading :: EvExists SOURCE_DIR :: later
          /\ Forall (fun e => resets_dest e = false) later)
    /\ Forall (fun e => touches_source e = false) (reset_events w)
    /\ In EvMakedirs (reset_events w)
    /\ (dest_dir w <> None -> In EvRmtree (reset_events w))
    /\ (source_dir w = None -> dest_dir (snd (main w)) = Some []).
Proof.
  intros w. split; [apply main_is_reset_then_pipeline|].
  split.
  - pose proof (pipeline_run_no_reset w) as Hnr.
    rewrite main_eq. unfold main_run.
    destruct (pipeline_run w) as [[r written] events] eqn:Hp.
    cbn [fst snd trace] in *.
    assert (Hshape : exists later,
               events = EvPrint MsgLoading :: EvExists SOURCE_DIR :: later).
    { unfold pipeline_run, load_items_run in Hp.
      destruct (source_dir w).
      - cbn [fst snd] in Hp.
        destruct (fst (load_run (matched w) [])) as [[|entry more]|e].
        + inversion Hp. eexists. reflexivity.
        + destruct (pub_result (publish_run (entry :: more) (matched w) 0 0));
            inversion Hp; eexists; reflexivity.
        + inversion Hp. eexists. reflexivity.
      - cbn [fst snd] in Hp. inversion Hp. eexists. reflexivity. }
    destruct Hshape as [later ->]. exists later. split; [reflexivity|].
    inversion Hnr as [|? ? _ Hnr']. inversion Hnr' as [|? ? _ Hnr'']. exact Hnr''.
  - split; [apply reset_events_no_source|].
    split; [|split].
    + unfold reset_events. destruct (dest_dir w); simpl; auto.
    + unfold reset_events. destruct (dest_dir w); simpl; [auto | congruence].
    + intros Hsrc.
      rewrite main_empty_catalog; [reflexivity|].
      rewrite load_items_fst. unfold load_items_run. rewrite Hsrc. reflexivity.
Qed.

Lemma reset_precedes_loading_witness :
  dest_dir (snd (main (mkWorld None (Some [("stale.json", JNull)]) []))) = Some [].
Proof.
  apply (proj2 (proj2 (proj2 (proj2 (proj2
           (reset_precedes_loading (mkWorld None (Some [("stale.json", JNull)]) []))))))).
  reflexivity.
Defined.

(** ** The catalog built by [load_items] *)

(** A string probe equals a stored key exactly when the stored key is
    that string. *)
Lemma py_key_eqb_str (stored : json) (s : string) :
  py_key_eqb stored (JStr s) = true <-> stored = JStr s.
Proof.
  destruct stored as [| | |f| | |]; simpl;
    try (split; [discriminate | intros H; discriminate H]).
  - destruct f; simpl; split; discriminate.
  - rewrite String.eqb_eq. split; [intros ->; reflexivity | congruence].
Qed.

Lemma py_key_eqb_str_str (a b : string) :
  py_key_eqb (JStr a) (JStr b) = String.eqb a b.
Proof. reflexivity. Qed.

Lemma catalog_get_insert_str (s s' : string) (record : json) (m : catalog) :
  catalog_get (JStr s) (catalog_insert (JStr s') record m)
  = if String.eqb s' s then Some record else catalog_get (JStr s) m.
Proof.
  induction m as [|[k v] rest IH]; simpl.
  - reflexivity.
  - destruct (py_key_eqb k (JStr s')) eqn:Ek'; simpl.
    + apply py_key_eqb_str in Ek'. subst k. simpl.
      destruct (String.eqb s' s); reflexivity.
    + destruct (py_key_eqb k (JStr s)) eqn:Ek.
      * apply py_key_eqb_str in Ek. subst k. simpl in Ek'.
        rewrite String.eqb_sym, Ek'. reflexivity.
      * exact IH.
Qed.

Lemma catalog_get_None_keys (s : string) (m : catalog) :
  catalog_get (JStr s) m = None <-> ~ In (JStr s) (map fst m).
Proof.
  induction m as [|[k v] rest IH]; simpl.
  - split; [intros _ [] | reflexivity].
  - destruct (py_key_eqb k (JStr s)) eqn:Ek.
    + apply py_key_eqb_str in Ek. split; [discriminate | intros H].
      exfalso. apply H. left. exact Ek.
    + rewrite IH. split.
      * intros H [Hk|Hin]; [|exact (H Hin)].
        apply py_key_eqb_str in Hk. congruence.
      * intros H Hin. apply H. right. exact Hin.
Qed.

Lemma catalog_mem_keys (s : string) (m : catalog) :
  catalog_mem (JStr s) m = true <-> In (JStr s) (map fst m).
Proof.
  unfold catalog_mem. induction m as [|[k v] rest IH]; simpl.
  - split; [discriminate | intros []].
  - destruct (py_key_eqb k (JStr s)) eqn:Ek.
    + apply py_key_eqb_str in Ek. split; [intros _; left; exact Ek | reflexivity].
    + rewrite IH. split; [intros H; right; exact H | intros [Hk|H]; [|exact H]].
      apply py_key_eqb_str in Hk. congruence.
Qed.

Lemma catalog_insert_keys (s : string) (record : json) (m : catalog) :
  map fst (catalog_insert (JStr s) record m)
  = if catalog_mem (JStr s) m then map fst m else map fst m ++ [JStr s].
Proof.
  unfold catalog_mem. induction m as [|[k v] rest IH]; simpl.
  - reflexivity.
  - destruct (py_key_eqb k (JStr s)) eqn:Ek; simpl; [reflexivity|].
    rewrite IH. destruct (catalog_get (JStr s) rest); reflexivity.
Qed.

Lemma insert_all_get (s : string) :
  forall (records : list (string * json)) (items : catalog),
    catalog_get (JStr s) (insert_all records items)
    = match last_record s records with
      | Some record => Some record
      | None => catalog_get (JStr s) items
      end.
Proof.
  induction records as [|[s' record] rest IH]; intros items; simpl.
  - reflexivity.
  - unfold insert_all in *. simpl. rewrite IH.
    destruct (last_record s rest); [reflexivity|].
    rewrite catalog_get_insert_str. simpl.
    destruct (String.eqb s' s); reflexivity.
Qed.

Lemma insert_all_keys :
  forall (records : list (string * json)) (items : catalog) (k : json),
    In k (map fst (insert_all records items))
    <-> In k (map fst items) \/ exists s, k = JStr s /\ In s (map fst records).
Proof.
  induction records as [|[s record] rest IH]; intros items k; simpl.
  - split; [intros H; left; exact H | intros [H|(s & _ & [])]; exact H].
  - unfold insert_all in *. simpl. rewrite IH, catalog_insert_keys.
    destruct (catalog_mem (JStr s) items) eqn:Hmem.
    + split.
      * intros [H|(s0 & H1 & H2)]; [left; exact H|right; exists s0; auto].
      * intros [H|(s0 & H1 & [H2|H2])]; [left; exact H | | right; exists s0; auto].
        subst. left. apply catalog_mem_keys. exact Hmem.
    + rewrite in_app_iff. simpl. split.
      * intros [[H|[H|[]]]|(s0 & H1 & H2)].
        -- left. exact H.
        -- right. exists s. auto.
        -- right. exists s0. auto.
      * intros [H|(s0 & H1 & [H2|H2])].
        -- left. left. exact H.
        -- subst. left. right. left. reflexivity.
        -- right. exists s0. auto.
Qed.

Lemma insert_all_NoDup :
  forall (records : list (string * json)) (items : catalog),
    NoDup (map fst items) -> NoDup (map fst (insert_all records items)).
Proof.
  induction records as [|[s record] rest IH]; intros items Hnd; simpl.
  - exact Hnd.
  - apply IH. rewrite catalog_insert_keys.
    destruct (catalog_mem (JStr s) items) eqn:Hmem; [exact Hnd|].
    apply NoDup_app; repeat split.
    + exact Hnd.
    + repeat constructor. intros [].
    + intros k Hin [Hk|[]]. subst k.
      apply catalog_mem_keys in Hin. congruence.
Qed.

Lemma load_run_records :
  forall (files : list (string * read_outcome)) (items : catalog),
    Forall (fun entry => record_file entry = true) files ->
    load_run files items
    = (Ok (insert_all (id_records files) items), flat_map load_events files).
Proof.
  induction files as [|[file_path outcome] rest IH]; intros items Hwf.
  - reflexivity.
  - inversion Hwf as [|? ? Hhead Htail]; subst.
    unfold record_file in Hhead. cbn [snd] in Hhead.
    cbn [load_run id_records flat_map load_events fst snd].
    destruct outcome as [[|e]|data]; try discriminate.
    + rewrite (IH items Htail). reflexivity.
    + destruct data; try discriminate.
      cbn [py_contains py_getitem]. unfold dict_mem.
      destruct (dict_get "id" d) as [[]|] eqn:Hid; try discriminate.
      * cbn [rbind catalog_setitem py_hashable].
        rewrite (IH _ Htail).
        unfold load_events. simpl. unfold dict_mem. rewrite Hid. reflexivity.
      * rewrite (IH items Htail).
        unfold load_events. simpl. unfold dict_mem. rewrite Hid. reflexivity.
Qed.

(** C8.  When every matched file is either undecodable or holds a record
    whose [id], if any, is a string, the catalog that [load_items] returns
    has one entry per distinct id: looking an id up yields the last record
    of the listing that carries it, no key occurs twice, the keys are
    exactly the ids seen, and the size is the number of distinct ids.  The
    loader's events are fixed file by file: a record that overwrites an
    earlier one prints nothing. *)
Theorem catalog_one_entry_per_id :
  forall (w : world) (entries : list (string * read_outcome)),
    source_dir w = Some entries ->
    Forall (fun entry => record_file entry = true) (matched w) ->
    exists items_map,
      fst (load_items w) = Ok items_map
      /\ (forall s, catalog_get (JStr s) items_map
                    = last_record s (id_records (matched w)))
      /\ NoDup (map fst items_map)
      /\ (forall k, In k (map fst items_map)
                    <-> exists s, k = JStr s
                                  /\ In s (map fst (id_records (matched w))))
      /\ List.length items_map
         = List.length (nodup string_dec (map fst (id_records (matched w))))
      /\ trace (snd (load_items w))
         = trace w ++ EvExists SOURCE_DIR :: EvGlob
                      :: flat_map load_events (matched w).
Proof.
  intros w entries Hsrc Hwf.
  exists (insert_all (id_records (matched w)) []).
  assert (Hrun : load_items_run w
                 = (Ok (insert_all (id_records (matched w)) []),
                    EvExists SOURCE_DIR :: EvGlob
                    :: flat_map load_events (matched w))).
  { unfold load_items_run. rewrite Hsrc.
    rewrite (load_run_records _ _ Hwf). reflexivity. }
  assert (Hkeys : forall k,
             In k (map fst (insert_all (id_records (matched w)) []))
             <-> exists s, k = JStr s /\ In s (map fst (id_records (matched w)))).
  { intros k. rewrite insert_all_keys. simpl. tauto. }
  assert (Hnd : NoDup (map fst (insert_all (id_records (matched w)) [])))
    by (apply insert_all_NoDup; constructor).
  rewrite load_items_eq, Hrun. cbn [fst snd advance trace].
  repeat split; try assumption.
  - intros s. rewrite insert_all_get. simpl.
    destruct (last_record s (id_records (matched w))); reflexivity.
  - apply Hkeys.
  - apply Hkeys.
  - rewrite <- (length_map fst (insert_all _ _)).
    rewrite <- (length_map JStr (nodup _ _)).
    apply Permutation_length, NoDup_Permutation.
    + exact Hnd.
    + apply Injective_map_NoDup; [|apply NoDup_nodup].
      intros a b H. congruence.
    + intros k. rewrite Hkeys, in_map_iff. split.
      * intros (s & -> & Hin). exists s. split; [reflexivity|].
        apply nodup_In. exact Hin.
      * intros (s & <- & Hin). exists s. split; [reflexivity|].
        apply nodup_In in Hin. exact Hin.
Qed.

Lemma catalog_one_entry_per_id_witness :
  exists items_map,
    fst (load_items duplicate_world) = Ok items_map
    /\ (forall s, catalog_get (JStr s) items_map
                  = last_record s (id_records (matched duplicate_world)))
    /\ NoDup (map fst items_map)
    /\ (forall k, In k (map fst items_map)
                  <-> exists s, k = JStr s
                                /\ In s (map fst (id_records (matched duplicate_world))))
    /\ List.length items_map
       = List.length (nodup string_dec (map fst (id_records (matched duplicate_world))))
    /\ trace (snd (load_items duplicate_world))
       = trace duplicate_world ++ EvExists SOURCE_DIR :: EvGlob
                    :: flat_map load_events (matched duplicate_world).
Proof.
  apply (catalog_one_entry_per_id duplicate_world duplicate_entries).
  - reflexivity.
  - repeat constructor.
Defined.

(** ** Which files are looked at *)

Lemma ends_with_suffix (suffix : string) :
  forall s, ends_with suffix s = true -> exists stem, s = (stem ++ suffix)%string.
Proof.
  induction s as [|c rest IH]; cbn [ends_with].
  - destruct suffix; [|discriminate]. intros _. exists "". reflexivity.
  - destruct (String.eqb (String c rest) suffix) eqn:E.
    + apply String.eqb_eq in E. subst. intros _. exists "". reflexivity.
    + intros H. destruct (IH H) as [stem ->].
      exists (String c stem). reflexivity.
Qed.

Lemma loop_event_opens (files : list (string * read_outcome)) (events : list event) :
  Forall (loop_event files) events -> Forall (opens_among (map fst files)) events.
Proof.
  apply Forall_impl. intros e [(m & ->)|(n & He & Hin)] filename Hopen.
  - destruct Hopen; discriminate.
  - destruct He as [-> | ->]; destruct Hopen as [H|H]; inversion H; subst; exact Hin.
Qed.

Lemma pipeline_run_opens (w : world) :
  Forall (opens_among (map fst (matched w))) (snd (pipeline_run w)).
Proof.
  assert (Hother : forall e, (forall n, e <> EvOpenRead n) -> (forall n, e <> EvOpenWrite n) ->
                             opens_among (map fst (matched w)) e).
  { intros e H1 H2 n [H|H]; [exfalso; exact (H1 n H) | exfalso; exact (H2 n H)]. }
  assert (Hload : Forall (opens_among (map fst (matched w))) (snd (load_items_run w))).
  { unfold load_items_run. destruct (source_dir w); cbn [snd].
    - repeat (apply Forall_cons; [apply Hother; discriminate|]).
      apply loop_event_opens, load_run_events.
    - repeat (apply Forall_cons; [apply Hother; discriminate|]). constructor. }
  unfold pipeline_run.
  destruct (fst (load_items_run w)) as [[|entry more]|e]; cbn [snd].
  - apply Forall_cons; [apply Hother; discriminate|].
    apply Forall_app. split; [exact Hload|].
    repeat (apply Forall_cons; [apply Hother; discriminate|]). constructor.
  - set (p := publish_run (entry :: more) (matched w) 0 0).
    assert (Hpub : Forall (opens_among (map fst (matched w))) (pub_events p))
      by apply loop_event_opens, publish_run_events.
    destruct (pub_result p); cbn [snd];
      repeat first [ assumption | apply Forall_nil
                   | apply Forall_cons; [apply Hother; discriminate|]
                   | apply Forall_app; split ].
  - apply Forall_cons; [apply Hother; discriminate | exact Hload].
Qed.

Lemma matched_names (w : world) (filename : string) :
  In filename (map fst (matched w)) -> glob_match filename = true.
Proof.
  unfold matched. destruct (source_dir w) as [entries|]; [|intros []].
  rewrite in_map_iff. intros ([n o] & <- & Hin).
  apply filter_In in Hin. exact (proj2 Hin).
Qed.

Lemma write_all_names (writes files : list (string * json)) (filename : string) :
  In filename (map fst (write_all writes files))
  <-> In filename (map fst writes) \/ In filename (map fst files).
Proof.
  assert (Hset : forall n d fs,
             In filename (map fst (file_set n d fs))
             <-> filename = n \/ In filename (map fst fs)).
  { intros n d. induction fs as [|[n0 d0] rest IH]; simpl.
    - split; [intros [H|[]]; left; symmetry; exact H | intros [H|[]]; left; symmetry; exact H].
    - destruct (String.eqb n0 n) eqn:E; simpl.
      + apply String.eqb_eq in E. subst n0. intuition.
      + rewrite IH. intuition. }
  revert files. induction writes as [|[n d] rest IH]; intros files; simpl.
  - intuition.
  - rewrite IH, Hset. intuition.
Qed.

Lemma filter_idempotent {A} (f : A -> bool) (l : list A) :
  filter f (filter f l) = filter f l.
Proof.
  induction l as [|a rest IH]; simpl; [reflexivity|].
  destruct (f a) eqn:E; simpl; [rewrite E, IH|]; auto.
Qed.

(** The run depends on [SOURCE_DIR] only through the matched files. *)
Lemma main_run_matched (w w' : world) :
  matched w' = matched w ->
  (source_dir w' = None <-> source_dir w = None) ->
  dest_dir w' = dest_dir w ->
  load_items_run w' = load_items_run w /\ main_run w' = main_run w.
Proof.
  intros Hm Hs Hd.
  assert (Hl : load_items_run w' = load_items_run w).
  { unfold load_items_run. rewrite Hm.
    destruct (source_dir w'), (source_dir w); try reflexivity.
    - destruct Hs as [_ Hs]. discriminate (Hs eq_refl).
    - destruct Hs as [Hs _]. discriminate (Hs eq_refl). }
  split; [exact Hl|].
  unfold main_run, pipeline_run, reset_events. rewrite Hl, Hm, Hd. reflexivity.
Qed.

(** C10.  Both scans go through the pattern [*.json]: a matched name ends
    in [.json]; the loader and the whole run behave as if the files with
    other names were not in the directory; and such a file is never opened,
    for reading or for writing, and no file of that name is found in the
    destination. *)
Theorem only_json_files_considered :
  (forall filename,
      glob_match filename = true ->
      exists stem, filename = (stem ++ ".json")%string)
  /\ (forall (w : world) (entries : list (string * read_outcome)),
        source_dir w = Some entries ->
        let w' := mkWorld (Some (filter (fun entry => glob_match (fst entry)) entries))
                    (dest_dir w) (trace w) in
        fst (load_items w) = fst (load_items w')
        /\ trace (snd (load_items w)) = trace (snd (load_items w'))
        /\ fst (main w) = fst (main w')
        /\ dest_dir (snd (main w)) = dest_dir (snd (main w'))
        /\ trace (snd (main w)) = trace (snd (main w')))
  /\ (forall (w : world) (filename : string),
        glob_match filename = false ->
        (exists events,
            trace (snd (main w)) = trace w ++ events
            /\ ~ In (EvOpenRead filename) events
            /\ ~ In (EvOpenWrite filename) events)
        /\ (forall files,
              dest_dir (snd (main w)) = Some files ->
              ~ In filename (map fst files))).
Proof.
  split; [|split].
  - intros filename H. unfold glob_match in H.
    apply andb_true_iff in H. apply ends_with_suffix. exact (proj2 H).
  - intros w entries Hsrc w'.
    assert (Hm : matched w' = matched w).
    { unfold matched, w'. cbn [source_dir]. rewrite Hsrc. apply filter_idempotent. }
    assert (Hs : source_dir w' = None <-> source_dir w = None).
    { unfold w'. cbn [source_dir]. rewrite Hsrc. split; discriminate. }
    destruct (main_run_matched w w' Hm Hs eq_refl) as [Hl Hr].
    rewrite !load_items_eq, !main_eq, Hl, Hr. cbn [fst snd advance dest_dir trace].
    repeat split; reflexivity.
  - intros w filename Hno.
    assert (Hopen : forall e, e = EvOpenRead filename \/ e = EvOpenWrite filename ->
                              ~ In e (snd (main_run w))).
    { intros e He Hin. unfold main_run in Hin.
      pose proof (pipeline_run_opens w) as Hp.
      destruct (pipeline_run w) as [[r written] events]. cbn [snd] in *.
      apply in_app_or in Hin. destruct Hin as [Hin|Hin].
      - unfold reset_events in Hin.
        destruct (dest_dir w); simpl in Hin;
          destruct He; subst e; intuition discriminate.
      - rewrite Forall_forall in Hp. specialize (Hp e Hin filename He).
        apply matched_names in Hp. congruence. }
    split.
    + exists (snd (main_run w)). rewrite main_eq. cbn [snd trace].
      split; [reflexivity|]. split; apply Hopen; auto.
    + intros files Hdest Hin.
      apply in_map_iff in Hin. destruct Hin as ([n data'] & Hn & Hin).
      simpl in Hn. subst n.
      destruct (main_dest_sound w files filename data' Hdest Hin)
        as (items_map & data & set & _ & Hm & _).
      apply (in_map fst) in Hm. apply matched_names in Hm. simpl in Hm. congruence.
Qed.

Lemma only_json_files_considered_witness :
  (exists events,
      trace (snd (main example_world)) = trace example_world ++ events
      /\ ~ In (EvOpenRead "notes.txt") events
      /\ ~ In (EvOpenWrite "notes.txt") events)
  /\ (forall files,
        dest_dir (snd (main example_world)) = Some files ->
        ~ In "notes.txt" (map fst files)).
Proof.
  apply (proj2 (proj2 only_json_files_considered) example_world "notes.txt").
  reflexivity.
Defined.

(** ** Files that cannot be decoded *)


Section PublisherLoop.

Variable items_map : catalog.

Lemma publish_run_skip (filename : string) (e : exception)
    (after : list (string * read_outcome)) :
  forall (before : list (string * read_outcome)) (processed calculated : nat),
    let p := publish_run items_map (before ++ (filename, Raises e) :: after)
               processed calculated in
    let p' := publish_run items_map (before ++ after) processed calculated in
    pub_result p = pub_result p' /\ pub_writes p = pub_writes p'.
Proof.
  induction before as [|[n outcome] rest IH]; intros processed calculated; simpl.
  - split; reflexivity.
  - destruct outcome as [e'|data]; simpl.
    + apply IH.
    + destruct (augment data items_map) as [augmented|e']; simpl;
        [|split; reflexivity].
      destruct (IH (S processed)
                   (if snd augmented then S calculated else calculated)) as [H1 H2].
      split; [exact H1 | rewrite H2; reflexivity].
Qed.

(** A run that the publisher's loop finishes has written every file that
    parsed. *)
Lemma publish_run_complete :
  forall (files : list (string * read_outcome)) (processed calculated : nat)
         (counts : nat * nat) (filename : string) (data : json),
    pub_result (publish_run items_map files processed calculated) = Ok counts ->
    In (filename, Parsed data) files ->
    exists augmented,
      augment data items_map = Ok augmented
      /\ In (filename, fst augmented)
           (pub_writes (publish_run items_map files processed calculated)).
Proof.
  induction files as [|[n outcome] rest IH];
    intros processed calculated counts filename data; simpl; [intros _ []|].
  destruct outcome as [e|data0]; simpl.
  - intros Hres [Hin|Hin]; [discriminate|].
    exact (IH _ _ _ _ _ Hres Hin).
  - destruct (augment data0 items_map) as [augmented|e] eqn:Haug; simpl;
      [|discriminate].
    intros Hres [Hin|Hin].
    + inversion Hin; subst. exists augmented. split; [exact Haug | left; reflexivity].
    + destruct (IH _ _ _ _ _ Hres Hin) as (augmented' & H1 & H2).
      exists augmented'. split; [exact H1 | right; exact H2].
Qed.

(** The publisher's loop finishes when no record makes lines 97-101
    raise. *)
Lemma publish_run_ok :
  forall (files : list (string * read_outcome)) (processed calculated : nat),
    (forall filename data, In (filename, Parsed data) files ->
                           exists augmented, augment data items_map = Ok augmented) ->
    exists counts,
      pub_result (publish_run items_map files processed calculated) = Ok counts.
Proof.
  induction files as [|[n outcome] rest IH]; intros processed calculated Hok; simpl.
  - eexists. reflexivity.
  - destruct outcome as [e|data]; simpl.
    + apply IH. intros filename data Hin. apply (Hok filename data). right. exact Hin.
    + destruct (Hok n data (or_introl eq_refl)) as [augmented Haug].
      rewrite Haug. simpl.
      apply IH. intros filename data0 Hin. apply (Hok filename data0). right. exact Hin.
Qed.

End PublisherLoop.


(** The files that a run opens for writing are files that parsed. *)
Lemma publish_run_written (items_map : catalog) :
  forall (files : list (string * read_outcome)) (processed calculated : nat)
         (filename : string),
    In (EvOpenWrite filename)
       (pub_events (publish_run items_map files processed calculated)) ->
    exists data, In (filename, Parsed data) files.
Proof.
  induction files as [|[n outcome] rest IH]; intros processed calculated filename;
    cbn [publish_run pub_events]; [intros []|].
  destruct outcome as [e|data]; cbn [pub_events].
  - intros [H|[H|H]]; try discriminate.
    destruct (IH _ _ _ H) as [data Hin]. exists data. right. exact Hin.
  - destruct (augment data items_map) as [augmented|e]; cbn [pub_events].
    + intros [H|[H|H]]; try discriminate.
      * inversion H; subst. exists data. left. reflexivity.
      * destruct (IH _ _ _ H) as [data0 Hin]. exists data0. right. exact Hin.
    + intros [H|[]]. discriminate.
Qed.

Lemma pipeline_run_written (w : world) (filename : string) :
  In (EvOpenWrite filename) (snd (pipeline_run w)) ->
  exists data, In (filename, Parsed data) (matched w).
Proof.
  assert (Hload : ~ In (EvOpenWrite filename) (snd (load_items_run w))).
  { intros Hin. pose proof (load_items_run_no_write w) as Hno.
    rewrite Forall_forall in Hno. specialize (Hno _ Hin). discriminate. }
  unfold pipeline_run.
  destruct (fst (load_items_run w)) as [[|entry more]|e]; cbn [snd].
  - intros [H|H]; [discriminate|].
    apply in_app_or in H. destruct H as [H|[H|[H|[]]]]; try discriminate.
    exfalso. exact (Hload H).
  - set (p := publish_run (entry :: more) (matched w) 0 0).
    assert (Hduring : In (EvOpenWrite filename)
                        ((EvPrint MsgLoading :: snd (load_items_run w))
                         ++ [EvPrint (MsgLoaded (List.length (entry :: more)));
                             EvPrint MsgCalculating; EvGlob] ++ pub_events p) ->
                      exists data, In (filename, Parsed data) (matched w)).
    { intros H. apply in_app_or in H. destruct H as [[H|H]|H].
      - discriminate.
      - exfalso. exact (Hload H).
      - destruct H as [H|[H|[H|H]]]; try discriminate.
        exact (publish_run_written _ _ _ _ _ H). }
    destruct (pub_result p); cbn [snd].
    + intros H. apply in_app_or in H. destruct H as [H|[H|[H|[]]]]; try discriminate.
      exact (Hduring H).
    + exact Hduring.
  - intros [H|H]; [discriminate|]. exfalso. exact (Hload H).
Qed.

Lemma main_run_written (w : world) (filename : string) :
  In (EvOpenWrite filename) (snd (main_run w)) ->
  exists data, In (filename, Parsed data) (matched w).
Proof.
  intros Hin. unfold main_run in Hin.
  pose proof (pipeline_run_written w filename) as Hp.
  destruct (pipeline_run w) as [[r written] events]. cbn [snd] in *.
  apply in_app_or in Hin. destruct Hin as [Hin|Hin]; [|exact (Hp Hin)].
  exfalso. unfold reset_events in Hin.
  destruct (dest_dir w); simpl in Hin;
    repeat (destruct Hin as [Hin|Hin]; [discriminate|]); exact Hin.
Qed.





(** ** Degenerate stack sizes *)

Lemma effective_clamped (r r' : json) :
  clamped r r' -> Spec.effectiveStackSize r' = Spec.effectiveStackSize r.
Proof.
  intros [r0|d v Hget Hle]; [reflexivity|].
  simpl. rewrite dict_get_set_same, Hget. simpl. rewrite Hle. reflexivity.
Qed.

Lemma catalog_get_clamped (k : json) (m m' : catalog) :
  catalog_clamped m m' ->
  match catalog_get k m, catalog_get k m' with
  | Some r, Some r' => clamped r r'
  | None, None => True
  | _, _ => False
  end.
Proof.
  induction 1 as [|[k0 r] [k0' r'] rest rest' [Hk Hr] _ IH]; simpl; [exact I|].
  simpl in Hk, Hr. subst k0'.
  destruct (py_key_eqb k0 k); [exact Hr | exact IH].
Qed.

Lemma ingredient_loop_step (m : catalog) (k : string) (q : json)
    (rest : list (string * json)) (acc : pyfloat) :
  ingredient_loop m ((k, q) :: rest) acc
  = match catalog_get (JStr k) m with
    | None => Ok None
    | Some ingredient =>
        (size <- Spec.effectiveStackSize ingredient ;;
         term <- py_truediv q size ;;
         ingredient_loop m rest (fadd acc term))%result
    end.
Proof.
  simpl. unfold catalog_mem, catalog_getitem.
  destruct (catalog_get (JStr k) m) as [ingredient|]; simpl; [|reflexivity].
  rewrite <- clamp_effective.
  destruct (py_get ingredient "stackSize" (JInt 1)); reflexivity.
Qed.

Lemma ingredient_loop_clamped (m m' : catalog) :
  catalog_clamped m m' ->
  forall (pairs : list (string * json)) (acc : pyfloat),
    ingredient_loop m' pairs acc = ingredient_loop m pairs acc.
Proof.
  intros Hm. induction pairs as [|[k q] rest IH]; intros acc; [reflexivity|].
  rewrite !ingredient_loop_step.
  pose proof (catalog_get_clamped (JStr k) m m' Hm) as Hget.
  destruct (catalog_get (JStr k) m) as [r|], (catalog_get (JStr k) m') as [r'|];
    try contradiction; [|reflexivity].
  rewrite (effective_clamped r r' Hget).
  destruct (Spec.effectiveStackSize r) as [size|e]; simpl; [|reflexivity].
  destruct (py_truediv q size); simpl; [apply IH | reflexivity].
Qed.

Lemma dict_mem_set_other (k k' : string) (v : json) (d : dict) :
  k <> k' -> dict_mem k (dict_set k' v d) = dict_mem k d.
Proof.
  intros H. unfold dict_mem. rewrite dict_get_set_other by exact H. reflexivity.
Qed.

(** The calculation cannot tell a degenerate stack size from 1, neither on
    the item nor on any record of the catalog. *)
Lemma calculate_savings_clamped (item item' : json) (m m' : catalog) :
  clamped item item' -> catalog_clamped m m' ->
  calculate_savings item' m' = calculate_savings item m.
Proof.
  intros Hitem Hm. unfold calculate_savings.
  assert (Hloop : forall pairs, ingredient_loop m' pairs fzero
                                = ingredient_loop m pairs fzero)
    by (intros pairs; apply ingredient_loop_clamped; exact Hm).
  destruct Hitem as [r|d v Hget Hle].
  - destruct (py_contains "recipe" r) as [[|]|e]; simpl; try reflexivity.
    destruct (py_getitem r "recipe") as [recipe|e]; simpl; [|reflexivity].
    destruct (py_truthy recipe); simpl; [|reflexivity].
    destruct (py_items recipe) as [pairs|e]; simpl; [|reflexivity].
    rewrite Hloop. reflexivity.
  - cbn [py_contains py_getitem py_get].
    rewrite dict_mem_set_other by discriminate.
    rewrite (dict_get_set_other "recipe") by discriminate.
    destruct (dict_mem "recipe" d); simpl; [|reflexivity].
    destruct (dict_get "recipe" d) as [recipe|]; simpl; [|reflexivity].
    destruct (py_truthy recipe); simpl; [|reflexivity].
    destruct (py_items recipe) as [pairs|e]; simpl; [|reflexivity].
    rewrite Hloop.
    destruct (ingredient_loop m pairs fzero) as [[acc|]|e]; simpl; try reflexivity.
    unfold dict_get_default.
    rewrite (dict_get_set_other "craftQuantity") by discriminate.
    rewrite dict_get_set_same, Hget.
    unfold clamp_stack_size. rewrite Hle. reflexivity.
Qed.

Lemma catalog_clamped_refl (m : catalog) : catalog_clamped m m.
Proof.
  induction m; constructor; [split; [reflexivity | constructor] | assumption].
Qed.

(** A stack size that has gone through lines 49-50 is not [<= 0]. *)
Lemma clamp_stack_size_positive (stack_size clamped_size : json) :
  clamp_stack_size stack_size = Ok clamped_size ->
  py_le_zero clamped_size = Ok false.
Proof.
  unfold clamp_stack_size.
  destruct (py_le_zero stack_size) as [[|]|e] eqn:Hle; simpl; try discriminate.
  - intros H. inversion H. reflexivity.
  - intros H. inversion H. subst. exact Hle.
Qed.

(** *** No division by zero

    A divisor that is not [<= 0] is not zero either, also after an integer
    divisor has been converted to a float: rounding a positive integer
    never yields zero.  The lemmas below follow the rounding of
    [binary_normalize] step by step. *)

Lemma digits2_pos_size (p : positive) : digits2_pos p = Pos.size p.
Proof. induction p; simpl; congruence. Qed.

Lemma Zdigits2_log2 (p : positive) : Zdigits2 (Zpos p) = Z.log2 (Zpos p) + 1.
Proof.
  simpl. rewrite digits2_pos_size. destruct p; simpl; try reflexivity;
  rewrite Pos.add_1_r; reflexivity.
Qed.

Lemma Zdigits2_pos (m : Z) : 0 < m -> Zdigits2 m = Z.log2 m + 1.
Proof. destruct m; try lia. intros _. apply Zdigits2_log2. Qed.

Lemma shr_1_m (r : shr_record) : 0 <= shr_m r -> shr_m (shr_1 r) = shr_m r / 2.
Proof.
  destruct r as [m b s]. simpl. intros H.
  destruct m as [|[p|p|]|p]; simpl; try reflexivity; try lia.
  - rewrite Pos2Z.inj_xI. apply Z.div_unique with (r := 1); lia.
  - rewrite Pos2Z.inj_xO. apply Z.div_unique with (r := 0); lia.
Qed.

Lemma pow2_xO (n : positive) : 2 ^ Zpos n~0 = 2 ^ Zpos n * 2 ^ Zpos n.
Proof.
  replace (Zpos n~0) with (Zpos n + Zpos n) by lia.
  apply Z.pow_add_r; lia.
Qed.

Lemma pow2_xI (n : positive) : 2 ^ Zpos n~1 = 2 * (2 ^ Zpos n * 2 ^ Zpos n).
Proof.
  replace (Zpos n~1) with (1 + (Zpos n + Zpos n)) by lia.
  rewrite Z.pow_add_r, Z.pow_add_r by lia. reflexivity.
Qed.

Lemma shr_iter_m (n : positive) :
  forall r, 0 <= shr_m r -> shr_m (iter_pos shr_1 n r) = shr_m r / 2 ^ Zpos n.
Proof.
  assert (Hpow : forall k : positive, 0 < 2 ^ Zpos k) by (intros k; apply Z.pow_pos_nonneg; lia).
  induction n as [n IH|n IH|]; intros r Hr; simpl iter_pos.
  - assert (H1 : 0 <= shr_m (shr_1 r)) by (rewrite shr_1_m by exact Hr; apply Z.div_pos; lia).
    assert (H2 : 0 <= shr_m (iter_pos shr_1 n (shr_1 r))).
    { rewrite IH by exact H1. apply Z.div_pos; [lia | apply Hpow]. }
    rewrite IH by exact H2. rewrite IH by exact H1. rewrite shr_1_m by exact Hr.
    pose proof (Hpow n).
    rewrite pow2_xI, !Z.div_div by lia. reflexivity.
  - assert (H2 : 0 <= shr_m (iter_pos shr_1 n r)).
    { rewrite IH by exact Hr. apply Z.div_pos; [lia | apply Hpow]. }
    rewrite IH by exact H2. rewrite IH by exact Hr.
    pose proof (Hpow n).
    rewrite pow2_xO, !Z.div_div by lia. reflexivity.
  - rewrite shr_1_m by exact Hr. rewrite Z.pow_1_r. reflexivity.
Qed.

(** Shifting a positive mantissa to its canonical exponent keeps it
    positive, and keeps the magnitude (digits plus exponent). *)
Lemma shr_fexp_pos (m e : Z) (l : location) :
  0 < m -> emin < Zdigits2 m + e ->
  0 < shr_m (fst (shr_fexp prec emax m e l))
  /\ Zdigits2 (shr_m (fst (shr_fexp prec emax m e l))) + snd (shr_fexp prec emax m e l)
     = Zdigits2 m + e.
Proof.
  intros Hm Hmag. unfold shr_fexp, shr.
  assert (Hrec : shr_m (shr_record_of_loc m l) = m) by (destruct l as [|[]]; reflexivity).
  destruct (fexp prec emax (Zdigits2 m + e) - e) as [|n|n] eqn:Hn; cbn [fst snd];
    rewrite ?Hrec; try (split; [exact Hm | reflexivity]).
  rewrite shr_iter_m by (rewrite Hrec; lia). rewrite Hrec.
  rewrite Zdigits2_pos in * by exact Hm.
  assert (Hle : Zpos n <= Z.log2 m).
  { unfold fexp, SpecFloat.emin in *. change prec with 53 in *. change emax with 1024 in *. lia. }
  rewrite <- Z.shiftr_div_pow2 by lia.
  assert (Hlog : Z.log2 (Z.shiftr m (Zpos n)) = Z.log2 m - Zpos n).
  { rewrite Z.log2_shiftr by exact Hm. lia. }
  assert (Hpos : 0 < Z.shiftr m (Zpos n)).
  { rewrite Z.shiftr_div_pow2 by lia.
    apply Z.div_str_pos. split; [apply Z.pow_pos_nonneg; lia|].
    apply Z.le_trans with (2 ^ Z.log2 m); [apply Z.pow_le_mono_r; lia|].
    apply Z.log2_spec. exact Hm. }
  split; [exact Hpos|].
  rewrite Zdigits2_pos by exact Hpos. rewrite (Zdigits2_pos m) by exact Hm. lia.
Qed.

Lemma round_nearest_even_pos (m : Z) (l : location) :
  0 < m -> m <= round_nearest_even m l <= m + 1.
Proof.
  intros Hm. unfold round_nearest_even.
  destruct l as [|[]]; try lia. destruct (Z.even m); lia.
Qed.

Lemma binary_round_aux_nonzero (sx : bool) (m e : Z) (l : location) :
  0 < m -> emin < Zdigits2 m + e ->
  forall s, binary_round_aux prec emax sx m e l <> S754_zero s.
Proof.
  intros Hm Hmag s. unfold binary_round_aux.
  destruct (shr_fexp_pos m e l Hm Hmag) as [Hpos1 Hmag1].
  destruct (shr_fexp prec emax m e l) as [mrs' e'] eqn:H1. cbn [fst snd] in *.
  set (m1 := round_nearest_even (shr_m mrs') (loc_of_shr_record mrs')).
  pose proof (round_nearest_even_pos (shr_m mrs') (loc_of_shr_record mrs') Hpos1) as Hr.
  fold m1 in Hr.
  assert (Hm1 : 0 < m1) by lia.
  assert (Hmag2 : emin < Zdigits2 m1 + e').
  { rewrite (Zdigits2_pos m1) by exact Hm1.
    rewrite (Zdigits2_pos (shr_m mrs')) in Hmag1 by exact Hpos1.
    rewrite (Zdigits2_pos m) in Hmag, Hmag1 by exact Hm.
    assert (Z.log2 (shr_m mrs') <= Z.log2 m1) by (apply Z.log2_le_mono; lia).
    lia. }
  destruct (shr_fexp_pos m1 e' loc_Exact Hm1 Hmag2) as [Hpos2 _].
  destruct (shr_fexp prec emax m1 e' loc_Exact) as [mrs'' e'']. cbn [fst snd] in *.
  destruct (shr_m mrs'') as [|p|p]; try lia.
  destruct (e'' <=? emax - prec); discriminate.
Qed.

Lemma digits2_iter_xO (p : positive) :
  forall d, Zpos (digits2_pos (Pos.iter xO p d)) = Zpos (digits2_pos p) + Zpos d.
Proof.
  induction d as [|d IH] using Pos.peano_ind.
  - simpl. lia.
  - rewrite Pos.iter_succ. simpl digits2_pos. lia.
Qed.

Lemma shl_align_digits (mx : positive) (ex ex' : Z) :
  Zdigits2 (Zpos (fst (shl_align mx ex ex'))) + snd (shl_align mx ex ex')
  = Zdigits2 (Zpos mx) + ex.
Proof.
  unfold shl_align. destruct (ex' - ex) as [|d|d] eqn:Hd; try reflexivity.
  cbn [fst snd Zdigits2]. rewrite digits2_iter_xO. lia.
Qed.

Lemma binary_normalize_pos_nonzero (p : positive) (s : bool) :
  binary_normalize prec emax (Zpos p) 0 false <> S754_zero s.
Proof.
  unfold binary_normalize, binary_round.
  pose proof (shl_align_digits p 0 (fexp prec emax (Zpos (digits2_pos p) + 0))) as Hd.
  destruct (shl_align p 0 (fexp prec emax (Zpos (digits2_pos p) + 0))) as [mz ez].
  cbn [fst snd] in Hd.
  apply binary_round_aux_nonzero; [lia|].
  rewrite Hd. simpl Zdigits2. unfold SpecFloat.emin.
  change prec with 53. change emax with 1024. lia.
Qed.

Lemma SFeqb_zero (f : pyfloat) :
  SFeqb f fzero = true -> exists s, f = S754_zero s.
Proof.
  destruct f as [s|s| |s m e]; simpl; try discriminate.
  - intros _. exists s. reflexivity.
  - destruct s; discriminate.
  - destruct s; discriminate.
Qed.

Lemma SFleb_false_nonzero (f : pyfloat) :
  SFleb f fzero = false -> SFeqb f fzero = false.
Proof.
  unfold SFleb, SFeqb. destruct (SFcompare f fzero) as [[]|]; congruence.
Qed.

Lemma int_to_float_pos_nonzero (p : positive) (f : pyfloat) :
  int_to_float (Zpos p) = Ok f -> SFeqb f fzero = false.
Proof.
  unfold int_to_float.
  destruct (is_infinite (binary_normalize prec emax (Zpos p) 0 false)); [discriminate|].
  intros H. injection H as Hf.
  destruct (SFeqb f fzero) eqn:E; [|reflexivity].
  apply SFeqb_zero in E. destruct E as [s Hs]. subst f.
  exfalso. exact (binary_normalize_pos_nonzero p s Hs).
Qed.

(** Dividing by a number that is not [<= 0] never raises
    [ZeroDivisionError]. *)
Lemma py_truediv_positive (quantity divisor : json) :
  py_le_zero divisor = Ok false ->
  py_truediv quantity divisor <> Raise ZeroDivisionError.
Proof.
  unfold py_le_zero, py_truediv.
  destruct (num_of divisor) as [[z|g]|]; [| |discriminate]; intros Hle;
    (destruct (num_of quantity) as [[a|f]|]; [| |discriminate]);
    inversion Hle as [Hz]; clear Hle; simpl.
  - unfold int_truediv. apply Z.leb_gt in Hz.
    destruct (z =? 0) eqn:E; [apply Z.eqb_eq in E; lia|].
    destruct (is_infinite _); discriminate.
  - unfold float_truediv. simpl. apply Z.leb_gt in Hz.
    destruct z as [|p|p]; try lia.
    destruct (int_to_float (Zpos p)) as [fb|e] eqn:Hfb; simpl.
    + rewrite (int_to_float_pos_nonzero p fb Hfb). discriminate.
    + unfold int_to_float in Hfb. destruct (is_infinite _); [|discriminate].
      inversion Hfb. discriminate.
  - unfold float_truediv. simpl.
    destruct (int_to_float a) as [fa|e] eqn:Hfa; simpl.
    + rewrite (SFleb_false_nonzero g Hz). discriminate.
    + unfold int_to_float in Hfa. destruct (is_infinite _); [|discriminate].
      inversion Hfa. discriminate.
  - unfold float_truediv. simpl.
    rewrite (SFleb_false_nonzero g Hz). discriminate.
Qed.

Lemma effective_positive (record size : json) :
  Spec.effectiveStackSize record = Ok size -> py_le_zero size = Ok false.
Proof.
  rewrite <- clamp_effective.
  destruct (py_get record "stackSize" (JInt 1)) as [size0|e]; simpl; [|discriminate].
  apply clamp_stack_size_positive.
Qed.

Lemma ingredient_loop_no_zero_division (items_map : catalog) :
  forall (pairs : list (string * json)) (acc : pyfloat),
    ingredient_loop items_map pairs acc <> Raise ZeroDivisionError.
Proof.
  induction pairs as [|[k q] rest IH]; intros acc; [discriminate|].
  rewrite ingredient_loop_step.
  destruct (catalog_get (JStr k) items_map) as [ingredient|]; [|discriminate].
  destruct (Spec.effectiveStackSize ingredient) as [size|e] eqn:Hsize; simpl.
  - pose proof (py_truediv_positive q size (effective_positive _ _ Hsize)) as Hdiv.
    destruct (py_truediv q size) as [term|e]; simpl; [apply IH | congruence].
  - unfold Spec.effectiveStackSize in Hsize.
    destruct ingredient; try (inversion Hsize; discriminate).
    destruct (dict_get "stackSize" d) as [v|]; [|discriminate].
    unfold py_le_zero in Hsize.
    destruct (num_of v) as [[|]|]; simpl in Hsize; inversion Hsize; discriminate.
Qed.

Lemma calculate_savings_no_zero_division (item : json) (items_map : catalog) :
  calculate_savings item items_map <> Raise ZeroDivisionError.
Proof.
  unfold calculate_savings.
  destruct item as [| | | |s|l|d]; simpl; try discriminate.
  - destruct (str_contains "recipe" s); discriminate.
  - destruct (existsb (eq_str "recipe") l); discriminate.
  - destruct (dict_mem "recipe" d); simpl; [|discriminate].
    destruct (dict_get "recipe" d) as [recipe|]; simpl; [|discriminate].
    destruct (py_truthy recipe); simpl; [|discriminate].
    destruct recipe; simpl; try discriminate.
    pose proof (ingredient_loop_no_zero_division items_map d0 fzero) as Hloop.
    destruct (ingredient_loop items_map d0 fzero) as [[acc|]|e]; simpl;
      [| discriminate | congruence].
    destruct (clamp_stack_size (dict_get_default "stackSize" (JInt 1) d))
      as [size|e] eqn:Hsize; simpl.
    + pose proof (py_truediv_positive (dict_get_default "craftQuantity" (JInt 1) d)
                    size (clamp_stack_size_positive _ _ Hsize)) as Hdiv.
      destruct (py_truediv _ size); simpl; [discriminate | congruence].
    + unfold clamp_stack_size, py_le_zero in Hsize.
      destruct (num_of _) as [[|]|]; simpl in Hsize; inversion Hsize; discriminate.
Qed.

(** *** Whole runs on directories that differ by a degenerate stack size *)

Lemma filter_clamped (l l' : list (string * read_outcome)) :
  entries_clamped l l' ->
  entries_clamped (filter (fun entry => glob_match (fst entry)) l)
                  (filter (fun entry => glob_match (fst entry)) l').
Proof.
  induction 1 as [|[n o] [n' o'] rest rest' [Hn Ho] _ IH]; simpl; [constructor|].
  simpl in Hn. subst n'.
  destruct (glob_match n); [constructor; [split; [reflexivity|exact Ho]|]|]; exact IH.
Qed.

Lemma catalog_insert_clamped (k v v' : json) (m m' : catalog) :
  catalog_clamped m m' -> clamped v v' ->
  catalog_clamped (catalog_insert k v m) (catalog_insert k v' m').
Proof.
  intros Hm Hv.
  induction Hm as [|[k0 r] [k0' r'] rest rest' [Hk Hr] Hrest IH]; simpl.
  - constructor; [split; [reflexivity | exact Hv] | constructor].
  - simpl in Hk, Hr. subst k0'.
    destruct (py_key_eqb k0 k).
    + constructor; [split; [reflexivity | exact Hv] | exact Hrest].
    + constructor; [split; [reflexivity | exact Hr] | exact IH].
Qed.

Lemma clamped_id (v v' : json) :
  clamped v v' ->
  py_contains "id" v' = py_contains "id" v
  /\ py_getitem v' "id" = py_getitem v "id".
Proof.
  intros [r|d x Hget Hle]; [split; reflexivity|].
  simpl. rewrite dict_mem_set_other by discriminate.
  rewrite (dict_get_set_other "id") by discriminate. split; reflexivity.
Qed.

Lemma load_run_clamped :
  forall (files files' : list (string * read_outcome)),
    entries_clamped files files' ->
    forall (items items' : catalog),
      catalog_clamped items items' ->
      result_rel catalog_clamped (fst (load_run files items))
                                 (fst (load_run files' items'))
      /\ snd (load_run files' items') = snd (load_run files items).
Proof.
  induction 1 as [|[n o] [n' o'] rest rest' [Hn Ho] _ IH]; intros items items' Hm.
  - simpl. split; [exact Hm | reflexivity].
  - simpl in Hn, Ho. subst n'. cbn [load_run].
    destruct o as [[|e]|v], o' as [[|e']|v']; simpl in Ho;
      try contradiction; try discriminate.
    + destruct (IH items items' Hm) as [Hr He].
      destruct (load_run rest items), (load_run rest' items').
      simpl in *. split; [exact Hr | rewrite He; reflexivity].
    + inversion Ho; subst. simpl. split; reflexivity.
    + destruct (clamped_id v v' Ho) as [Hc Hg]. rewrite Hc, Hg.
      destruct (py_contains "id" v) as [[|]|e]; [| |simpl; split; reflexivity].
      * destruct (py_getitem v "id") as [id|e]; simpl; [|split; reflexivity].
        unfold catalog_setitem.
        destruct (py_hashable id); [|simpl; split; reflexivity].
        destruct (IH (catalog_insert id v items) (catalog_insert id v' items')
                     (catalog_insert_clamped id v v' items items' Hm Ho)) as [Hr He].
        destruct (load_run rest _), (load_run rest' _).
        simpl in *. split; [exact Hr | rewrite He; reflexivity].
      * destruct (IH items items' Hm) as [Hr He].
        destruct (load_run rest items), (load_run rest' items').
        simpl in *. split; [exact Hr | rewrite He; reflexivity].
Qed.

Lemma dict_set_comm (k1 k2 : string) (v1 v2 : json) :
  k1 <> k2 ->
  forall d : dict,
    dict_mem k2 d = true ->
    dict_set k1 v1 (dict_set k2 v2 d) = dict_set k2 v2 (dict_set k1 v1 d).
Proof.
  intros Hne. unfold dict_mem.
  induction d as [|[k v] rest IH]; simpl; [discriminate|].
  destruct (String.eqb k k2) eqn:E2; simpl.
  - apply String.eqb_eq in E2. subst k.
    destruct (String.eqb k2 k1) eqn:E1;
      [apply String.eqb_eq in E1; congruence|].
    intros _. simpl. rewrite String.eqb_refl. reflexivity.
  - intros Hmem. destruct (String.eqb k k1) eqn:E1; simpl; rewrite E2.
    + reflexivity.
    + rewrite IH by exact Hmem. reflexivity.
Qed.

Lemma augment_clamped (v v' : json) (m m' : catalog) :
  clamped v v' -> catalog_clamped m m' ->
  result_rel (fun a a' => clamped (fst a) (fst a') /\ snd a' = snd a)
             (augment v m) (augment v' m').
Proof.
  intros Hv Hm. unfold augment.
  rewrite (proj1 (clamped_id v v' Hv)), (calculate_savings_clamped v v' m m' Hv Hm).
  destruct (py_contains "id" v) as [[|]|e]; simpl; [| |reflexivity].
  - destruct (calculate_savings v m) as [[s|]|e]; simpl; [| |reflexivity].
    + destruct Hv as [r|d x Hget Hle].
      * destruct (py_setitem r "stashSavings" (JFloat s)); simpl;
          [split; [constructor | reflexivity] | reflexivity].
      * simpl. split; [|reflexivity].
        rewrite dict_set_comm
          by (discriminate || (unfold dict_mem; rewrite Hget; reflexivity)).
        apply (clamped_one _ x); [|exact Hle].
        rewrite dict_get_set_other by discriminate. exact Hget.
    + split; [exact Hv | reflexivity].
  - split; [exact Hv | reflexivity].
Qed.

Lemma publish_run_clamped (m m' : catalog) :
  catalog_clamped m m' ->
  forall (files files' : list (string * read_outcome)),
    entries_clamped files files' ->
    forall (processed calculated : nat),
      let p := publish_run m files processed calculated in
      let p' := publish_run m' files' processed calculated in
      pub_result p' = pub_result p
      /\ pub_events p' = pub_events p
      /\ files_clamped (pub_writes p) (pub_writes p').
Proof.
  intros Hm. induction 1 as [|[n o] [n' o'] rest rest' [Hn Ho] _ IH];
    intros processed calculated.
  - simpl. repeat split. constructor.
  - simpl in Hn, Ho. subst n'. cbn [publish_run].
    destruct o as [e|v], o' as [e'|v']; simpl in Ho; try contradiction.
    + subst e'. destruct (IH processed calculated) as (H1 & H2 & H3).
      cbn [pub_result pub_events pub_writes]. cbv zeta in H1, H2, H3.
      rewrite H1, H2. repeat split. exact H3.
    + pose proof (augment_clamped v v' m m' Ho Hm) as Haug.
      destruct (augment v m) as [[a b]|e], (augment v' m') as [[a' b']|e'];
        simpl in Haug; try contradiction.
      * destruct Haug as [Ha Hb]. simpl in Hb. subst b'.
        destruct (IH (S processed) (if b then S calculated else calculated))
          as (H1 & H2 & H3).
        cbn [pub_result pub_events pub_writes fst snd]. cbv zeta in H1, H2, H3.
        rewrite H1, H2. repeat split.
        constructor; [split; [reflexivity | exact Ha] | exact H3].
      * subst e'. simpl. repeat split. constructor.
Qed.

Lemma file_set_clamped (n : string) (v v' : json) (l l' : list (string * json)) :
  files_clamped l l' -> clamped v v' ->
  files_clamped (file_set n v l) (file_set n v' l').
Proof.
  intros Hl Hv.
  induction Hl as [|[k r] [k' r'] rest rest' [Hk Hr] Hrest IH]; simpl.
  - constructor; [split; [reflexivity | exact Hv] | constructor].
  - simpl in Hk, Hr. subst k'.
    destruct (String.eqb k n).
    + constructor; [split; [reflexivity | exact Hv] | exact Hrest].
    + constructor; [split; [reflexivity | exact Hr] | exact IH].
Qed.

Lemma write_all_clamped (writes writes' : list (string * json)) :
  files_clamped writes writes' ->
  forall l l', files_clamped l l' ->
               files_clamped (write_all writes l) (write_all writes' l').
Proof.
  induction 1 as [|[n v] [n' v'] rest rest' [Hn Hv] _ IH]; intros l l' Hl; simpl.
  - exact Hl.
  - simpl in Hn, Hv. subst n'. apply IH. apply file_set_clamped; assumption.
Qed.

Lemma main_run_clamped (w w' : world) (entries entries' : list (string * read_outcome)) :
  source_dir w = Some entries ->
  source_dir w' = Some entries' ->
  entries_clamped entries entries' ->
  dest_dir w' = dest_dir w ->
  fst (fst (main_run w')) = fst (fst (main_run w))
  /\ snd (main_run w') = snd (main_run w)
  /\ files_clamped (snd (fst (main_run w))) (snd (fst (main_run w'))).
Proof.
  intros Hs Hs' He Hd.
  assert (Hm : entries_clamped (matched w) (matched w')).
  { unfold matched. rewrite Hs, Hs'. apply filter_clamped. exact He. }
  destruct (load_run_clamped _ _ Hm [] [] (Forall2_nil _)) as [Hr Hev].
  unfold main_run, pipeline_run, reset_events, load_items_run.
  rewrite Hs, Hs', Hd, Hev. cbn [fst snd].
  destruct (fst (load_run (matched w) [])) as [items|e],
           (fst (load_run (matched w') [])) as [items'|e'];
    simpl in Hr; try contradiction.
  - pose proof (Forall2_length Hr) as Hlen.
    destruct items as [|entry more], items' as [|entry' more'];
      try discriminate Hlen.
    + cbn [fst snd]. repeat split. constructor.
    + destruct (publish_run_clamped _ _ Hr _ _ Hm 0%nat 0%nat) as (H1 & H2 & H3).
      cbv zeta in H1, H2, H3. rewrite H1, H2, Hlen.
      destruct (pub_result (publish_run (entry :: more) (matched w) 0 0));
        cbn [fst snd]; repeat split;
        apply write_all_clamped; (exact H3 || constructor).
  - subst e'. cbn [fst snd]. repeat split. constructor.
Qed.

(** C4.  A [stackSize] that is [<= 0] behaves as 1.  On the item, and on
    any record of the catalog, [calculate_savings] returns the same result
    (or raises the same exception) whether the record holds the degenerate
    value or 1.  The stack size that reaches a division has gone through
    the clamp and is not [<= 0], so neither division can raise
    [ZeroDivisionError]: [calculate_savings] never does.  And the
    correction is silent: two runs on source directories that differ only
    by degenerate stack sizes replaced with 1 return the same result and
    leave the same trace, prints included, and publish the same files, up
    to that replacement. *)
Theorem degenerate_stack_size_is_one :
  (forall (d : dict) (v : json) (items_map : catalog),
      dict_get "stackSize" d = Some v ->
      py_le_zero v = Ok true ->
      calculate_savings (JDict (dict_set "stackSize" (JInt 1) d)) items_map
      = calculate_savings (JDict d) items_map)
  /\ (forall (item : json) (earlier later : catalog) (k : json) (d : dict) (v : json),
        dict_get "stackSize" d = Some v ->
        py_le_zero v = Ok true ->
        calculate_savings item
          (earlier ++ (k, JDict (dict_set "stackSize" (JInt 1) d)) :: later)
        = calculate_savings item (earlier ++ (k, JDict d) :: later))
  /\ (forall (item item' : json) (items_map items_map' : catalog),
        clamped item item' -> catalog_clamped items_map items_map' ->
        calculate_savings item' items_map' = calculate_savings item items_map)
  /\ (forall (stack_size clamped_size : json),
        clamp_stack_size stack_size = Ok clamped_size ->
        py_le_zero clamped_size = Ok false
        /\ forall quantity, py_truediv quantity clamped_size <> Raise ZeroDivisionError)
  /\ (forall (item : json) (items_map : catalog),
        calculate_savings item items_map <> Raise ZeroDivisionError)
  /\ (forall (w w' : world) (entries entries' : list (string * read_outcome)),
        source_dir w = Some entries ->
        source_dir w' = Some entries' ->
        entries_clamped entries entries' ->
        dest_dir w' = dest_dir w ->
        trace w' = trace w ->
        fst (main w') = fst (main w)
        /\ trace (snd (main w')) = trace (snd (main w))
        /\ exists files files',
             dest_dir (snd (main w)) = Some files
             /\ dest_dir (snd (main w')) = Some files'
             /\ files_clamped files files').
Proof.
  repeat apply conj.
  - intros d v items_map Hget Hle.
    apply calculate_savings_clamped;
      [apply (clamped_one d v); assumption | apply catalog_clamped_refl].
  - intros item earlier later k d v Hget Hle.
    apply calculate_savings_clamped; [constructor|].
    apply Forall2_app; [apply catalog_clamped_refl|].
    constructor; [|apply catalog_clamped_refl].
    split; [reflexivity | apply (clamped_one d v); assumption].
  - apply calculate_savings_clamped.
  - intros stack_size clamped_size H.
    pose proof (clamp_stack_size_positive _ _ H) as Hpos.
    split; [exact Hpos | intros quantity; apply py_truediv_positive; exact Hpos].
  - apply calculate_savings_no_zero_division.
  - intros w w' entries entries' Hs Hs' He Hd Ht.
    destruct (main_run_clamped w w' entries entries' Hs Hs' He Hd) as (H1 & H2 & H3).
    rewrite !main_eq. cbn [fst snd dest_dir trace]. rewrite H1, H2, Ht.
    repeat split. eexists. eexists. repeat split. exact H3.
Qed.

Lemma degenerate_stack_size_is_one_witness :
  fst (main (mkWorld (Some corrected_entries) None []))
  = fst (main (mkWorld (Some degenerate_entries) None []))
  /\ trace (snd (main (mkWorld (Some corrected_entries) None [])))
     = trace (snd (main (mkWorld (Some degenerate_entries) None [])))
  /\ exists files files',
       dest_dir (snd (main (mkWorld (Some degenerate_entries) None []))) = Some files
       /\ dest_dir (snd (main (mkWorld (Some corrected_entries) None []))) = Some files'
       /\ files_clamped files files'.
Proof.
  apply (proj2 (proj2 (proj2 (proj2 (proj2 degenerate_stack_size_is_one))))
           (mkWorld (Some degenerate_entries) None [])
           (mkWorld (Some corrected_entries) None [])
           degenerate_entries corrected_entries).
  - reflexivity.
  - reflexivity.
  - repeat constructor.
    + apply (clamped_one [("id", JStr "A"); ("stackSize", JInt 0)] (JInt 0));
        reflexivity.
    + apply (clamped_one [("id", JStr "X"); ("recipe", JDict [("A", JInt 4)]);
                          ("stackSize", JInt (-3))] (JInt (-3)));
        reflexivity.
  - reflexivity.
  - reflexivity.
Defined.

(** * Further properties *)

(** ** What [calculate_savings] can raise, and what it reads *)

Lemma py_truediv_errors (quantity divisor : json) (e : exn) :
  py_truediv quantity divisor = Raise e ->
  e = TypeError \/ e = ZeroDivisionError \/ e = OverflowError.
Proof.
  unfold py_truediv.
  destruct (num_of quantity) as [[a|f]|], (num_of divisor) as [[b|g]|];
    simpl; try (intros H; inversion H; auto).
  - unfold int_truediv in *. destruct (b =? 0); [inversion H; auto|].
    destruct (is_infinite _); inversion H; auto.
  - revert H. unfold float_truediv, to_float, int_to_float.
    destruct (is_infinite _); simpl; [intros H; inversion H; auto|].
    destruct (SFeqb g fzero); intros H; inversion H; auto.
  - revert H. unfold float_truediv, to_float, int_to_float. simpl.
    destruct (is_infinite _); simpl; [intros H; inversion H; auto|].
    destruct (SFeqb _ fzero); intros H; inversion H; auto.
  - revert H. unfold float_truediv. simpl.
    destruct (SFeqb g fzero); intros H; inversion H; auto.
Qed.

Lemma clamp_stack_size_errors (stack_size : json) (e : exn) :
  clamp_stack_size stack_size = Raise e -> e = TypeError.
Proof.
  unfold clamp_stack_size, py_le_zero.
  destruct (num_of stack_size) as [[|]|]; simpl; intros H; inversion H; reflexivity.
Qed.

Lemma effective_errors (record : json) (e : exn) :
  Spec.effectiveStackSize record = Raise e -> e = TypeError \/ e = AttributeError.
Proof.
  rewrite <- clamp_effective.
  destruct (py_get record "stackSize" (JInt 1)) as [size|e'] eqn:Hget; simpl.
  - intros H. left. exact (clamp_stack_size_errors _ _ H).
  - intros H. inversion H; subst. right.
    destruct record; simpl in Hget; inversion Hget; reflexivity.
Qed.

Lemma divide_by_clamped_errors (quantity size : json) (e : exn) :
  py_le_zero size = Ok false ->
  py_truediv quantity size = Raise e ->
  calculation_error e = true.
Proof.
  intros Hpos Hdiv.
  pose proof (py_truediv_positive quantity size Hpos) as Hnz.
  destruct (py_truediv_errors _ _ _ Hdiv) as [-> | [-> | ->]];
    [reflexivity | congruence | reflexivity].
Qed.

Lemma ingredient_loop_errors (items_map : catalog) :
  forall (pairs : list (string * json)) (acc : pyfloat) (e : exn),
    ingredient_loop items_map pairs acc = Raise e -> calculation_error e = true.
Proof.
  induction pairs as [|[k q] rest IH]; intros acc e; [discriminate|].
  rewrite ingredient_loop_step.
  destruct (catalog_get (JStr k) items_map) as [ingredient|]; [|discriminate].
  destruct (Spec.effectiveStackSize ingredient) as [size|e'] eqn:Hsize; simpl.
  - destruct (py_truediv q size) as [term|e'] eqn:Hdiv; simpl.
    + apply IH.
    + intros H. inversion H; subst.
      exact (divide_by_clamped_errors q size e (effective_positive _ _ Hsize) Hdiv).
  - intros H. inversion H; subst.
    destruct (effective_errors _ _ Hsize) as [-> | ->]; reflexivity.
Qed.

(** X1.  Whatever the item and the catalog, an exception that leaves
    [calculate_savings] is a [TypeError], an [AttributeError] or an
    [OverflowError]: the membership tests of lines 30 and 40 rule out
    [KeyError], and the clamp rules out [ZeroDivisionError]. *)
Theorem calculate_savings_errors :
  forall (item : json) (items_map : catalog) (e : exn),
    calculate_savings item items_map = Raise e ->
    calculation_error e = true.
Proof.
  intros item items_map e. unfold calculate_savings.
  destruct item as [| | | |s|l|d]; simpl;
    try (intros H; inversion H; reflexivity).
  - destruct (str_contains "recipe" s); simpl; intros H; inversion H; reflexivity.
  - destruct (existsb (eq_str "recipe") l); simpl; intros H; inversion H; reflexivity.
  - unfold dict_mem.
    destruct (dict_get "recipe" d) as [recipe|]; simpl; [|discriminate].
    destruct (py_truthy recipe); simpl; [|discriminate].
    destruct (py_items recipe) as [pairs|e'] eqn:Hitems; simpl.
    + destruct (ingredient_loop items_map pairs fzero) as [[acc|]|e'] eqn:Hloop;
        simpl; [|discriminate|].
      * destruct (clamp_stack_size (dict_get_default "stackSize" (JInt 1) d))
          as [size|e'] eqn:Hsize; simpl.
        -- destruct (py_truediv (dict_get_default "craftQuantity" (JInt 1) d) size)
             as [target|e'] eqn:Hdiv; simpl; [discriminate|].
           intros H. inversion H; subst.
           exact (divide_by_clamped_errors _ size e
                    (clamp_stack_size_positive _ _ Hsize) Hdiv).
        -- intros H. inversion H; subst.
           rewrite (clamp_stack_size_errors _ _ Hsize). reflexivity.
      * intros H. inversion H; subst.
        exact (ingredient_loop_errors items_map pairs fzero e Hloop).
    + intros H. inversion H; subst.
      destruct recipe; simpl in Hitems; inversion Hitems; reflexivity.
Qed.

Lemma calculate_savings_errors_witness :
  calculation_error AttributeError = true.
Proof.
  apply (calculate_savings_errors
           (JDict [("id", JStr "B"); ("recipe", JList [JInt 1])]) [] AttributeError).
  reflexivity.
Defined.

(** X2.  [calculate_savings] reads three fields of the item and no other:
    [recipe], [craftQuantity] and [stackSize].  Setting any other field, to
    any value, leaves its result (or its exception) unchanged; in
    particular a [stashSavings] already on the record does not feed back
    into the calculation. *)
Theorem calculate_savings_ignores_other_fields :
  forall (d : dict) (k : string) (v : json) (items_map : catalog),
    k <> "recipe" -> k <> "craftQuantity" -> k <> "stackSize" ->
    calculate_savings (JDict (dict_set k v d)) items_map
    = calculate_savings (JDict d) items_map.
Proof.
  intros d k v items_map Hr Hc Hs.
  unfold calculate_savings, py_contains, py_getitem, py_get, dict_get_default.
  rewrite dict_mem_set_other by congruence.
  rewrite !dict_get_set_other by congruence.
  reflexivity.
Qed.

Lemma calculate_savings_ignores_other_fields_witness :
  calculate_savings
    (JDict (dict_set "stashSavings" (JInt 99) example_item)) example_catalog
  = calculate_savings (JDict example_item) example_catalog.
Proof.
  apply (calculate_savings_ignores_other_fields example_item "stashSavings"
           (JInt 99) example_catalog); discriminate.
Defined.

Lemma ingredient_loop_same_stack (m m' : catalog) :
  forall (pairs : list (string * json)) (acc : pyfloat),
    (forall k q, In (k, q) pairs ->
                 same_stack_size (catalog_get (JStr k) m) (catalog_get (JStr k) m')) ->
    ingredient_loop m' pairs acc = ingredient_loop m pairs acc.
Proof.
  induction pairs as [|[k q] rest IH]; intros acc Hsame; [reflexivity|].
  rewrite !ingredient_loop_step.
  pose proof (Hsame k q (or_introl eq_refl)) as Hk. unfold same_stack_size in Hk.
  destruct (catalog_get (JStr k) m) as [r|], (catalog_get (JStr k) m') as [r'|];
    try contradiction; [|reflexivity].
  rewrite <- !clamp_effective, Hk.
  destruct (py_get r "stackSize" (JInt 1)) as [size0|e]; simpl; [|reflexivity].
  destruct (clamp_stack_size size0) as [size|e]; simpl; [|reflexivity].
  destruct (py_truediv q size); simpl; [|reflexivity].
  apply IH. intros k' q' Hin. apply (Hsame k' q'). right. exact Hin.
Qed.

(** X3.  Of the catalog, [calculate_savings] uses only the records found
    under the ingredient ids of the recipe, and of each such record only
    its [stackSize]: two catalogs that, for every id of the recipe, both
    lack it or both hold a record with the same [stackSize] (read with
    default 1) give the same result. *)
Theorem calculate_savings_catalog_use :
  forall (item : dict) (recipe : list (string * json)) (m m' : catalog),
    dict_get "recipe" item = Some (JDict recipe) ->
    (forall k q, In (k, q) recipe ->
                 same_stack_size (catalog_get (JStr k) m) (catalog_get (JStr k) m')) ->
    calculate_savings (JDict item) m' = calculate_savings (JDict item) m.
Proof.
  intros item recipe m m' Hrecipe Hsame.
  unfold calculate_savings, py_contains, py_getitem, dict_mem.
  rewrite Hrecipe. cbn [rbind negb py_items].
  destruct (py_truthy (JDict recipe)); cbn [negb]; [|reflexivity].
  rewrite (ingredient_loop_same_stack m m' recipe fzero Hsame). reflexivity.
Qed.

Lemma calculate_savings_catalog_use_witness :
  calculate_savings (JDict example_item)
    [(JStr "unused", JNull);
     (JStr "A", JDict [("stackSize", JInt 8); ("name", JStr "alloy")])]
  = calculate_savings (JDict example_item) example_catalog.
Proof.
  apply (calculate_savings_catalog_use example_item [("A", JInt 4)]).
  - reflexivity.
  - intros k q [H|[]]. inversion H. reflexivity.
Defined.

(** Lookup in two catalogs with the same keys and related records. *)
Lemma catalog_get_Forall2 (R : json -> json -> Prop) (k : json) (m m' : catalog) :
  Forall2 (fun e e' => fst e' = fst e /\ R (snd e) (snd e')) m m' ->
  match catalog_get k m, catalog_get k m' with
  | Some r, Some r' => R r r'
  | None, None => True
  | _, _ => False
  end.
Proof.
  induction 1 as [|[k0 r] [k0' r'] rest rest' [Hk Hr] _ IH]; simpl; [exact I|].
  simpl in Hk, Hr. subst k0'.
  destruct (py_key_eqb k0 k); [exact Hr | exact IH].
Qed.

Lemma Forall2_same {A} (R : A -> A -> Prop) (l : list A) :
  (forall a, R a a) -> Forall2 R l l.
Proof. intros H. induction l; constructor; auto. Qed.

(** X4.  The defaults of lines 47, 55 and 56.  An item without
    [craftQuantity] is calculated as with [craftQuantity: 1]; an item
    without [stackSize] as with [stackSize: 1]; and an ingredient whose
    catalog record has no [stackSize] as one whose record has
    [stackSize: 1]. *)
Theorem absent_fields_default_to_one :
  (forall (d : dict) (items_map : catalog),
      dict_get "craftQuantity" d = None ->
      calculate_savings (JDict (dict_set "craftQuantity" (JInt 1) d)) items_map
      = calculate_savings (JDict d) items_map)
  /\ (forall (d : dict) (items_map : catalog),
        dict_get "stackSize" d = None ->
        calculate_savings (JDict (dict_set "stackSize" (JInt 1) d)) items_map
        = calculate_savings (JDict d) items_map)
  /\ (forall (item : dict) (recipe : list (string * json))
             (earlier later : catalog) (k : json) (d : dict),
        dict_get "recipe" item = Some (JDict recipe) ->
        dict_get "stackSize" d = None ->
        calculate_savings (JDict item)
          (earlier ++ (k, JDict (dict_set "stackSize" (JInt 1) d)) :: later)
        = calculate_savings (JDict item) (earlier ++ (k, JDict d) :: later)).
Proof.
  repeat apply conj.
  - intros d items_map Habsent.
    unfold calculate_savings, py_contains, py_getitem, py_get, dict_get_default.
    rewrite dict_mem_set_other by discriminate.
    rewrite (dict_get_set_other "recipe"), (dict_get_set_other "stackSize")
      by discriminate.
    rewrite dict_get_set_same, Habsent. reflexivity.
  - intros d items_map Habsent.
    unfold calculate_savings, py_contains, py_getitem, py_get, dict_get_default.
    rewrite dict_mem_set_other by discriminate.
    rewrite (dict_get_set_other "recipe"), (dict_get_set_other "craftQuantity")
      by discriminate.
    rewrite dict_get_set_same, Habsent. reflexivity.
  - intros item recipe earlier later k d Hrecipe Habsent.
    apply (calculate_savings_catalog_use item recipe); [exact Hrecipe|].
    intros k0 q0 _.
    pose proof (catalog_get_Forall2
                  (fun r r' => py_get r' "stackSize" (JInt 1)
                               = py_get r "stackSize" (JInt 1))
                  (JStr k0)
                  (earlier ++ (k, JDict d) :: later)
                  (earlier ++ (k, JDict (dict_set "stackSize" (JInt 1) d)) :: later))
      as Hget.
    unfold same_stack_size.
    destruct (catalog_get (JStr k0) (earlier ++ (k, JDict d) :: later)),
             (catalog_get (JStr k0)
                (earlier ++ (k, JDict (dict_set "stackSize" (JInt 1) d)) :: later));
      apply Hget;
      (apply Forall2_app;
       [apply Forall2_same; intros a; split; reflexivity|];
       constructor; [|apply Forall2_same; intros a; split; reflexivity];
       split; [reflexivity|]; simpl; unfold dict_get_default;
       rewrite dict_get_set_same, Habsent; reflexivity).
Qed.

Lemma absent_fields_default_to_one_witness :
  calculate_savings
    (JDict (dict_set "craftQuantity" (JInt 1)
              [("id", JStr "X"); ("recipe", JDict [("A", JInt 4)])]))
    example_catalog
  = calculate_savings
      (JDict [("id", JStr "X"); ("recipe", JDict [("A", JInt 4)])])
      example_catalog.
Proof.
  apply (proj1 absent_fields_default_to_one
           [("id", JStr "X"); ("recipe", JDict [("A", JInt 4)])] example_catalog).
  reflexivity.
Defined.

(** ** What [main] publishes *)

(** X5.  When the calculation yields a number for a record that has an
    [id], the published record is the source record with [stashSavings]
    assigned that number: a value the source already held under that name
    is overwritten in place, and a new field goes last. *)
Theorem computed_savings_are_published :
  forall (w : world) (entries : list (string * read_outcome)) (filename : string)
         (d : dict) (s : pyfloat) (items_map : catalog)
         (files : list (string * json)) (data' : json),
    source_dir w = Some entries ->
    NoDup (map fst entries) ->
    In (filename, Parsed (JDict d)) entries ->
    dict_mem "id" d = true ->
    fst (load_items w) = Ok items_map ->
    calculate_savings (JDict d) items_map = Ok (Some s) ->
    dest_dir (snd (main w)) = Some files ->
    In (filename, data') files ->
    data' = JDict (dict_set "stashSavings" (JFloat s) d)
    /\ py_getitem data' "stashSavings" = Ok (JFloat s).
Proof.
  intros w entries filename d s items_map files data'
         Hsrc Hnd Hin Hid Hload Hcalc Hdest Hfile.
  destruct (main_dest_of_entry w entries filename (JDict d) data' files
              Hsrc Hnd Hin Hdest Hfile) as (items_map0 & set & Hload0 & Haug).
  rewrite Hload in Hload0. inversion Hload0; subst items_map0.
  unfold augment in Haug. simpl in Haug. rewrite Hid in Haug. simpl in Haug.
  rewrite Hcalc in Haug. simpl in Haug. inversion Haug; subst.
  split; [reflexivity|]. simpl. rewrite dict_get_set_same. reflexivity.
Qed.

Lemma computed_savings_are_published_witness :
  JDict (dict_set "stashSavings" (JFloat (Prim2SF (-0.5)%float)) example_item)
  = JDict (dict_set "stashSavings" (JFloat (Prim2SF (-0.5)%float)) example_item)
  /\ py_getitem
       (JDict (dict_set "stashSavings" (JFloat (Prim2SF (-0.5)%float)) example_item))
       "stashSavings"
     = Ok (JFloat (Prim2SF (-0.5)%float)).
Proof.
  apply (computed_savings_are_published example_world example_entries "x.json"
           example_item (Prim2SF (-0.5)%float) example_loaded example_published).
  - reflexivity.
  - exact example_entries_NoDup.
  - right. left. reflexivity.
  - reflexivity.
  - exact (proj1 example_run).
  - vm_compute. reflexivity.
  - exact (proj2 (proj2 example_run)).
  - right. left. reflexivity.
Defined.

(** X6.  A parsed value in which the test ['id' in data] is false (a
    record without an [id], but also a list or a string that does not
    contain it) is never handed to [calculate_savings]: whatever recipe it
    carries, it is published exactly as it was read. *)
Theorem record_without_id_published_verbatim :
  forall (w : world) (entries : list (string * read_outcome)) (filename : string)
         (data data' : json) (files : list (string * json)),
    source_dir w = Some entries ->
    NoDup (map fst entries) ->
    In (filename, Parsed data) entries ->
    py_contains "id" data = Ok false ->
    dest_dir (snd (main w)) = Some files ->
    In (filename, data') files ->
    data' = data.
Proof.
  intros w entries filename data data' files Hsrc Hnd Hin Hid Hdest Hfile.
  destruct (main_dest_of_entry w entries filename data data' files
              Hsrc Hnd Hin Hdest Hfile) as (items_map & set & _ & Haug).
  unfold augment in Haug. rewrite Hid in Haug. simpl in Haug.
  inversion Haug. reflexivity.
Qed.

Lemma record_without_id_published_verbatim_witness :
  JDict [("recipe", JDict [("A", JInt 4)])] = JDict [("recipe", JDict [("A", JInt 4)])].
Proof.
  apply (record_without_id_published_verbatim anonymous_world anonymous_entries
           "n.json" (JDict [("recipe", JDict [("A", JInt 4)])])
           (JDict [("recipe", JDict [("A", JInt 4)])])
           [("a.json", JDict record_A);
            ("n.json", JDict [("recipe", JDict [("A", JInt 4)])])]).
  - reflexivity.
  - repeat constructor; simpl; intuition discriminate.
  - right. left. reflexivity.
  - reflexivity.
  - vm_compute. reflexivity.
  - right. left. reflexivity.
Defined.

(** X7.  What a run returns and what it leaves in [DEST_DIR] depend on
    [SOURCE_DIR] alone, not on what [DEST_DIR] held nor on what was printed
    before; and a run does not touch [SOURCE_DIR].  Hence running [main]
    again right after a run returns the same result and leaves the same
    files. *)
Theorem main_is_idempotent :
  (forall (w w' : world),
      source_dir w' = source_dir w ->
      fst (main w') = fst (main w)
      /\ dest_dir (snd (main w')) = dest_dir (snd (main w)))
  /\ (forall (w : world),
        source_dir (snd (main w)) = source_dir w
        /\ fst (main (snd (main w))) = fst (main w)
        /\ dest_dir (snd (main (snd (main w)))) = dest_dir (snd (main w))).
Proof.
  assert (Hsame : forall w w' : world,
             source_dir w' = source_dir w ->
             fst (main w') = fst (main w)
             /\ dest_dir (snd (main w')) = dest_dir (snd (main w))).
  { intros w w' Hsrc. rewrite !main_eq. cbn [fst snd dest_dir].
    unfold main_run.
    assert (Hp : fst (pipeline_run w') = fst (pipeline_run w)).
    { unfold pipeline_run.
      destruct (load_items_run_source w w' Hsrc) as [Hl Hm]. rewrite Hl, Hm.
      reflexivity. }
    destruct (pipeline_run w') as [[r' written'] events'],
             (pipeline_run w) as [[r written] events].
    simpl in *. inversion Hp. split; reflexivity. }
  split; [exact Hsame|].
  intros w.
  assert (Hsrc : source_dir (snd (main w)) = source_dir w)
    by (rewrite main_eq; reflexivity).
  split; [exact Hsrc|]. apply Hsame. exact Hsrc.
Qed.

Lemma main_is_idempotent_witness :
  fst (main (mkWorld (Some example_entries) None [])) = fst (main example_world)
  /\ dest_dir (snd (main (mkWorld (Some example_entries) None [])))
     = dest_dir (snd (main example_world)).
Proof.
  apply (proj1 main_is_idempotent example_world (mkWorld (Some example_entries) None [])).
  reflexivity.
Defined.

(** X8.  The only files a run opens for writing are those named after a
    matched source file that parsed in this run: a file that could not be
    read or decoded, and a name that is not in the listing, is never
    written.  So the destination of a run that returns normally holds
    nothing stale: every file in it carries the name of a matched source
    file that parsed in this run. *)
Theorem writes_only_parsed_files :
  forall (w : world),
    (exists events,
        trace (snd (main w)) = trace w ++ events
        /\ forall filename,
             In (EvOpenWrite filename) events ->
             exists data, In (filename, Parsed data) (matched w))
    /\ (fst (main w) = Ok tt ->
        exists files,
          dest_dir (snd (main w)) = Some files
          /\ forall filename data',
               In (filename, data') files ->
               exists data, In (filename, Parsed data) (matched w)).
Proof.
  intros w. split.
  - rewrite main_eq. cbn [snd trace]. eexists. split; [reflexivity|].
    intros filename Hin. exact (main_run_written w filename Hin).
  - intros _.
    assert (Hex : exists files, dest_dir (snd (main w)) = Some files)
      by (rewrite main_eq; eexists; reflexivity).
    destruct Hex as [files Hdest]. exists files. split; [exact Hdest|].
    intros filename data' Hin.
    destruct (main_dest_sound w files filename data' Hdest Hin)
      as (items_map & data & set & _ & Hm & _).
    exists data. exact Hm.
Qed.

Lemma writes_only_parsed_files_witness :
  exists files,
    dest_dir (snd (main example_world)) = Some files
    /\ forall filename data',
         In (filename, data') files ->
         exists data, In (filename, Parsed data) (matched example_world).
Proof.
  apply (proj2 (writes_only_parsed_files example_world)).
  exact (proj1 (proj2 example_run)).
Defined.

(** ** The counters and the set of published files *)

Lemma publish_run_counts (items_map : catalog) :
  forall (files : list (string * read_outcome)) (processed calculated : nat)
         (counts : nat * nat),
    pub_result (publish_run items_map files processed calculated) = Ok counts ->
    fst counts
    = (processed
       + List.length (pub_writes (publish_run items_map files processed calculated)))%nat
    /\ snd counts
       = (calculated + List.length (filter (savings_set items_map) files))%nat
    /\ map fst (pub_writes (publish_run items_map files processed calculated))
       = parsed_names files.
Proof.
  induction files as [|[n outcome] rest IH]; intros processed calculated counts.
  - simpl. intros H. inversion H. simpl. repeat split; lia.
  - cbn [publish_run filter]. destruct outcome as [e|data].
    + cbn [pub_result pub_writes]. intros H.
      destruct (IH _ _ _ H) as (H1 & H2 & H3).
      assert (Hs : savings_set items_map (n, Raises e) = false) by reflexivity.
      rewrite Hs. repeat split; assumption.
    + destruct (augment data items_map) as [augmented|e] eqn:Haug; [|discriminate].
      cbn [pub_result pub_writes]. intros H.
      destruct (IH _ _ _ H) as (H1 & H2 & H3).
      assert (Hs : savings_set items_map (n, Parsed data) = snd augmented)
        by (unfold savings_set; simpl; rewrite Haug; reflexivity).
      rewrite Hs. repeat split.
      * rewrite H1. simpl. lia.
      * rewrite H2. destruct (snd augmented); simpl; lia.
      * unfold parsed_names in *. simpl. f_equal. exact H3.
Qed.

Lemma file_set_fresh (filename : string) (data : json) (files : list (string * json)) :
  ~ In filename (map fst files) ->
  file_set filename data files = files ++ [(filename, data)].
Proof.
  induction files as [|[n d] rest IH]; simpl; [reflexivity|].
  intros Hnin. destruct (String.eqb n filename) eqn:E.
  - apply String.eqb_eq in E. exfalso. apply Hnin. left. exact E.
  - rewrite IH; [reflexivity|]. intros H. apply Hnin. right. exact H.
Qed.

Lemma write_all_fresh :
  forall (writes present : list (string * json)),
    NoDup (map fst (present ++ writes)) ->
    write_all writes present = present ++ writes.
Proof.
  induction writes as [|[n d] rest IH]; intros present Hnd; simpl.
  - rewrite app_nil_r. reflexivity.
  - rewrite map_app in Hnd. simpl in Hnd.
    pose proof (NoDup_remove_2 _ _ _ Hnd) as Hfresh.
    rewrite file_set_fresh
      by (intros H; apply Hfresh; apply in_or_app; left; exact H).
    rewrite IH; [rewrite <- app_assoc; reflexivity|].
    rewrite <- app_assoc. simpl. rewrite map_app. simpl. exact Hnd.
Qed.

(** Selecting files from a listing keeps their names distinct. *)
Lemma selected_names_distinct (keep : string * read_outcome -> bool) :
  forall entries : list (string * read_outcome),
    NoDup (map fst entries) -> NoDup (map fst (filter keep entries)).
Proof.
  induction entries as [|a rest IH]; simpl; [constructor|].
  intros Hnd. inversion Hnd as [|? ? Hnin Hrest]; subst.
  destruct (keep a); simpl; [|exact (IH Hrest)].
  constructor; [|exact (IH Hrest)].
  intros Hin. apply Hnin. apply in_map_iff in Hin.
  destruct Hin as (x & Hx & Hin). apply filter_In in Hin.
  apply in_map_iff. exists x. split; [exact Hx | exact (proj1 Hin)].
Qed.

Lemma filter_savings_set_le (items_map : catalog) (files : list (string * read_outcome)) :
  (List.length (filter (savings_set items_map) files)
   <= List.length (parsed_names files))%nat.
Proof.
  unfold parsed_names. rewrite length_map.
  induction files as [|[n outcome] rest IH]; [simpl; lia|].
  cbn [filter].
  destruct outcome as [e|data].
  - assert (Hs : savings_set items_map (n, Raises e) = false) by reflexivity.
    assert (Hp : is_parsed (n, Raises e) = false) by reflexivity.
    rewrite Hs, Hp. exact IH.
  - assert (Hp : is_parsed (n, Parsed data) = true) by reflexivity.
    rewrite Hp. destruct (savings_set items_map (n, Parsed data)); simpl; lia.
Qed.

(** X9.  A run that returns normally with a non-empty catalog leaves in
    [DEST_DIR] one file for each matched source file that parsed, under the
    same name and in the order of the listing, and ends by printing the two
    counters: the number of files written, and the number of those on
    which a savings value was set, which never exceeds the first. *)
Theorem published_files_and_counters :
  forall (w : world) (entries : list (string * read_outcome)) (items_map : catalog),
    source_dir w = Some entries ->
    NoDup (map fst entries) ->
    fst (main w) = Ok tt ->
    fst (load_items w) = Ok items_map ->
    items_map <> [] ->
    exists files events,
      dest_dir (snd (main w)) = Some files
      /\ map fst files = parsed_names (matched w)
      /\ trace (snd (main w))
         = trace w ++ events
           ++ [EvPrint (MsgProcessed
                          (List.length files)
                          (List.length (filter (savings_set items_map) (matched w))));
               EvPrint MsgOutputSaved]
      /\ (List.length (filter (savings_set items_map) (matched w))
          <= List.length files)%nat.
Proof.
  intros w entries items_map Hsrc Hnd Hok Hload Hne.
  rewrite load_items_fst in Hload. rewrite main_eq in *. cbn [fst snd dest_dir trace] in *.
  unfold main_run, pipeline_run in *. rewrite Hload in *.
  destruct items_map as [|entry more]; [congruence|]. cbn [fst snd] in *.
  destruct (pub_result (publish_run (entry :: more) (matched w) 0 0))
    as [counts|e] eqn:Hres; cbn [fst snd] in *; [|discriminate].
  destruct (publish_run_counts _ _ _ _ _ Hres) as (Hp & Hc & Hnames).
  assert (Hfresh : write_all (pub_writes (publish_run (entry :: more) (matched w) 0 0)) []
                   = pub_writes (publish_run (entry :: more) (matched w) 0 0)).
  { rewrite write_all_fresh; [reflexivity|]. simpl. rewrite Hnames.
    unfold parsed_names, matched. rewrite Hsrc.
    apply selected_names_distinct, selected_names_distinct. exact Hnd. }
  rewrite Hfresh. eexists. eexists. split; [reflexivity|].
  split; [exact Hnames|].
  assert (Hlen : List.length (pub_writes (publish_run (entry :: more) (matched w) 0 0))
                 = List.length (parsed_names (matched w)))
    by (rewrite <- Hnames, length_map; reflexivity).
  split.
  - rewrite Hp, Hc. cbn [Nat.add].
    rewrite (app_assoc (reset_events w)). reflexivity.
  - rewrite Hlen. apply filter_savings_set_le.
Qed.

Lemma published_files_and_counters_witness :
  exists files events,
    dest_dir (snd (main example_world)) = Some files
    /\ map fst files = parsed_names (matched example_world)
    /\ trace (snd (main example_world))
       = trace example_world ++ events
         ++ [EvPrint (MsgProcessed
                        (List.length files)
                        (List.length (filter (savings_set example_loaded)
                                        (matched example_world))));
             EvPrint MsgOutputSaved]
    /\ (List.length (filter (savings_set example_loaded) (matched example_world))
        <= List.length files)%nat.
Proof.
  apply (published_files_and_counters example_world example_entries example_loaded).
  - reflexivity.
  - exact example_entries_NoDup.
  - exact (proj1 (proj2 example_run)).
  - exact (proj1 example_run).
  - discriminate.
Defined.

(** ** Files on which the loader gives up *)

Lemma insert_all_app (r1 r2 : list (string * json)) (items : catalog) :
  insert_all (r1 ++ r2) items = insert_all r2 (insert_all r1 items).
Proof. unfold insert_all. apply fold_left_app. Qed.

(** The loader's loop on a prefix of digestible files, then the rest. *)
Lemma load_run_app :
  forall (before rest : list (string * read_outcome)) (items : catalog),
    Forall (fun entry => record_file entry = true) before ->
    load_run (before ++ rest) items
    = (fst (load_run rest (insert_all (id_records before) items)),
       flat_map load_events before
       ++ snd (load_run rest (insert_all (id_records before) items))).
Proof.
  induction before as [|[n outcome] more IH]; intros rest items Hwf.
  - simpl. destruct (load_run rest items). reflexivity.
  - inversion Hwf as [|? ? Hhead Htail]; subst.
    unfold record_file in Hhead. cbn [snd] in Hhead.
    cbn [app load_run id_records flat_map].
    destruct outcome as [[|e]|data]; try discriminate.
    + rewrite (IH rest items Htail). reflexivity.
    + destruct data; try discriminate.
      cbn [py_contains py_getitem]. unfold dict_mem.
      unfold load_events. cbn [fst snd py_contains]. unfold dict_mem.
      destruct (dict_get "id" d) as [[]|] eqn:Hid; try discriminate.
      * cbn [rbind catalog_setitem py_hashable].
        rewrite (IH rest _ Htail). reflexivity.
      * rewrite (IH rest items Htail). reflexivity.
Qed.

(** When [load_items] raises, so does [main], with nothing published. *)
Lemma main_loader_raises (w : world) (e : exn) :
  fst (load_items w) = Raise e ->
  fst (main w) = Raise e
  /\ dest_dir (snd (main w)) = Some []
  /\ exists events,
       trace (snd (main w)) = trace w ++ events
       /\ Forall (fun ev => is_write ev = false) events.
Proof.
  rewrite load_items_fst. intros Hload.
  rewrite main_eq. cbn [fst snd dest_dir trace].
  unfold main_run, pipeline_run. rewrite Hload. cbn [fst snd].
  repeat split. eexists. split; [reflexivity|].
  apply Forall_app. split.
  - unfold reset_events. destruct (dest_dir w); repeat constructor.
  - constructor; [reflexivity | apply load_items_run_no_write].
Qed.

Lemma load_items_stops_at (w : world) (before after : list (string * read_outcome))
    (entry : string * read_outcome) (e : exn) :
  matched w = before ++ entry :: after ->
  Forall (fun entry => record_file entry = true) before ->
  (forall items, fst (load_run (entry :: after) items) = Raise e) ->
  fst (load_items w) = Raise e.
Proof.
  intros Hm Hwf Hstop. rewrite load_items_fst. unfold load_items_run.
  destruct (source_dir w) eqn:Hsrc.
  - rewrite Hm, (load_run_app before (entry :: after) [] Hwf). cbn [fst].
    apply Hstop.
  - unfold matched in Hm. rewrite Hsrc in Hm. destruct before; discriminate.
Qed.

(** X10.  In the loader only [JSONDecodeError] is caught.  A matched file
    whose opening or reading raises anything else (it cannot be opened, it
    is not UTF-8) ends [load_items] with that exception, and [main] with
    it: the run stops after the reset, with [DEST_DIR] empty and no file
    opened for writing, even though the files before it were fine. *)
Theorem unreadable_file_aborts_loading :
  forall (w : world) (before after : list (string * read_outcome))
         (filename : string) (e : exn),
    matched w = before ++ (filename, Raises (Other e)) :: after ->
    Forall (fun entry => record_file entry = true) before ->
    fst (load_items w) = Raise e
    /\ fst (main w) = Raise e
    /\ dest_dir (snd (main w)) = Some []
    /\ exists events,
         trace (snd (main w)) = trace w ++ events
         /\ Forall (fun ev => is_write ev = false) events.
Proof.
  intros w before after filename e Hm Hwf.
  assert (Hload : fst (load_items w) = Raise e).
  { apply (load_items_stops_at w before after (filename, Raises (Other e)) e Hm Hwf).
    intros items. reflexivity. }
  split; [exact Hload | exact (main_loader_raises w e Hload)].
Qed.

Lemma unreadable_file_aborts_loading_witness :
  fst (load_items unreadable_world) = Raise OSError
  /\ fst (main unreadable_world) = Raise OSError
  /\ dest_dir (snd (main unreadable_world)) = Some []
  /\ exists events,
       trace (snd (main unreadable_world)) = trace unreadable_world ++ events
       /\ Forall (fun ev => is_write ev = false) events.
Proof.
  apply (unreadable_file_aborts_loading unreadable_world
           [("a.json", Parsed (JDict record_A))]
           [("x.json", Parsed (JDict example_item))] "locked.json" OSError).
  - reflexivity.
  - repeat constructor.
Defined.

(** X11.  The publishing loop catches every exception of the read: on a
    file list that contains a file whose opening or reading raises,
    whatever the exception, [publish_loop] returns the counters and leaves
    the destination that it would without that file. *)
Theorem publisher_skips_any_read_error :
  forall (items_map : catalog) (before after : list (string * read_outcome))
         (filename : string) (e : exception) (processed calculated : nat)
         (w : world) (present : list (string * json)),
    dest_dir w = Some present ->
    fst (publish_loop items_map (before ++ (filename, Raises e) :: after)
           processed calculated w)
    = fst (publish_loop items_map (before ++ after) processed calculated w)
    /\ dest_dir (snd (publish_loop items_map
                        (before ++ (filename, Raises e) :: after)
                        processed calculated w))
       = dest_dir (snd (publish_loop items_map (before ++ after)
                          processed calculated w)).
Proof.
  intros items_map before after filename e processed calculated w present Hdest.
  rewrite !(publish_loop_run items_map _ _ _ w present Hdest).
  destruct (publish_run_skip items_map filename e after before processed calculated)
    as [Hr Hw].
  cbv zeta in *. cbn [fst snd dest_dir]. rewrite Hr, Hw. split; reflexivity.
Qed.

Lemma publisher_skips_any_read_error_witness :
  fst (publish_loop example_loaded
         ([("a.json", Parsed (JDict record_A))]
          ++ ("locked.json", Raises (Other UnicodeDecodeError))
             :: [("x.json", Parsed (JDict example_item))])
         0 0 (mkWorld None (Some []) []))
  = fst (publish_loop example_loaded
           ([("a.json", Parsed (JDict record_A))]
            ++ [("x.json", Parsed (JDict example_item))])
           0 0 (mkWorld None (Some []) []))
  /\ dest_dir (snd (publish_loop example_loaded
                      ([("a.json", Parsed (JDict record_A))]
                       ++ ("locked.json", Raises (Other UnicodeDecodeError))
                          :: [("x.json", Parsed (JDict example_item))])
                      0 0 (mkWorld None (Some []) [])))
     = dest_dir (snd (publish_loop example_loaded
                        ([("a.json", Parsed (JDict record_A))]
                         ++ [("x.json", Parsed (JDict example_item))])
                        0 0 (mkWorld None (Some []) []))).
Proof.
  apply (publisher_skips_any_read_error example_loaded
           [("a.json", Parsed (JDict record_A))]
           [("x.json", Parsed (JDict example_item))]
           "locked.json" (Other UnicodeDecodeError) 0%nat 0%nat
           (mkWorld None (Some []) []) []).
  reflexivity.
Defined.

(** X12.  A matched file that parses to something the loader cannot file
    (a number, [true], [null]; a list or string containing ["id"]; a
    record whose [id] is a list or an object) makes lines 21-22 raise
    [TypeError], which the [except] clause does not catch: [load_items] and
    [main] end with it, [DEST_DIR] stays empty. *)
Theorem non_record_aborts_loading :
  forall (w : world) (before after : list (string * read_outcome))
         (filename : string) (data : json),
    matched w = before ++ (filename, Parsed data) :: after ->
    Forall (fun entry => record_file entry = true) before ->
    not_a_record data = true ->
    fst (load_items w) = Raise TypeError
    /\ fst (main w) = Raise TypeError
    /\ dest_dir (snd (main w)) = Some [].
Proof.
  intros w before after filename data Hm Hwf Hbad.
  assert (Hload : fst (load_items w) = Raise TypeError).
  { apply (load_items_stops_at w before after (filename, Parsed data) TypeError Hm Hwf).
    intros items. cbn [load_run].
    destruct data as [| | | |s|l|d]; simpl in *; try reflexivity.
    - rewrite Hbad. reflexivity.
    - rewrite Hbad. reflexivity.
    - unfold dict_mem. destruct (dict_get "id" d) as [id|]; [|discriminate].
      simpl. unfold catalog_setitem.
      destruct (py_hashable id); [discriminate | reflexivity]. }
  destruct (main_loader_raises w TypeError Hload) as (H1 & H2 & _).
  auto.
Qed.

Lemma non_record_aborts_loading_witness :
  fst (load_items scalar_world) = Raise TypeError
  /\ fst (main scalar_world) = Raise TypeError
  /\ dest_dir (snd (main scalar_world)) = Some [].
Proof.
  apply (non_record_aborts_loading scalar_world
           [("a.json", Parsed (JDict record_A))]
           [("x.json", Parsed (JDict example_item))] "count.json" (JInt 42)).
  - reflexivity.
  - repeat constructor.
  - reflexivity.
Defined.

(** ** Where the catalog comes from *)

Lemma In_catalog_insert (k v : json) (m : catalog) (entry : json * json) :
  In entry (catalog_insert k v m) ->
  In entry m
  \/ (snd entry = v /\ (fst entry = k \/ py_key_eqb (fst entry) k = true)).
Proof.
  induction m as [|[k0 v0] rest IH]; simpl.
  - intros [H|[]]. subst entry. right. simpl. auto.
  - destruct (py_key_eqb k0 k) eqn:E; simpl.
    + intros [H|H]; [|left; right; exact H].
      subst entry. right. simpl. auto.
    + intros [H|H]; [left; left; exact H|].
      destruct (IH H) as [H'|H']; [left; right; exact H' | right; exact H'].
Qed.

Lemma load_run_entries :
  forall (files : list (string * read_outcome)) (items items_map : catalog),
    fst (load_run files items) = Ok items_map ->
    forall entry,
      In entry items_map ->
      In entry items
      \/ exists filename d id,
           In (filename, Parsed (JDict d)) files
           /\ snd entry = JDict d
           /\ dict_get "id" d = Some id
           /\ (fst entry = id \/ py_key_eqb (fst entry) id = true).
Proof.
  induction files as [|[n outcome] rest IH]; intros items items_map.
  - simpl. intros H. inversion H; subst. auto.
  - cbn [load_run].
    assert (Hrest : forall items0,
               fst (load_run rest items0) = Ok items_map ->
               forall entry, In entry items_map ->
                 In entry items0
                 \/ exists filename d id,
                      In (filename, Parsed (JDict d)) ((n, outcome) :: rest)
                      /\ snd entry = JDict d
                      /\ dict_get "id" d = Some id
                      /\ (fst entry = id \/ py_key_eqb (fst entry) id = true)).
    { intros items0 H entry Hin.
      destruct (IH items0 items_map H entry Hin) as [H'|(f & d & id & H1 & H2)];
        [left; exact H'|].
      right. exists f, d, id. split; [right; exact H1 | exact H2]. }
    destruct outcome as [[|e]|data].
    + destruct (load_run rest items) as [r evs] eqn:Hrun. cbn [fst].
      intros H. apply Hrest. rewrite Hrun. exact H.
    + discriminate.
    + destruct (py_contains "id" data) as [[|]|e] eqn:Hc; [| |discriminate].
      * destruct (py_getitem data "id") as [id|e] eqn:Hg; simpl; [|discriminate].
        unfold catalog_setitem.
        destruct (py_hashable id); [|discriminate].
        destruct (load_run rest (catalog_insert id data items)) as [r evs] eqn:Hrun.
        cbn [fst]. intros H entry Hin.
        destruct (Hrest (catalog_insert id data items)
                    ltac:(rewrite Hrun; exact H) entry Hin) as [H'|H'];
          [|right; exact H'].
        apply In_catalog_insert in H'. destruct H' as [H'|[Hv Hk]]; [left; exact H'|].
        right. destruct data; simpl in Hg; try discriminate.
        destruct (dict_get "id" d) as [id0|] eqn:Hid; [|discriminate].
        inversion Hg; subst id0.
        exists n, d, id. split; [left; reflexivity|]. auto.
      * destruct (load_run rest items) as [r evs] eqn:Hrun. cbn [fst].
        intros H. apply Hrest. rewrite Hrun. exact H.
Qed.

(** X13.  Every entry of the catalog that [load_items] returns is a record
    parsed from a matched source file: a [dict] that has an [id], filed
    under that id (or under an earlier key that Python holds equal to it,
    when it overwrote an entry).  Records without an [id], and values that
    are not records, never become ingredients. *)
Theorem catalog_entries_are_source_records :
  forall (w : world) (items_map : catalog) (k r : json),
    fst (load_items w) = Ok items_map ->
    In (k, r) items_map ->
    exists filename d id,
      In (filename, Parsed (JDict d)) (matched w)
      /\ r = JDict d
      /\ dict_get "id" d = Some id
      /\ (k = id \/ py_key_eqb k id = true).
Proof.
  intros w items_map k r. rewrite load_items_fst. unfold load_items_run.
  destruct (source_dir w); cbn [fst].
  - intros Hload Hin.
    destruct (load_run_entries _ _ _ Hload (k, r) Hin) as [[]|H]. exact H.
  - intros H. inversion H; subst. intros [].
Qed.

Lemma catalog_entries_are_source_records_witness :
  exists filename d id,
    In (filename, Parsed (JDict d)) (matched example_world)
    /\ JDict example_item = JDict d
    /\ dict_get "id" d = Some id
    /\ (JStr "X" = id \/ py_key_eqb (JStr "X") id = true).
Proof.
  apply (catalog_entries_are_source_records example_world example_loaded).
  - exact (proj1 example_run).
  - right. left. reflexivity.
Defined.

(** ** The order of the directory listing *)

Lemma id_records_flat_map (files : list (string * read_outcome)) :
  id_records files = flat_map id_record files.
Proof.
  induction files as [|[n outcome] rest IH]; [reflexivity|].
  cbn [id_records flat_map]. unfold id_record at 1. cbn [snd].
  destruct outcome as [e|data]; [exact IH|].
  destruct data; try exact IH.
  destruct (dict_get "id" d) as [[]|]; try exact IH.
  simpl. rewrite IH. reflexivity.
Qed.

(** Selecting files from two listings of the same directory. *)
Lemma selected_permutation (keep : string * read_outcome -> bool) :
  forall entries entries' : list (string * read_outcome),
    Permutation entries entries' ->
    Permutation (filter keep entries) (filter keep entries').
Proof.
  induction 1 as [|x l l' _ IH|x y l|l l' l'' _ IH1 _ IH2]; simpl.
  - constructor.
  - destruct (keep x); [constructor|]; exact IH.
  - destruct (keep x), (keep y); try apply Permutation_refl.
    apply perm_swap.
  - exact (Permutation_trans IH1 IH2).
Qed.

Lemma last_record_key (s : string) (r : json) (records : list (string * json)) :
  last_record s records = Some r -> In s (map fst records).
Proof.
  revert r. induction records as [|[a b] rest IH]; intros r; simpl; [discriminate|].
  destruct (last_record s rest) as [later|].
  - intros _. right. exact (IH later eq_refl).
  - destruct (String.eqb a s) eqn:E; [|discriminate].
    apply String.eqb_eq in E. intros _. left. exact E.
Qed.

Lemma last_record_In (s : string) (r : json) :
  forall (records : list (string * json)),
    NoDup (map fst records) ->
    (last_record s records = Some r <-> In (s, r) records).
Proof.
  induction records as [|[s' r'] rest IH]; intros Hnd.
  - simpl. split; [discriminate | intros []].
  - inversion Hnd as [|? ? Hfresh Hrest]; subst. specialize (IH Hrest).
    cbn [last_record]. split.
    + destruct (last_record s rest) as [later|] eqn:Hlast.
      * intros H. inversion H; subst. right. apply IH. reflexivity.
      * destruct (String.eqb s' s) eqn:E; [|discriminate].
        apply String.eqb_eq in E. intros H. inversion H; subst. left. reflexivity.
    + intros [Hhead|Hin].
      * inversion Hhead; subst.
        destruct (last_record s rest) as [later|] eqn:Hlast.
        -- exfalso. apply Hfresh. exact (last_record_key s later rest Hlast).
        -- rewrite String.eqb_refl. reflexivity.
      * apply IH in Hin. rewrite Hin. reflexivity.
Qed.

Lemma last_record_permutation (s : string) (records records' : list (string * json)) :
  Permutation records records' ->
  NoDup (map fst records) ->
  last_record s records' = last_record s records.
Proof.
  intros Hperm Hnd.
  assert (Hnd' : NoDup (map fst records'))
    by (apply (Permutation_NoDup (Permutation_map fst Hperm)); exact Hnd).
  destruct (last_record s records) as [r|] eqn:Hr.
  - apply (last_record_In s r records' Hnd').
    apply (Permutation_in _ Hperm).
    apply (last_record_In s r records Hnd). exact Hr.
  - destruct (last_record s records') as [r'|] eqn:Hr'; [|reflexivity].
    apply (last_record_In s r' records' Hnd') in Hr'.
    apply (Permutation_in _ (Permutation_sym Hperm)) in Hr'.
    apply (last_record_In s r' records Hnd) in Hr'. congruence.
Qed.

(** Two catalogs that answer every string lookup alike cannot be told
    apart by the calculation, nor by lines 97-101. *)
Lemma calculate_savings_lookup_ext (m m' : catalog) :
  (forall s, catalog_get (JStr s) m' = catalog_get (JStr s) m) ->
  forall item, calculate_savings item m' = calculate_savings item m.
Proof.
  intros Hext item. unfold calculate_savings.
  destruct (py_contains "recipe" item) as [[|]|e]; simpl; try reflexivity.
  destruct (py_getitem item "recipe") as [recipe|e]; simpl; [|reflexivity].
  destruct (py_truthy recipe); simpl; [|reflexivity].
  destruct (py_items recipe) as [pairs|e]; simpl; [|reflexivity].
  rewrite (ingredient_loop_same_stack m m' pairs fzero); [reflexivity|].
  intros k q _. rewrite Hext. unfold same_stack_size.
  destruct (catalog_get (JStr k) m); [reflexivity | exact I].
Qed.

Lemma augment_lookup_ext (m m' : catalog) :
  (forall s, catalog_get (JStr s) m' = catalog_get (JStr s) m) ->
  forall data, augment data m' = augment data m.
Proof.
  intros Hext data. unfold augment.
  rewrite (calculate_savings_lookup_ext m m' Hext). reflexivity.
Qed.

Lemma publish_run_flat (items_map : catalog) :
  forall (files : list (string * read_outcome)) (processed calculated : nat)
         (counts : nat * nat),
    pub_result (publish_run items_map files processed calculated) = Ok counts ->
    pub_writes (publish_run items_map files processed calculated)
    = flat_map (publish_one items_map) files.
Proof.
  induction files as [|[n outcome] rest IH]; intros processed calculated counts;
    [reflexivity|].
  cbn [publish_run flat_map]. unfold publish_one at 1. cbn [fst snd].
  destruct outcome as [e|data].
  - cbn [pub_result pub_writes]. intros H. exact (IH _ _ _ H).
  - destruct (augment data items_map) as [augmented|e]; [|discriminate].
    cbn [pub_result pub_writes]. intros H. simpl. f_equal. exact (IH _ _ _ H).
Qed.

Lemma insert_all_nil (records : list (string * json)) :
  insert_all records [] = [] <-> records = [].
Proof.
  split; [|intros ->; reflexivity].
  intros Hnil. destruct records as [|[s r] rest]; [reflexivity|].
  exfalso.
  assert (Hin : In (JStr s) (map fst (insert_all ((s, r) :: rest) [])))
    by (apply insert_all_keys; right; exists s; split; [reflexivity | left; reflexivity]).
  rewrite Hnil in Hin. exact Hin.
Qed.

(** X14.  The order in which the directory lists its files does not matter
    when no two records share an [id].  For a directory whose matched files
    are undecodable or records with a string [id] (or none), all ids
    distinct: if a run returns normally, so does a run on the same files
    listed in any other order; the two catalogs answer every lookup alike;
    and the two destinations hold the same files with the same contents. *)
Theorem listing_order_is_irrelevant :
  forall (w w' : world) (entries entries' : list (string * read_outcome)),
    source_dir w = Some entries ->
    source_dir w' = Some entries' ->
    Permutation entries entries' ->
    NoDup (map fst entries) ->
    Forall (fun entry => record_file entry = true) (matched w) ->
    NoDup (map fst (id_records (matched w))) ->
    fst (main w) = Ok tt ->
    fst (main w') = Ok tt
    /\ (exists items_map items_map',
          fst (load_items w) = Ok items_map
          /\ fst (load_items w') = Ok items_map'
          /\ forall s, catalog_get (JStr s) items_map'
                       = catalog_get (JStr s) items_map)
    /\ (exists files files',
          dest_dir (snd (main w)) = Some files
          /\ dest_dir (snd (main w')) = Some files'
          /\ Permutation files files').
Proof.
  intros w w' entries entries' Hsrc Hsrc' Hperm Hnd Hwf Hids Hok.
  assert (Hm : Permutation (matched w) (matched w')).
  { unfold matched. rewrite Hsrc, Hsrc'. apply selected_permutation. exact Hperm. }
  assert (Hwf' : Forall (fun entry => record_file entry = true) (matched w'))
    by (exact (Permutation_Forall Hm Hwf)).
  assert (Hrecs : Permutation (id_records (matched w)) (id_records (matched w'))).
  { rewrite !id_records_flat_map. apply Permutation_flat_map. exact Hm. }
  set (cat := insert_all (id_records (matched w)) []).
  set (cat' := insert_all (id_records (matched w')) []).
  assert (Hload : fst (load_items_run w) = Ok cat).
  { unfold load_items_run. rewrite Hsrc, (load_run_records _ _ Hwf). reflexivity. }
  assert (Hload' : fst (load_items_run w') = Ok cat').
  { unfold load_items_run. rewrite Hsrc', (load_run_records _ _ Hwf'). reflexivity. }
  assert (Hext : forall s, catalog_get (JStr s) cat' = catalog_get (JStr s) cat).
  { intros s. unfold cat, cat'. rewrite !insert_all_get.
    rewrite (last_record_permutation s _ _ Hrecs Hids). reflexivity. }
  assert (Hempty : cat = [] <-> cat' = []).
  { unfold cat, cat'. rewrite !insert_all_nil. split; intros H.
    - rewrite H in Hrecs. apply Permutation_nil in Hrecs. exact Hrecs.
    - rewrite H in Hrecs. apply Permutation_sym, Permutation_nil in Hrecs.
      exact Hrecs. }
  assert (Hcats : exists items_map items_map',
             fst (load_items w) = Ok items_map
             /\ fst (load_items w') = Ok items_map'
             /\ forall s, catalog_get (JStr s) items_map'
                          = catalog_get (JStr s) items_map).
  { exists cat, cat'. rewrite !load_items_fst. auto. }
  rewrite !main_eq in *. cbn [fst snd dest_dir] in *.
  unfold main_run, pipeline_run in *. rewrite Hload, Hload' in *.
  destruct cat as [|entry more] eqn:Hcat.
  - rewrite (proj1 Hempty eq_refl). cbn [fst snd].
    split; [reflexivity|]. split; [exact Hcats|].
    exists [], []. repeat split. constructor.
  - destruct cat' as [|entry' more'] eqn:Hcat';
      [discriminate (proj2 Hempty eq_refl)|].
    cbn [fst snd] in *.
    destruct (pub_result (publish_run (entry :: more) (matched w) 0 0))
      as [counts|e] eqn:Hres; cbn [fst snd] in *; [|discriminate].
    assert (Hres' : exists counts',
               pub_result (publish_run (entry' :: more') (matched w') 0 0)
               = Ok counts').
    { apply publish_run_ok. intros filename data Hin.
      rewrite (augment_lookup_ext (entry :: more) (entry' :: more') Hext).
      apply (Permutation_in _ (Permutation_sym Hm)) in Hin.
      destruct (publish_run_complete (entry :: more) _ _ _ _ filename data Hres Hin)
        as (augmented & Haug & _).
      exists augmented. exact Haug. }
    destruct Hres' as [counts' Hres']. rewrite Hres'. cbn [fst snd].
    split; [reflexivity|]. split; [exact Hcats|].
    destruct (publish_run_counts _ _ _ _ _ Hres) as (_ & _ & Hnames).
    destruct (publish_run_counts _ _ _ _ _ Hres') as (_ & _ & Hnames').
    assert (Hndm : NoDup (parsed_names (matched w))).
    { unfold parsed_names, matched. rewrite Hsrc.
      apply selected_names_distinct, selected_names_distinct. exact Hnd. }
    assert (Hndm' : NoDup (parsed_names (matched w'))).
    { unfold parsed_names.
      apply (Permutation_NoDup
               (Permutation_map fst (selected_permutation is_parsed _ _ Hm))).
      exact Hndm. }
    rewrite !write_all_fresh by (simpl; rewrite ?Hnames, ?Hnames'; assumption).
    eexists. eexists. split; [reflexivity|]. split; [reflexivity|].
    simpl. rewrite (publish_run_flat _ _ _ _ _ Hres), (publish_run_flat _ _ _ _ _ Hres').
    apply Permutation_trans with (flat_map (publish_one (entry :: more)) (matched w')).
    + apply Permutation_flat_map. exact Hm.
    + assert (Hone : forall l, flat_map (publish_one (entry :: more)) l
                               = flat_map (publish_one (entry' :: more')) l).
      { intros l. apply flat_map_ext. intros [n o]. unfold publish_one. cbn [snd fst].
        destruct o as [e|data]; [reflexivity|].
        rewrite (augment_lookup_ext (entry :: more) (entry' :: more') Hext).
        reflexivity. }
      rewrite Hone. apply Permutation_refl.
Qed.

Lemma shuffled_is_permutation : Permutation example_entries shuffled_entries.
Proof.
  apply NoDup_Permutation.
  - exact (NoDup_map_inv fst _ example_entries_NoDup).
  - apply (NoDup_map_inv fst). repeat constructor; simpl; intuition discriminate.
  - intros entry. unfold example_entries, shuffled_entries. simpl. tauto.
Qed.

Lemma listing_order_is_irrelevant_witness :
  fst (main shuffled_world) = Ok tt
  /\ (exists items_map items_map',
        fst (load_items example_world) = Ok items_map
        /\ fst (load_items shuffled_world) = Ok items_map'
        /\ forall s, catalog_get (JStr s) items_map'
                     = catalog_get (JStr s) items_map)
  /\ (exists files files',
        dest_dir (snd (main example_world)) = Some files
        /\ dest_dir (snd (main shuffled_world)) = Some files'
        /\ Permutation files files').
Proof.
  apply (listing_order_is_irrelevant example_world shuffled_world
           example_entries shuffled_entries).
  - reflexivity.
  - reflexivity.
  - exact shuffled_is_permutation.
  - exact example_entries_NoDup.
  - repeat constructor.
  - repeat constructor; simpl; intuition discriminate.
  - exact (proj1 (proj2 example_run)).
Defined.

(** ** Well-typed data never raise

    The two conversions that can overflow, [float(z)] and the quotient of
    two integers, do not for integers below [2 ^ 1000] in magnitude: the
    lemmas bound the exponent that the rounding of [SpecFloat] reaches. *)

Lemma fexp_le (x : Z) : x <= 1024 -> fexp prec emax x <= emax - prec.
Proof.
  unfold fexp, SpecFloat.emin. change prec with 53. change emax with 1024. lia.
Qed.

Lemma shr_fexp_exponent (m e : Z) (l : location) :
  snd (shr_fexp prec emax m e l) = Z.max e (fexp prec emax (Zdigits2 m + e)).
Proof.
  unfold shr_fexp, shr.
  destruct (fexp prec emax (Zdigits2 m + e) - e) as [|n|n] eqn:Hn; cbn [snd]; lia.
Qed.

(** Rounding a positive mantissa of moderate magnitude does not overflow. *)
Lemma binary_round_aux_finite (sx : bool) (m e : Z) (l : location) :
  0 < m -> emin < Zdigits2 m + e -> Zdigits2 m + e < 1024 -> e <= emax - prec ->
  is_infinite (binary_round_aux prec emax sx m e l) = false.
Proof.
  intros Hm Hlow Hhigh He. unfold binary_round_aux.
  destruct (shr_fexp_pos m e l Hm Hlow) as [Hpos1 Hmag1].
  pose proof (shr_fexp_exponent m e l) as He1.
  destruct (shr_fexp prec emax m e l) as [mrs' e'] eqn:H1. cbn [fst snd] in *.
  set (m1 := round_nearest_even (shr_m mrs') (loc_of_shr_record mrs')).
  pose proof (round_nearest_even_pos (shr_m mrs') (loc_of_shr_record mrs') Hpos1) as Hr.
  fold m1 in Hr.
  assert (Hm1 : 0 < m1) by lia.
  assert (Hd1 : Zdigits2 m1 <= Zdigits2 (shr_m mrs') + 1).
  { rewrite (Zdigits2_pos m1), (Zdigits2_pos (shr_m mrs')) by lia.
    assert (Z.log2 m1 <= Z.log2 (shr_m mrs' + 1)) by (apply Z.log2_le_mono; lia).
    assert (Z.log2 (shr_m mrs' + 1) <= Z.log2 (shr_m mrs') + 1).
    { replace (shr_m mrs' + 1) with (Z.succ (shr_m mrs')) by lia.
      apply Z.log2_succ_le. }
    lia. }
  assert (Hd1' : Zdigits2 (shr_m mrs') <= Zdigits2 m1).
  { rewrite (Zdigits2_pos m1), (Zdigits2_pos (shr_m mrs')) by lia.
    assert (Z.log2 (shr_m mrs') <= Z.log2 m1) by (apply Z.log2_le_mono; lia). lia. }
  assert (Hmag2 : emin < Zdigits2 m1 + e') by lia.
  pose proof (shr_fexp_exponent m1 e' loc_Exact) as He2.
  destruct (shr_fexp_pos m1 e' loc_Exact Hm1 Hmag2) as [Hpos2 _].
  destruct (shr_fexp prec emax m1 e' loc_Exact) as [mrs'' e'']. cbn [fst snd] in *.
  destruct (shr_m mrs'') as [|p|p]; try reflexivity.
  assert (Hfin : e'' <= emax - prec).
  { rewrite He2.
    pose proof (fexp_le (Zdigits2 m + e)) as F1.
    pose proof (fexp_le (Zdigits2 m1 + e')) as F2.
    change (emax - prec) with 971 in *. lia. }
  apply Z.leb_le in Hfin. rewrite Hfin. reflexivity.
Qed.

Lemma Zdigits2_bound (p : positive) (n : Z) :
  0 <= n -> Zpos p < 2 ^ n -> Zdigits2 (Zpos p) <= n.
Proof.
  intros Hn Hlt. rewrite Zdigits2_log2.
  assert (Z.log2 (Zpos p) < n) by (apply Z.log2_lt_pow2; lia). lia.
Qed.

Lemma int_to_float_defined (z : Z) :
  Z.abs z < 2 ^ 1023 -> exists f, int_to_float z = Ok f.
Proof.
  intros Hz. unfold int_to_float.
  assert (Hfin : is_infinite (binary_normalize prec emax z 0 false) = false).
  { destruct z as [|p|p]; [reflexivity| |];
      unfold binary_normalize, binary_round;
      pose proof (shl_align_digits p 0 (fexp prec emax (Zpos (digits2_pos p) + 0))) as Hd;
      pose proof (Zdigits2_bound p 1023 ltac:(lia) ltac:(lia)) as Hb;
      assert (Hez : snd (shl_align p 0 (fexp prec emax (Zpos (digits2_pos p) + 0))) <= 0)
        by (unfold shl_align; destruct (fexp prec emax (Zpos (digits2_pos p) + 0) - 0) eqn:E;
            cbn [snd]; lia);
      destruct (shl_align p 0 (fexp prec emax (Zpos (digits2_pos p) + 0))) as [mz ez];
      cbn [fst snd] in *;
      (apply binary_round_aux_finite;
       [lia
       | rewrite Hd; simpl Zdigits2; unfold SpecFloat.emin;
         change prec with 53; change emax with 1024; lia
       | rewrite Hd; lia
       | change prec with 53; change emax with 1024; lia]). }
  rewrite Hfin. eexists. reflexivity.
Qed.

Lemma Zdigits2_spec (m : Z) :
  0 < m -> 2 ^ (Zdigits2 m - 1) <= m < 2 ^ Zdigits2 m.
Proof.
  intros Hm. rewrite Zdigits2_pos by exact Hm.
  replace (Z.log2 m + 1 - 1) with (Z.log2 m) by lia.
  replace (Z.log2 m + 1) with (Z.succ (Z.log2 m)) by lia.
  apply Z.log2_spec. exact Hm.
Qed.

Lemma Zdigits2_le_pow (m n : Z) : 0 < m -> 0 <= n -> m < 2 ^ n -> Zdigits2 m <= n.
Proof.
  intros Hm Hn Hlt. rewrite Zdigits2_pos by exact Hm.
  assert (Z.log2 m < n) by (apply Z.log2_lt_pow2; lia). lia.
Qed.

Lemma Zdigits2_ge_pow (m n : Z) : 0 <= n -> 2 ^ n <= m -> n + 1 <= Zdigits2 m.
Proof.
  intros Hn Hle.
  assert (Hm : 0 < m) by (pose proof (Z.pow_pos_nonneg 2 n); lia).
  rewrite Zdigits2_pos by exact Hm.
  assert (n <= Z.log2 m) by (apply Z.log2_le_pow2; lia). lia.
Qed.

(** The quotient that [SFdiv] hands to the rounding, for two integers. *)
Lemma SFdiv_core_bounds (ma mb : positive) :
  Zpos ma < 2 ^ 1023 -> Zpos mb < 2 ^ 1000 ->
  let '(q, e, l) := SFdiv_core_binary prec emax (Zpos ma) 0 (Zpos mb) 0 in
  0 < q /\ emin < Zdigits2 q + e /\ Zdigits2 q + e < 1024 /\ e <= 0.
Proof.
  intros Ha Hb. unfold SFdiv_core_binary.
  set (d1 := Zdigits2 (Zpos ma)). set (d2 := Zdigits2 (Zpos mb)).
  assert (Hd1 : 1 <= d1 <= 1023).
  { unfold d1. split; [simpl; lia | apply Zdigits2_bound; lia]. }
  assert (Hd2 : 1 <= d2 <= 1000).
  { unfold d2. split; [simpl; lia | apply Zdigits2_bound; lia]. }
  pose proof (Zdigits2_spec (Zpos ma) ltac:(lia)) as Sa. fold d1 in Sa.
  pose proof (Zdigits2_spec (Zpos mb) ltac:(lia)) as Sb. fold d2 in Sb.
  replace (d1 + 0 - (d2 + 0)) with (d1 - d2) by lia.
  assert (Hfexp : fexp prec emax (d1 - d2) = d1 - d2 - 53).
  { unfold fexp, SpecFloat.emin. change prec with 53. change emax with 1024. lia. }
  rewrite Hfexp. change (0 - 0) with 0.
  set (e := Z.min (d1 - d2 - 53) 0).
  set (s := 0 - e).
  assert (Hs : 0 <= s /\ 53 + d2 - d1 <= s) by (unfold s, e; lia).
  set (m' := match s with Z.pos _ => Z.shiftl (Zpos ma) s | 0 => Zpos ma | Z.neg _ => 0 end).
  assert (Hm' : m' = Zpos ma * 2 ^ s).
  { unfold m'. clearbody s. destruct s as [|p|p]; try lia.
    apply Z.shiftl_mul_pow2. lia. }
  pose proof (Z.div_eucl_eq m' (Zpos mb) ltac:(lia)) as Heq.
  pose proof (Z.mod_pos_bound m' (Zpos mb) ltac:(lia)) as Hmod.
  unfold Z.modulo in Hmod.
  destruct (Z.div_eucl m' (Zpos mb)) as [q r]. 
  assert (Hpow_s : 0 < 2 ^ s) by (apply Z.pow_pos_nonneg; lia).
  assert (Hlow : 2 ^ (d1 - 1 + s - d2) <= q).
  { assert (Hk : 0 <= d1 - 1 + s - d2) by lia.
    assert (H1 : 2 ^ (d1 - 1 + s - d2) * 2 ^ d2 = 2 ^ (d1 - 1) * 2 ^ s).
    { rewrite <- !Z.pow_add_r by lia. f_equal. lia. }
    assert (H2 : 2 ^ (d1 - 1 + s - d2) * Zpos mb < m' + 2 ^ (d1 - 1 + s - d2) * 0 + 1).
    { assert (2 ^ (d1 - 1 + s - d2) * Zpos mb < 2 ^ (d1 - 1 + s - d2) * 2 ^ d2).
      { apply Z.mul_lt_mono_pos_l; [apply Z.pow_pos_nonneg; lia | lia]. }
      assert (2 ^ (d1 - 1) * 2 ^ s <= m') by (rewrite Hm'; apply Z.mul_le_mono_nonneg_r; lia).
      lia. }
    destruct (Z_lt_le_dec q (2 ^ (d1 - 1 + s - d2))) as [Hlt|Hge]; [|exact Hge].
    exfalso.
    assert (Zpos mb * (q + 1) <= Zpos mb * 2 ^ (d1 - 1 + s - d2))
      by (apply Z.mul_le_mono_nonneg_l; lia).
    nia. }
  assert (Hq : 0 < q).
  { assert (0 < 2 ^ (d1 - 1 + s - d2)) by (apply Z.pow_pos_nonneg; lia). lia. }
  assert (Hup : q < 2 ^ (d1 + s)).
  { assert (m' < 2 ^ d1 * 2 ^ s) by (rewrite Hm'; apply Z.mul_lt_mono_pos_r; lia).
    rewrite Z.pow_add_r by lia.
    assert (q <= m') by nia. lia. }
  pose proof (Zdigits2_le_pow q (d1 + s) Hq ltac:(lia) Hup) as Hdq1.
  pose proof (Zdigits2_ge_pow q (d1 - 1 + s - d2) ltac:(lia) Hlow) as Hdq2.
  unfold SpecFloat.emin. change prec with 53 in *. change emax with 1024 in *.
  unfold s in *. repeat split; lia.
Qed.

Lemma int_truediv_defined (a b : Z) :
  Z.abs a < 2 ^ 1023 -> Z.abs b < 2 ^ 1000 -> b <> 0 ->
  exists f, int_truediv a b = Ok f.
Proof.
  intros Ha Hb Hnz. unfold int_truediv.
  destruct (b =? 0) eqn:E; [apply Z.eqb_eq in E; contradiction|].
  assert (Hfin : is_infinite (fdiv (exact_of_int a) (exact_of_int b)) = false).
  { unfold fdiv.
    destruct a as [|ma|ma]; destruct b as [|mb|mb]; try contradiction;
      try reflexivity; simpl exact_of_int; unfold SFdiv;
      pose proof (SFdiv_core_bounds ma mb ltac:(lia) ltac:(lia)) as Hc;
      destruct (SFdiv_core_binary prec emax (Zpos ma) 0 (Zpos mb) 0) as [[q e] l];
      destruct Hc as (H1 & H2 & H3 & H4);
      apply binary_round_aux_finite; try assumption;
      change (emax - prec) with 971; lia. }
  rewrite Hfin. eexists. reflexivity.
Qed.

Lemma plain_number_num (v : json) :
  plain_number v = true ->
  exists x, num_of v = Some x
            /\ match x with NInt z => Z.abs z < 2 ^ 1000 | NFloat _ => True end.
Proof.
  destruct v; simpl; try discriminate.
  - intros _. eexists. split; [reflexivity|]. destruct b; simpl; lia.
  - intros H. apply Z.ltb_lt in H. eexists. split; [reflexivity | exact H].
  - intros _. eexists. split; [reflexivity | exact I].
Qed.

Lemma clamp_plain_number (v : json) :
  plain_number v = true ->
  exists size, clamp_stack_size v = Ok size
               /\ plain_number size = true
               /\ py_le_zero size = Ok false.
Proof.
  intros Hv. destruct (plain_number_num v Hv) as (x & Hx & _).
  unfold clamp_stack_size.
  assert (Hle : exists b, py_le_zero v = Ok b)
    by (unfold py_le_zero; rewrite Hx; destruct x; eexists; reflexivity).
  destruct Hle as [b Hle]. rewrite Hle. simpl.
  destruct b; eexists; repeat split; auto.
Qed.

Lemma py_truediv_plain (quantity size : json) :
  plain_number quantity = true ->
  plain_number size = true ->
  py_le_zero size = Ok false ->
  exists f, py_truediv quantity size = Ok f.
Proof.
  intros Hq Hs Hpos.
  destruct (plain_number_num quantity Hq) as (x & Hx & Bx).
  destruct (plain_number_num size Hs) as (y & Hy & By).
  unfold py_truediv. unfold py_le_zero in Hpos. rewrite Hx, Hy. rewrite Hy in Hpos.
  assert (Hpow : 2 ^ 1000 < 2 ^ 1023) by (apply Z.pow_lt_mono_r; lia).
  destruct x as [a|f], y as [b|g]; simpl; inversion Hpos as [Hz].
  - apply Z.leb_gt in Hz. apply int_truediv_defined; lia.
  - destruct (int_to_float_defined a ltac:(lia)) as [fa Hfa].
    unfold float_truediv. simpl. rewrite Hfa. simpl.
    rewrite (SFleb_false_nonzero g Hz). eexists. reflexivity.
  - apply Z.leb_gt in Hz. destruct b as [|p|p]; try lia.
    destruct (int_to_float_defined (Zpos p) ltac:(lia)) as [fb Hfb].
    unfold float_truediv. simpl. rewrite Hfb. simpl.
    rewrite (int_to_float_pos_nonzero p fb Hfb). eexists. reflexivity.
  - unfold float_truediv. simpl.
    rewrite (SFleb_false_nonzero g Hz). eexists. reflexivity.
Qed.

Lemma catalog_get_In (k r : json) (m : catalog) :
  catalog_get k m = Some r -> exists k', In (k', r) m.
Proof.
  induction m as [|[k0 v0] rest IH]; simpl; [discriminate|].
  destruct (py_key_eqb k0 k).
  - intros H. inversion H; subst. exists k0. left. reflexivity.
  - intros H. destruct (IH H) as [k' Hin]. exists k'. right. exact Hin.
Qed.

Lemma effective_plain (d : dict) :
  field_ok d "stackSize" = true ->
  exists size, Spec.effectiveStackSize (JDict d) = Ok size
               /\ plain_number size = true
               /\ py_le_zero size = Ok false.
Proof.
  intros Hok. rewrite <- clamp_effective. simpl. unfold dict_get_default.
  unfold field_ok in Hok.
  destruct (dict_get "stackSize" d) as [v|].
  - apply clamp_plain_number. exact Hok.
  - apply clamp_plain_number. reflexivity.
Qed.

Lemma ingredient_loop_plain (items_map : catalog) :
  well_typed_catalog items_map = true ->
  forall (pairs : list (string * json)) (acc : pyfloat),
    forallb (fun pair => plain_number (snd pair)) pairs = true ->
    exists r, ingredient_loop items_map pairs acc = Ok r.
Proof.
  intros Hcat. induction pairs as [|[k q] rest IH]; intros acc Hpairs.
  - eexists. reflexivity.
  - simpl in Hpairs. apply andb_true_iff in Hpairs. destruct Hpairs as [Hq Hrest].
    rewrite ingredient_loop_step.
    destruct (catalog_get (JStr k) items_map) as [ingredient|] eqn:Hget;
      [|eexists; reflexivity].
    destruct (catalog_get_In _ _ _ Hget) as [k' Hin].
    unfold well_typed_catalog in Hcat. rewrite forallb_forall in Hcat.
    specialize (Hcat _ Hin). simpl in Hcat.
    destruct ingredient; try discriminate.
    destruct (effective_plain d Hcat) as (size & Hsize & Hplain & Hpos).
    rewrite Hsize. simpl.
    destruct (py_truediv_plain q size Hq Hplain Hpos) as [term Hterm].
    rewrite Hterm. simpl. apply IH. exact Hrest.
Qed.

(** The calculation on a well-typed record and catalog. *)
Lemma calculate_savings_well_typed (d : dict) (items_map : catalog) :
  well_typed_record d = true ->
  well_typed_catalog items_map = true ->
  exists r, calculate_savings (JDict d) items_map = Ok r.
Proof.
  intros Hrec Hcat.
  unfold well_typed_record in Hrec.
  apply andb_true_iff in Hrec. destruct Hrec as [Hrec Hstack].
  apply andb_true_iff in Hrec. destruct Hrec as [Hrecipe Hcraft].
  unfold calculate_savings, py_contains, py_getitem, dict_mem.
  destruct (dict_get "recipe" d) as [recipe|]; simpl; [|eexists; reflexivity].
  destruct recipe as [| | | | | |pairs]; try discriminate.
  destruct (py_truthy (JDict pairs)); simpl; [|eexists; reflexivity].
  destruct (ingredient_loop_plain items_map Hcat pairs fzero Hrecipe) as [[acc|] Hloop];
    rewrite Hloop; simpl; [|eexists; reflexivity].
  pose proof (effective_plain d Hstack) as (size & Hsize & Hplain & Hpos).
  rewrite <- clamp_effective in Hsize. simpl in Hsize. rewrite Hsize. simpl.
  assert (Hq : plain_number (dict_get_default "craftQuantity" (JInt 1) d) = true).
  { unfold dict_get_default, field_ok in *.
    destruct (dict_get "craftQuantity" d); [exact Hcraft | reflexivity]. }
  destruct (py_truediv_plain _ size Hq Hplain Hpos) as [target Htarget].
  rewrite Htarget. simpl. eexists. reflexivity.
Qed.

(** X15.  On well-typed data [calculate_savings] raises nothing: for a
    record whose [recipe], if present, is an object with plain-number
    quantities, whose [craftQuantity] and [stackSize], if present, are
    plain numbers, and a catalog of records whose [stackSize], if present,
    is a plain number, it returns [None] or a float.  (A plain number is a
    float, a boolean, or an integer below [2 ^ 1000] in magnitude.) *)
Theorem calculate_savings_total_on_well_typed :
  forall (d : dict) (items_map : catalog),
    well_typed_record d = true ->
    well_typed_catalog items_map = true ->
    exists r, calculate_savings (JDict d) items_map = Ok r.
Proof. exact calculate_savings_well_typed. Qed.


Lemma calculate_savings_total_on_well_typed_witness :
  exists r, calculate_savings (JDict example_item) example_loaded = Ok r.
Proof.
  apply (calculate_savings_total_on_well_typed example_item example_loaded);
    reflexivity.
Defined.

(** The catalog loaded from well-typed files is well typed. *)
Lemma loaded_catalog_well_typed (w : world) (items_map : catalog) :
  Forall (fun entry => well_typed_file entry = true) (matched w) ->
  fst (load_items w) = Ok items_map ->
  well_typed_catalog items_map = true.
Proof.
  intros Hwf Hload. rewrite load_items_fst in Hload. unfold load_items_run in Hload.
  unfold well_typed_catalog. apply forallb_forall. intros [k r] Hin. simpl.
  destruct (source_dir w); cbn [fst] in Hload;
    [|inversion Hload; subst; destruct Hin].
  destruct (load_run_entries _ _ _ Hload (k, r) Hin)
    as [[]|(filename & d & id & Hfile & Hr & _)].
  simpl in Hr. subst r.
  rewrite Forall_forall in Hwf. specialize (Hwf _ Hfile).
  unfold well_typed_file in Hwf. simpl in Hwf.
  apply andb_true_iff in Hwf. destruct Hwf as [_ Hrec].
  unfold well_typed_record in Hrec. apply andb_true_iff in Hrec. exact (proj2 Hrec).
Qed.

Lemma well_typed_is_record (files : list (string * read_outcome)) :
  Forall (fun entry => well_typed_file entry = true) files ->
  Forall (fun entry => record_file entry = true) files.
Proof.
  apply Forall_impl. intros [n outcome]. unfold well_typed_file. simpl.
  destruct outcome as [[|e]|data]; try discriminate; [reflexivity|].
  destruct data; try discriminate.
  intros H. apply andb_true_iff in H. exact (proj1 H).
Qed.

Lemma augment_well_typed (d : dict) (items_map : catalog) :
  well_typed_record d = true ->
  well_typed_catalog items_map = true ->
  exists augmented, augment (JDict d) items_map = Ok augmented.
Proof.
  intros Hrec Hcat. unfold augment. simpl.
  destruct (dict_mem "id" d); [|eexists; reflexivity].
  destruct (calculate_savings_well_typed d items_map Hrec Hcat) as [[s|] Hs];
    rewrite Hs; simpl; eexists; reflexivity.
Qed.

(** X16.  On a directory whose matched files are all either undecodable or
    well-typed records with a string [id] (or none), neither the loader nor
    the calculation raises: [load_items] returns a catalog, and for every
    decoded file lines 97-101 (the test of [id], [calculate_savings], the
    assignment of [stashSavings]) run to their end. *)
Theorem well_typed_directory_calculates :
  forall (w : world),
    Forall (fun entry => well_typed_file entry = true) (matched w) ->
    exists items_map,
      fst (load_items w) = Ok items_map
      /\ forall filename data,
           In (filename, Parsed data) (matched w) ->
           exists augmented, augment data items_map = Ok augmented.
Proof.
  intros w Hwt.
  pose proof (well_typed_is_record _ Hwt) as Hwf.
  assert (Hload : exists items_map, fst (load_items w) = Ok items_map).
  { rewrite load_items_fst. unfold load_items_run.
    destruct (source_dir w); cbn [fst]; [|eexists; reflexivity].
    rewrite (load_run_records _ _ Hwf). eexists. reflexivity. }
  destruct Hload as [items_map Hload]. exists items_map. split; [exact Hload|].
  pose proof (loaded_catalog_well_typed w items_map Hwt Hload) as Hcat.
  intros filename data Hin.
  rewrite Forall_forall in Hwt. specialize (Hwt _ Hin).
  unfold well_typed_file in Hwt. simpl in Hwt.
  destruct data; try discriminate.
  apply andb_true_iff in Hwt. destruct Hwt as [_ Hrec].
  apply augment_well_typed; assumption.
Qed.

Lemma well_typed_directory_calculates_witness :
  exists items_map,
    fst (load_items example_world) = Ok items_map
    /\ forall filename data,
         In (filename, Parsed data) (matched example_world) ->
         exists augmented, augment data items_map = Ok augmented.
Proof.
  apply (well_typed_directory_calculates example_world).
  unfold matched. simpl. repeat constructor.
Defined.
